(** * TRPG dice roller: a shallow embedding of [src/Dicer.py] and [src/dicer.py]

    Both files define a class [DiceRoller] with the methods [roll_dice],
    [check_success], [evaluate_expression], [quick_roll], [repeat_roll] and
    [_execute_rolls].  The text of every method but [evaluate_expression] is
    the same in the two files (up to the name of one parameter), so those
    methods are embedded once; [evaluate_expression] is embedded twice, in
    the modules [Dicer] (for [src/Dicer.py]) and [dicer] (for [src/dicer.py]).

    Modelling conventions.
    - A Python [str] is the list of its code points ([pystr]).
    - Python's [int] is [Z]; the interpreter's configurable limit on the
      length of int/str conversions is not modelled.
    - [random] is a tape of raw numbers; [randint a b] reads one cell and
      reduces it into the inclusive range [a..b].
    - Raising is a left injection: [result] for code that draws nothing,
      [M] for code that draws.  The [try ... except Exception as e] of the
      entry points is [try_except].
    - The text of the messages of exceptions raised by the interpreter
      itself (not by a [raise] of the program) is a parameter
      ([Interpreter]); the instance [CPython] serves the examples.
    - The loop of the main block is embedded one turn at a time
      ([main_turn]): the line read by [input] is an argument and the text
      handed to [print] is the result.  The case mapping of [str.lower]
      is a parameter ([Unicode]); the instance [AsciiLower] serves the
      examples.
    - Limits of the machine (memory, time) are not modelled. *)

From Stdlib Require Import List ZArith NArith Lia Bool.
From Stdlib Require DecimalPos.
From Stdlib.Strings Require Import String Ascii Byte.
Import ListNotations.

Set Implicit Arguments.

(** ** Python strings *)

(** A character is its code point; a string is the list of its characters. *)
Abbreviation char := N (only parsing).
Abbreviation pystr := (list N).

Section Utf8.
Local Open Scope N_scope.

(** Decoder for the UTF-8 bytes of a string literal of this file. *)
Fixpoint utf8_decode (pending : nat) (acc : N) (bs : list byte) : pystr :=
  match bs with
  | [] => []
  | b :: bs' =>
      let n := Byte.to_N b in
      match pending with
      | O =>
          if n <? 128 then n :: utf8_decode 0 0 bs'
          else if n <? 224 then utf8_decode 1 (n - 192) bs'
          else if n <? 240 then utf8_decode 2 (n - 224) bs'
          else utf8_decode 3 (n - 240) bs'
      | S O => (acc * 64 + (n - 128)) :: utf8_decode 0 0 bs'
      | S k => utf8_decode k (acc * 64 + (n - 128)) bs'
      end
  end.
End Utf8.

(** [u "text"] is the Python string literal ["text"]. *)
Definition u (s : string) : pystr := utf8_decode 0 0 (list_byte_of_string s).
Arguments u s%_string.

Section Characters.
Local Open Scope N_scope.

(** [str.isspace] on one character; the class [\s] of [re] on [str]
    patterns and the characters removed by [str.strip()]. *)
Definition isspace (c : char) : bool :=
  ((9 <=? c) && (c <=? 13)) || ((28 <=? c) && (c <=? 32))
  || (c =? 133) || (c =? 160) || (c =? 5760)
  || ((8192 <=? c) && (c <=? 8202))
  || (c =? 8232) || (c =? 8233) || (c =? 8239) || (c =? 8287)
  || (c =? 12288).

(** First code point of every run of ten decimal digits (Unicode 14,
    general category Nd); run [b] holds the digits 0..9 at [b..b+9]. *)
Definition decimal_blocks : list N :=
  [48; 1632; 1776; 1984; 2406; 2534; 2662; 2790; 2918; 3046; 3174; 3302;
   3430; 3558; 3664; 3792; 3872; 4160; 4240; 6112; 6160; 6470; 6608; 6784;
   6800; 6992; 7088; 7232; 7248; 42528; 43216; 43264; 43472; 43504; 43600;
   44016; 65296; 66720; 68912; 69734; 69872; 69942; 70096; 70384; 70736;
   70864; 71248; 71360; 71472; 71904; 72016; 72784; 73040; 73120; 92768;
   92864; 93008; 120782; 120792; 120802; 120812; 120822; 123200; 123632;
   125264; 130032].

(** The decimal value of a character, when it is a decimal digit: the
    class [\d] of [re] on [str] patterns, and the digits [int()] reads. *)
Definition decimal (c : char) : option N :=
  match find (fun b => (b <=? c) && (c <? b + 10)) decimal_blocks with
  | Some b => Some (c - b)
  | None => None
  end.

Definition isdecimal (c : char) : bool :=
  match decimal c with Some _ => true | None => false end.

(** The whitespace [int()] skips around a literal: the ASCII characters
    tab..carriage return and space, and the whitespace beyond ASCII. *)
Definition int_space (c : char) : bool :=
  ((9 <=? c) && (c <=? 13)) || (c =? 32) || ((127 <=? c) && isspace c).
End Characters.

Section StringOperations.

Definition char_eqb : char -> char -> bool := N.eqb.

(** [s.startswith(p)] *)
Fixpoint startswith (p s : pystr) : bool :=
  match p, s with
  | [], _ => true
  | _ :: _, [] => false
  | a :: p', b :: s' => char_eqb a b && startswith p' s'
  end.

(** [sub in s] *)
Fixpoint contains (sub s : pystr) : bool :=
  startswith sub s ||
  match s with
  | [] => false
  | _ :: s' => contains sub s'
  end.

(** [s.replace(old, new)] for a non-empty [old]: the occurrences of [old]
    are replaced left to right, without overlap.  [skip] counts the
    characters of the current occurrence that are still to be passed. *)
Fixpoint replace_from (old new : pystr) (skip : nat) (s : pystr) : pystr :=
  match s with
  | [] => []
  | c :: s' =>
      match skip with
      | S k => replace_from old new k s'
      | O =>
          if startswith old s
          then new ++ replace_from old new (List.length old - 1) s'
          else c :: replace_from old new 0 s'
      end
  end.
Definition replace (old new s : pystr) : pystr := replace_from old new 0 s.

(** [s.lstrip()], [s.rstrip()], [s.strip()] *)
Fixpoint lstrip (s : pystr) : pystr :=
  match s with
  | c :: s' => if isspace c then lstrip s' else s
  | [] => []
  end.
Definition rstrip (s : pystr) : pystr := rev (lstrip (rev s)).
Definition strip (s : pystr) : pystr := rstrip (lstrip s).

(** [s.split(sep)] for a one-character separator: [cur] is the field
    read so far, in reverse. *)
Fixpoint split_from (sep : char) (cur : pystr) (s : pystr) : list pystr :=
  match s with
  | [] => [rev cur]
  | c :: s' =>
      if char_eqb c sep then rev cur :: split_from sep [] s'
      else split_from sep (c :: cur) s'
  end.
Definition split (sep : char) (s : pystr) : list pystr := split_from sep [] s.

(** [sep.join(parts)] *)
Fixpoint join (sep : pystr) (parts : list pystr) : pystr :=
  match parts with
  | [] => []
  | [p] => p
  | p :: rest => p ++ sep ++ join sep rest
  end.

(** [str(n)] for an [int] *)
Fixpoint uint_chars (d : Decimal.uint) : pystr :=
  match d with
  | Decimal.Nil => []
  | Decimal.D0 d => 48%N :: uint_chars d
  | Decimal.D1 d => 49%N :: uint_chars d
  | Decimal.D2 d => 50%N :: uint_chars d
  | Decimal.D3 d => 51%N :: uint_chars d
  | Decimal.D4 d => 52%N :: uint_chars d
  | Decimal.D5 d => 53%N :: uint_chars d
  | Decimal.D6 d => 54%N :: uint_chars d
  | Decimal.D7 d => 55%N :: uint_chars d
  | Decimal.D8 d => 56%N :: uint_chars d
  | Decimal.D9 d => 57%N :: uint_chars d
  end.
Definition str (n : Z) : pystr :=
  match Z.to_int n with
  | Decimal.Pos d => uint_chars d
  | Decimal.Neg d => 45%N :: uint_chars d
  end.

(** [int(s)] in base 10: optional whitespace, an optional sign, decimal
    digits with single underscores between them, optional whitespace.
    [None] stands for the ValueError of a text that is no literal. *)
Fixpoint int_digits (acc : N) (after_digit : bool) (s : pystr) : option N :=
  match s with
  | [] => if after_digit then Some acc else None
  | c :: s' =>
      match decimal c with
      | Some d => int_digits (10 * acc + d) true s'
      | None =>
          if char_eqb c 95%N && after_digit then int_digits acc false s'
          else None
      end
  end.
Fixpoint int_lskip (s : pystr) : pystr :=
  match s with
  | c :: s' => if int_space c then int_lskip s' else s
  | [] => []
  end.
Definition int_trim (s : pystr) : pystr := rev (int_lskip (rev (int_lskip s))).
Definition int (s : pystr) : option Z :=
  match int_trim s with
  | [] => None
  | c :: body =>
      if char_eqb c 45%N then
        option_map (fun n => (- Z.of_N n)%Z) (int_digits 0 false body)
      else if char_eqb c 43%N then
        option_map Z.of_N (int_digits 0 false body)
      else option_map Z.of_N (int_digits 0 false (c :: body))
  end.

End StringOperations.

(** ** Regular expressions ([re.match])

    The patterns of the program use literals, the classes [\d], [\s], [.]
    and a set, greedy [*] and [+] on one class, [?] on a group, [|] and
    numbered groups.  [run] is a backtracking matcher in continuation
    passing style: a quantifier first tries its longest match and gives
    characters back when the rest of the pattern fails. *)

Inductive cclass :=
| c_lit (c : char)          (* one literal character *)
| c_set (cs : pystr)        (* [...]   *)
| c_digit                   (* \d      *)
| c_space                   (* \s      *)
| c_dot.                    (* .  : any character but a newline *)

Inductive regex :=
| Chr (k : cclass)
| Star (k : cclass)         (* k*  *)
| Plus (k : cclass)         (* k+  *)
| Seq (r1 r2 : regex)
| Alt (r1 r2 : regex)       (* r1|r2 *)
| Opt (r : regex)           (* r?  *)
| Group (i : nat) (r : regex).

Definition captures := list (nat * pystr).

Definition test (k : cclass) (c : char) : bool :=
  match k with
  | c_lit a => char_eqb a c
  | c_set cs => existsb (char_eqb c) cs
  | c_digit => isdecimal c
  | c_space => isspace c
  | c_dot => negb (char_eqb c 10%N)
  end.

Section Matcher.
Variable A : Type.

Fixpoint star (p : char -> bool) (s : pystr) (k : pystr -> option A) : option A :=
  match s with
  | c :: s' =>
      if p c
      then match star p s' k with
           | Some r => Some r
           | None => k s
           end
      else k s
  | [] => k s
  end.

Fixpoint run (r : regex) (s : pystr) (caps : captures)
         (k : pystr -> captures -> option A) : option A :=
  match r with
  | Chr c =>
      match s with
      | x :: s' => if test c x then k s' caps else None
      | [] => None
      end
  | Star c => star (test c) s (fun s' => k s' caps)
  | Plus c =>
      match s with
      | x :: s' => if test c x then star (test c) s' (fun s'' => k s'' caps) else None
      | [] => None
      end
  | Seq r1 r2 => run r1 s caps (fun s' caps' => run r2 s' caps' k)
  | Alt r1 r2 =>
      match run r1 s caps k with
      | Some a => Some a
      | None => run r2 s caps k
      end
  | Opt r1 =>
      match run r1 s caps k with
      | Some a => Some a
      | None => k s caps
      end
  | Group i r1 =>
      run r1 s caps
          (fun s' caps' =>
             k s' ((i, firstn (List.length s - List.length s') s) :: caps'))
  end.
End Matcher.

(** [re.match(pattern, s)]: the match is anchored at the start of [s]
    only.  The result holds the text of the groups that took part. *)
Definition re_match (pattern : regex) (s : pystr) : option captures :=
  run pattern s [] (fun _ caps => Some caps).

(** [m.group(i)]; [None] when group [i] took no part in the match. *)
Fixpoint group (m : captures) (i : nat) : option pystr :=
  match m with
  | [] => None
  | (j, t) :: m' => if Nat.eqb i j then Some t else group m' i
  end.

(** Truth value of [m.group(i)]: [None] and [''] are false. *)
Definition truthy (o : option pystr) : bool :=
  match o with
  | Some (_ :: _) => true
  | _ => false
  end.

(** [m.group(i) == t] *)
Definition group_is (o : option pystr) (t : pystr) : bool :=
  match o with
  | Some t' => if list_eq_dec N.eq_dec t' t then true else false
  | None => false
  end.

(** [f'{m.group(i)}'] *)
Definition fmt (o : option pystr) : pystr :=
  match o with
  | Some t => t
  | None => u "None"
  end.

Declare Scope regex_scope.
Delimit Scope regex_scope with re.
Infix "··" := Seq (at level 60, right associativity) : regex_scope.

Definition lit (s : string) : cclass :=
  match u s with
  | c :: _ => c_lit c
  | [] => c_set []
  end.
Arguments lit s%_string.

(** The pattern of [roll_dice] (src/Dicer.py:63, src/dicer.py:59): group 1,
    zero or more digits; the letter d; group 2, one or more digits; then
    optionally group 3, a sign followed by one or more digits. *)
Definition DICE_PATTERN : regex :=
  (Group 1 (Star c_digit) ·· Chr (lit "d") ·· Group 2 (Plus c_digit)
   ·· Opt (Group 3 (Chr (c_set (u "+-")) ·· Plus c_digit)))%re.

(** The pattern "\.r\s*(\d+)?" of [quick_roll]. *)
Definition QUICK_PATTERN : regex :=
  (Chr (lit ".") ·· Chr (lit "r") ·· Star c_space ·· Opt (Group 1 (Plus c_digit)))%re.

(** The pattern "\.m\s+-(\d+)\s+(.+)" of [repeat_roll]. *)
Definition M_PATTERN : regex :=
  (Chr (lit ".") ·· Chr (lit "m") ·· Plus c_space ·· Chr (lit "-")
   ·· Group 1 (Plus c_digit) ·· Plus c_space ·· Group 2 (Plus c_dot))%re.

(** The pattern "\.(d|t)\s+(.+)" of [repeat_roll]. *)
Definition DT_PATTERN : regex :=
  (Chr (lit ".") ·· Group 1 (Alt (Chr (lit "d")) (Chr (lit "t")))
   ·· Plus c_space ·· Group 2 (Plus c_dot))%re.

(** ** Exceptions, the random source and the monads of the methods *)

Inductive exn :=
| ValueError (msg : pystr)       (* raise ValueError(msg), in the program *)
| InvalidLiteral (text : pystr)  (* ValueError of int(text) *)
| TooManyValues                  (* ValueError of a, b = <three or more values> *)
| EmptyRange (a b : Z)           (* ValueError of random.randint(a, b), b < a *)
| NoneArgument.                  (* TypeError of a None where a str is needed *)

(** The text [str(e)] of the exceptions the interpreter raises. *)
Class Interpreter := { builtin_message : exn -> pystr }.

Definition str_exn `{Interpreter} (e : exn) : pystr :=
  match e with
  | ValueError msg => msg
  | _ => builtin_message e
  end.

(** Code that draws nothing: a value or an exception. *)
Definition result (A : Type) : Type := (exn + A)%type.

Definition rbind {A B} (c : result A) (k : A -> result B) : result B :=
  match c with
  | inr a => k a
  | inl e => inl e
  end.

(** The state of [random]: cell 0 is the next raw number. *)
Definition rng := nat -> N.

(** Code that draws: a value or an exception, and the state of [random]. *)
Definition M (A : Type) : Type := rng -> result A * rng.

Definition ret {A} (a : A) : M A := fun g => (inr a, g).
Definition raise {A} (e : exn) : M A := fun g => (inl e, g).
Definition lift {A} (r : result A) : M A := fun g => (r, g).
Definition bind {A B} (c : M A) (k : A -> M B) : M B :=
  fun g =>
    match c g with
    | (inr a, g') => k a g'
    | (inl e, g') => (inl e, g')
    end.

Declare Scope py_scope.
Delimit Scope py_scope with py.
Notation "x <- c ;; k" := (bind c (fun x => k))
  (at level 61, c at next level, right associativity) : py_scope.
Notation "' p <- c ;; k" := (bind c (fun x => match x with p => k end))
  (at level 61, p pattern, c at next level, right associativity) : py_scope.
Notation "x <~ c ;; k" := (rbind c (fun x => k))
  (at level 61, c at next level, right associativity) : py_scope.
Open Scope py_scope.

(** The handler of the entry points: the value of the body, or the text
    "错误：" followed by [str(e)] for the exception [e] it raised. *)
Definition try_except `{Interpreter} (body : M pystr) : rng -> pystr * rng :=
  fun g =>
    match body g with
    | (inr s, g') => (s, g')
    | (inl e, g') => (u "错误：" ++ str_exn e, g')
    end.

(** [random.randint(a, b)] *)
Definition randint (a b : Z) : M Z :=
  fun g =>
    if (b <? a)%Z then (inl (EmptyRange a b), g)
    else (inr (a + Z.of_N (g O) mod (b - a + 1))%Z, fun n => g (S n)).

(** The list comprehension [c for _ in range(n)]. *)
Fixpoint comprehension {A} (n : nat) (c : M A) : M (list A) :=
  match n with
  | O => ret []
  | S n' => x <- c ;; xs <- comprehension n' c ;; ret (x :: xs)
  end.

(** [int(t)] for a [str] *)
Definition int_str (t : pystr) : result Z :=
  match int t with
  | Some n => inr n
  | None => inl (InvalidLiteral t)
  end.

(** [int(m.group(i))] *)
Definition int_of (o : option pystr) : result Z :=
  match o with
  | None => inl NoneArgument
  | Some t => int_str t
  end.

(** A group handed to a method that takes a [str]; both patterns of
    [repeat_roll] give their group 2 a text whenever they match. *)
Definition text_of (o : option pystr) : result pystr :=
  match o with
  | None => inl NoneArgument
  | Some t => inr t
  end.

Definition sum (l : list Z) : Z := fold_right Z.add 0%Z l.

(** ** The methods shared by the two files *)

Record DiceSpec := {
  num_dice : Z;
  dice_type : Z;
  modifier : Z;
  modifier_text : option pystr      (* match.group(3) *)
}.

(** Lines 63-72 of [roll_dice] (src/Dicer.py; 59-68 of src/dicer.py): the
    match and the three conversions. *)
Definition parse_dice (dice_expression : pystr) : result DiceSpec :=
  match re_match DICE_PATTERN dice_expression with
  | None => inl (ValueError (u "无效的表达式！"))
  | Some m =>
      num_dice <~ (if truthy (group m 1) then int_of (group m 1) else inr 1%Z) ;;
      dice_type <~ int_of (group m 2) ;;
      modifier <~ (if truthy (group m 3) then int_of (group m 3) else inr 0%Z) ;;
      inr {| num_dice := num_dice; dice_type := dice_type;
             modifier := modifier; modifier_text := group m 3 |}
  end.

(** Lines 74-83 of [roll_dice] (70-79 of src/dicer.py): the draws, the
    total and the details. *)
Definition roll_spec (d : DiceSpec) : M (Z * pystr) :=
  rolls <- comprehension (Z.to_nat (num_dice d)) (randint 1 (dice_type d)) ;;
  let total := (sum rolls + modifier d)%Z in
  let roll_details := join (u "+") (map str rolls) in
  let roll_details :=
    if (modifier d =? 0)%Z then roll_details
    else roll_details ++ fmt (modifier_text d) in
  ret (total, roll_details).

Definition roll_dice (dice_expression : pystr) : M (Z * pystr) :=
  d <- lift (parse_dice dice_expression) ;; roll_spec d.

Inductive difficulty := lvl_n | lvl_h | lvl_e.

Definition check_success (target total : Z) (lvl : difficulty) : bool * Z :=
  let threshold :=
    match lvl with
    | lvl_h => (target / 2)%Z
    | lvl_e => (target / 5)%Z
    | lvl_n => target
    end in
  let success := (total <=? threshold)%Z in
  (success, threshold).

(** The target and the dice expression (lines 117-122 of
    [evaluate_expression] in src/Dicer.py, 138-143 in src/dicer.py).  When
    the separator occurs in the text, [split] returns two parts or more. *)
Definition split_target (expression : pystr) : result (option Z * pystr) :=
  if contains (u "/") expression then
    match split 47%N expression with
    | [target; dice_expression] =>
        target <~ int_str target ;;
        inr (Some target, dice_expression)
    | _ => inl TooManyValues
    end
  else inr (None, expression).

Section Entries.
Context `{Interpreter}.

Definition quick_roll_body (command : pystr) : M pystr :=
  match re_match QUICK_PATTERN command with
  | Some m =>
      dice_type <-
        lift (if truthy (group m 1) then int_of (group m 1) else inr 100%Z) ;;
      let dice_expression := u "1d" ++ str dice_type in
      ' (total, roll_details) <- roll_dice dice_expression ;;
      ret (dice_expression ++ u ": " ++ roll_details ++ u "=" ++ str total)
  | None => raise (ValueError (u "无效的表达式！"))
  end.

Definition quick_roll (command : pystr) : rng -> pystr * rng :=
  try_except (quick_roll_body command).

(** [self.evaluate_expression]: the method of the file at hand. *)
Variable evaluate_expression : pystr -> rng -> pystr * rng.

(** The loop of [_execute_rolls]: [i] is the loop variable and [n] the
    number of iterations left. *)
Fixpoint execute_loop (n : nat) (i : Z) (expression : pystr)
         (results : list pystr) (g : rng) : list pystr * rng :=
  match n with
  | O => (results, g)
  | S n' =>
      let (result, g') := evaluate_expression expression g in
      execute_loop n' (i + 1)%Z expression
        (results ++ [u "第 " ++ str (i + 1) ++ u " 次 -> " ++ result]) g'
  end.

Definition _execute_rolls (times : Z) (expression : pystr) : M pystr :=
  fun g =>
    let (results, g') := execute_loop (Z.to_nat times) 0%Z expression [] g in
    (inr (join [10%N] results), g').

(** Lines 173-189 of [repeat_roll] (src/Dicer.py; 217-233 of src/dicer.py):
    what the command asks for, the number of trials and the expression.
    Both branches of the source end in the same call of [_execute_rolls],
    which [repeat_roll_body] makes on the pair returned here. *)
Definition repeat_directive (command : pystr) : result (Z * pystr) :=
  match re_match M_PATTERN command with
  | Some m_match =>
      times <~ int_of (group m_match 1) ;;
      expression <~ text_of (group m_match 2) ;;
      inr (times, expression)
  | None =>
      match re_match DT_PATTERN command with
      | Some dt_match =>
          let repeat_type := group dt_match 1 in
          let times := if group_is repeat_type (u "d") then 2%Z else 3%Z in
          expression <~ text_of (group dt_match 2) ;;
          inr (times, expression)
      | None => inl (ValueError (u "无效的重复检定指令！"))
      end
  end.

Definition repeat_roll_body (command : pystr) : M pystr :=
  ' (times, expression) <- lift (repeat_directive command) ;;
  _execute_rolls times expression.

Definition repeat_roll (command : pystr) : rng -> pystr * rng :=
  try_except (repeat_roll_body command).
End Entries.

(** ** [evaluate_expression] of src/Dicer.py *)

Module Dicer.

(** Lines 103-115: the flags. *)
Definition strip_flags (expression : pystr) : bool * difficulty * pystr :=
  let gamble := contains (u "-g") expression in
  let expression :=
    if gamble then replace (u " -g") (u "") expression else expression in
  if contains (u "-h") expression then
    (gamble, lvl_h, replace (u " -h") (u "") expression)
  else if contains (u "-e") expression then
    (gamble, lvl_e, replace (u " -e") (u "") expression)
  else (gamble, lvl_n, expression).

(** Lines 126-154: the result line. *)
Definition outcome (gamble : bool) (difficulty : difficulty)
           (target : option Z) (dice_expression : pystr)
           (total : Z) (roll_details : pystr) : pystr :=
  let line := strip dice_expression ++ u ": " ++ roll_details ++ u "=" ++ str total in
  if contains (u "1d100") dice_expression && (total =? 1)%Z then
    line ++ u ", 大成功！"
  else if contains (u "1d100") dice_expression && (total >=? 96)%Z then
    line ++ u ", 大失败！"
  else
    let result :=
      match target with
      | Some target =>
          let (success, threshold) := check_success target total difficulty in
          let difficulty_str :=
            match difficulty with
            | lvl_h => u "困难"
            | lvl_e => u "极难"
            | lvl_n => u ""
            end in
          if success then
            str total ++ u "<=" ++ str threshold ++ u ", " ++ difficulty_str ++ u "检定通过！"
          else if gamble then
            str total ++ u ">" ++ str threshold ++ u ", " ++ difficulty_str
                ++ u "孤注一掷失败，视为大失败！"
          else
            str total ++ u ">" ++ str threshold ++ u ", " ++ difficulty_str ++ u "检定失败！"
      | None => str total
      end in
    line ++ u ", " ++ result.

Definition evaluate_body (expression : pystr) : M pystr :=
  let '(gamble, difficulty, expression) := strip_flags expression in
  ' (target, dice_expression) <- lift (split_target expression) ;;
  ' (total, roll_details) <- roll_dice (strip dice_expression) ;;
  ret (outcome gamble difficulty target dice_expression total roll_details).

Section Entries.
Context `{Interpreter}.

Definition evaluate_expression (expression : pystr) : rng -> pystr * rng :=
  try_except (evaluate_body expression).

Definition repeat_roll : pystr -> rng -> pystr * rng :=
  repeat_roll evaluate_expression.
End Entries.

End Dicer.

(** ** [evaluate_expression] of src/dicer.py *)

Module dicer.

(** The dict [options], in insertion order. *)
Definition options_dict := list (pystr * bool).

Definition pystr_eqb (a b : pystr) : bool :=
  if list_eq_dec N.eq_dec a b then true else false.

(** [options[key]] *)
Fixpoint lookup (options : options_dict) (key : pystr) : bool :=
  match options with
  | [] => false
  | (k, v) :: rest => if pystr_eqb k key then v else lookup rest key
  end.

(** [options[key] = value], for a key of the dict *)
Fixpoint store (options : options_dict) (key : pystr) (value : bool) : options_dict :=
  match options with
  | [] => []
  | (k, v) :: rest =>
      if pystr_eqb k key then (k, value) :: rest
      else (k, v) :: store rest key value
  end.

Definition initial_options : options_dict :=
  [(u "-g", false); (u "-h", false); (u "-e", false)].

(** Lines 129-132: one iteration of [for option in options]. *)
Definition option_step (st : options_dict * pystr) (option : pystr)
  : options_dict * pystr :=
  let (options, expression) := st in
  if contains option expression then
    (store options option true, strip (replace option (u "") expression))
  else st.

(** Lines 127-136: the flags. *)
Definition strip_flags (expression : pystr) : options_dict * difficulty * pystr :=
  let (options, expression) :=
    fold_left option_step (map fst initial_options) (initial_options, expression) in
  let lvl :=
    if lookup options (u "-h") then lvl_h
    else if lookup options (u "-e") then lvl_e
    else lvl_n in
  (options, lvl, expression).

Definition lvl_map (lvl : difficulty) : pystr :=
  match lvl with
  | lvl_n => u ""
  | lvl_h => u "困难"
  | lvl_e => u "极难"
  end.

(** Lines 147-167: the result line. *)
Definition outcome (options : options_dict) (lvl : difficulty)
           (target : option Z) (dice_expression : pystr)
           (total : Z) (roll_details : pystr) : pystr :=
  let line := strip dice_expression ++ u ": " ++ roll_details ++ u "=" ++ str total in
  if contains (u "1d100") dice_expression && (total =? 1)%Z then
    line ++ u ", 大成功！"
  else if contains (u "1d100") dice_expression && (total >=? 96)%Z then
    line ++ u ", 大失败！"
  else
    let roll_result :=
      match target with
      | Some target =>
          let (success, threshold) := check_success target total lvl in
          if success then
            str total ++ u "<=" ++ str threshold ++ u ", " ++ lvl_map lvl ++ u "检定通过！"
          else if lookup options (u "-g") then
            str total ++ u ">" ++ str threshold ++ u ", " ++ lvl_map lvl
                ++ u "孤注一掷失败，视为大失败！"
          else
            str total ++ u ">" ++ str threshold ++ u ", " ++ lvl_map lvl ++ u "检定失败！"
      | None => str total
      end in
    line ++ u ", " ++ roll_result.

Definition evaluate_body (expression : pystr) : M pystr :=
  let '(options, lvl, expression) := strip_flags expression in
  ' (target, dice_expression) <- lift (split_target expression) ;;
  ' (total, roll_details) <- roll_dice (strip dice_expression) ;;
  ret (outcome options lvl target dice_expression total roll_details).

Section Entries.
Context `{Interpreter}.

Definition evaluate_expression (expression : pystr) : rng -> pystr * rng :=
  try_except (evaluate_body expression).

Definition repeat_roll : pystr -> rng -> pystr * rng :=
  repeat_roll evaluate_expression.
End Entries.

End dicer.

(** The messages of CPython 3.11, for strings whose [repr] is the text
    between single quotes. *)
#[export] Instance CPython : Interpreter := {|
  builtin_message e :=
    match e with
    | ValueError msg => msg
    | InvalidLiteral text =>
        u "invalid literal for int() with base 10: '" ++ text ++ u "'"
    | TooManyValues => u "too many values to unpack (expected 2)"
    | EmptyRange a b =>
        u "empty range for randrange() (" ++ str a ++ u ", " ++ str (b + 1)
          ++ u ", " ++ str (b + 1 - a) ++ u ")"
    | NoneArgument =>
        u "int() argument must be a string, a bytes-like object or a real number, not 'NoneType'"
    end |}.

(** Random sources for the examples: a constant tape, and a tape that
    starts with the given cells and goes on with zeros. *)
Definition const_rng (n : N) : rng := fun _ => n.
Definition seq_rng (l : list N) : rng := fun i => nth i l 0%N.

Unset Implicit Arguments.

(** ** The two engines, side by side *)

(** What the statements below need of one file: how it reads the flags
    (gamble, difficulty, remaining text) and its two entry points that
    depend on [evaluate_expression]. *)
Record engine := {
  flags : pystr -> bool * difficulty * pystr;
  body : pystr -> M pystr;                   (* the try block of evaluate *)
  evaluate : pystr -> rng -> pystr * rng;
  repeat_body : pystr -> M pystr;            (* the try block of repeat *)
  repeat : pystr -> rng -> pystr * rng
}.

Definition dicer_flags (expression : pystr) : bool * difficulty * pystr :=
  let '(options, lvl, text) := dicer.strip_flags expression in
  (dicer.lookup options (u "-g"), lvl, text).

Definition Dicer_py `{Interpreter} : engine :=
  {| flags := Dicer.strip_flags;
     body := Dicer.evaluate_body;
     evaluate := Dicer.evaluate_expression;
     repeat_body := repeat_roll_body Dicer.evaluate_expression;
     repeat := Dicer.repeat_roll |}.

Definition dicer_py `{Interpreter} : engine :=
  {| flags := dicer_flags;
     body := dicer.evaluate_body;
     evaluate := dicer.evaluate_expression;
     repeat_body := repeat_roll_body dicer.evaluate_expression;
     repeat := dicer.repeat_roll |}.

Definition engines `{Interpreter} : list engine := [Dicer_py; dicer_py].

(** The d100 rule of [evaluate_expression] (lines 127-131 of src/Dicer.py). *)
Definition critical (dice_expression : pystr) (total : Z) : bool :=
  contains (u "1d100") dice_expression && ((total =? 1)%Z || (total >=? 96)%Z).

(** The qualifier of a difficulty in the result line. *)
Definition qualifier (lvl : difficulty) : pystr :=
  match lvl with
  | lvl_h => u "困难"
  | lvl_e => u "极难"
  | lvl_n => u ""
  end.

(** The part of the result line before the outcome clause. *)
Definition line_head (dice_expression roll_details : pystr) (total : Z) : pystr :=
  strip dice_expression ++ u ": " ++ roll_details ++ u "=" ++ str total.

(** An entry point surfaces its failures: it returns the value of its
    try block, or, when the block raises [e], the text "错误：" followed
    by [str(e)]. *)
Definition surfaced `{Interpreter}
           (try_block : pystr -> M pystr) (entry : pystr -> rng -> pystr * rng) : Prop :=
  forall s g,
    (exists out g', try_block s g = (inr out, g') /\ entry s g = (out, g')) \/
    (exists e g', try_block s g = (inl e, g') /\
                  entry s g = (u "错误：" ++ str_exn e, g') /\
                  startswith (u "错误：") (fst (entry s g)) = true).

Definition malformed : list pystr := [u "abc"; u "d"; u ".m -x foo"; u "5/"].

(** The state of the random source after [n] evaluations of an expression. *)
Fixpoint rng_after (ev : pystr -> rng -> pystr * rng) (expression : pystr)
         (n : nat) (g : rng) : rng :=
  match n with
  | O => g
  | S k => rng_after ev expression k (snd (ev expression g))
  end.

(** Line [i] (counted from 0) of a repetition: the trial number [i + 1]
    and the result of evaluating the expression in the state left by the
    trials before it. *)
Definition trial_line (ev : pystr -> rng -> pystr * rng) (expression : pystr)
           (g : rng) (i : nat) : pystr :=
  u "第 " ++ str (Z.of_nat i + 1) ++ u " 次 -> "
    ++ fst (ev expression (rng_after ev expression i g)).

Definition trial_lines (ev : pystr -> rng -> pystr * rng) (expression : pystr)
           (n : nat) (g : rng) : list pystr :=
  map (trial_line ev expression g) (seq 0 n).

(** The inner expression of a repeat command, as it is typed on one line:
    not empty, starting with a visible character, with no line feed. *)
Definition inner_expression (expression : pystr) : Prop :=
  match expression with
  | [] => False
  | c :: _ => isspace c = false
  end /\ ~ In 10%N expression.

(** A command starts like a repeat command: a dot, one of the letters m,
    d and t, and a whitespace character. *)
Definition repeat_prefix (command : pystr) : bool :=
  match command with
  | a :: b :: c :: _ =>
      char_eqb 46%N a
      && (char_eqb 109%N b || char_eqb 100%N b || char_eqb 116%N b)
      && isspace c
  | _ => false
  end.

(** Number of separators in a text. *)
Definition slashes (text : pystr) : nat := count_occ N.eq_dec text 47%N.

(** The outcome clause when the d100 rule does not apply. *)
Definition ordinary_clause (gamble : bool) (lvl : difficulty)
           (target : option Z) (total : Z) : pystr :=
  match target with
  | Some target =>
      let threshold := snd (check_success target total lvl) in
      if fst (check_success target total lvl) then
        str total ++ u "<=" ++ str threshold ++ u ", " ++ qualifier lvl ++ u "检定通过！"
      else if gamble then
        str total ++ u ">" ++ str threshold ++ u ", " ++ qualifier lvl
            ++ u "孤注一掷失败，视为大失败！"
      else
        str total ++ u ">" ++ str threshold ++ u ", " ++ qualifier lvl ++ u "检定失败！"
  | None => str total
  end.

(** A text without any of the three flag texts. *)
Definition flag_free (text : pystr) : Prop :=
  contains (u "-g") text = false /\
  contains (u "-h") text = false /\
  contains (u "-e") text = false.

(** The flags as the documentation writes them: each after one space, a
    difficulty and the gamble flag in either order. *)
Definition flag_suffixes : list pystr :=
  [u " -g"; u " -h"; u " -e"; u " -h -g"; u " -g -h"; u " -e -g"; u " -g -e"].

(** The text after a seam: empty, or starting with a space. *)
Definition seam (s : pystr) : bool :=
  match s with
  | [] => true
  | c :: _ => (c =? 32)%N
  end.

(** ** Predicates and code for the further properties *)

(** The text after the sides does not go on as a modifier: it is empty,
    or starts with a character that is no digit and, when that character
    is a sign, no digit follows it. *)
Definition no_modifier (rest : pystr) : bool :=
  match rest with
  | [] => true
  | x :: rest' =>
      negb (isdecimal x) &&
      negb ((char_eqb x 43%N || char_eqb x 45%N) &&
            match rest' with
            | y :: _ => isdecimal y
            | [] => false
            end)
  end.

(** The text after a run of digits does not go on with a digit. *)
Definition no_digit (rest : pystr) : bool :=
  match rest with
  | [] => true
  | x :: _ => negb (isdecimal x)
  end.

(** What may follow the sides: a modifier [m] (a sign and digits) and
    then no digit, or no modifier at all. *)
Definition modifier_form (m rest : pystr) : bool :=
  match m with
  | [] => no_modifier rest
  | sign :: c =>
      (char_eqb sign 43%N || char_eqb sign 45%N)
      && match c with [] => false | _ :: _ => forallb isdecimal c end
      && no_digit rest
  end.

(** The text does not start with a whitespace character. *)
Definition no_space (rest : pystr) : bool :=
  match rest with
  | [] => true
  | x :: _ => negb (isspace x)
  end.

(** A character that starts neither a dice text nor a target: no
    whitespace, no digit, not the letter d, no sign and no separator. *)
Definition stray (c : char) : bool :=
  negb (isspace c) && negb (isdecimal c) && negb (existsb (char_eqb c) (u "d+-/")).

(** [str.lower]: the case mapping of the interpreter's Unicode tables. *)
Class Unicode := { lower : pystr -> pystr }.

(** One turn of the loop of the main block (lines 212-227 of src/Dicer.py,
    265-280 of src/dicer.py) on the line [expr] that [input] returned:
    [None] when the loop is left, otherwise the text handed to [print]
    and the state of the random source. *)
Definition main_turn `{Interpreter} `{Unicode} (E : engine) (expr : pystr) (g : rng)
  : option (pystr * rng) :=
  if dicer.pystr_eqb (strip (lower expr)) (u ".q") then None
  else if startswith (u ".r") expr then Some (quick_roll expr g)
  else if existsb (fun prefix => startswith prefix expr) [u ".d"; u ".t"; u ".m"]
       then Some (repeat E expr g)
  else Some (evaluate E expr g).

(** The case mapping on the letters of ASCII, for the examples. *)
#[export] Instance AsciiLower : Unicode := {|
  lower := map (fun c => if (65 <=? c)%N && (c <=? 90)%N then (c + 32)%N else c) |}.



(** The messages of the interpreter stay on one line: the messages of
    the exceptions that [int], the unpacking and [randint] raise hold no
    line feed, as long as the text of a failed [int] holds none. *)
Definition one_line_messages `{Interpreter} : Prop :=
  (forall t, ~ In 10%N t -> ~ In 10%N (builtin_message (InvalidLiteral t))) /\
  ~ In 10%N (builtin_message TooManyValues) /\
  (forall a b, ~ In 10%N (builtin_message (EmptyRange a b))).

(** The breakdown as the specification words it: the texts in order,
    each one after the first preceded by a plus sign. *)
Definition plus_separated (texts : list pystr) : pystr :=
  match texts with
  | [] => []
  | first :: others => first ++ flat_map (fun text => 43%N :: text) others
  end.

(** The draws that [n] calls of [randint(1, sides)] make from the tape
    [g]: call [i] reads cell [i]. *)
Definition draws (g : rng) (sides : Z) (n : nat) : list Z :=
  map (fun i => (1 + Z.of_N (g i) mod sides)%Z) (seq 0 n).

(** A text that starts like a dice expression: digits (possibly none),
    the letter d and a digit. *)
Definition dice_form (text : pystr) : Prop :=
  exists a y rest,
    text = a ++ u "d" ++ y :: rest /\
    forallb isdecimal a = true /\ isdecimal y = true.

(** ** Basic facts *)

(** Closed goals, and goals whose only variables are never inspected,
    are settled by evaluation, one conjunct at a time. *)
Ltac by_computation :=
  repeat match goal with
         | |- _ /\ _ => split
         end;
  vm_compute; reflexivity.

Lemma startswith_app (p s : pystr) : startswith p (p ++ s) = true.
Proof.
  induction p as [|c p IH]; simpl; [reflexivity|].
  unfold char_eqb. now rewrite N.eqb_refl, IH.
Qed.

Lemma try_except_value `{Interpreter} (body : M pystr) g s g' :
  body g = (inr s, g') -> try_except body g = (s, g').
Proof. unfold try_except; intros ->; reflexivity. Qed.

Lemma try_except_raise `{Interpreter} (body : M pystr) g msg g' :
  body g = (inl (ValueError msg), g') -> try_except body g = (u "错误：" ++ msg, g').
Proof. unfold try_except; intros ->; reflexivity. Qed.

Lemma try_except_error `{Interpreter} (body : M pystr) g e g' :
  body g = (inl e, g') -> try_except body g = (u "错误：" ++ str_exn e, g').
Proof. unfold try_except; intros ->; reflexivity. Qed.

Lemma Dicer_evaluate_stages `{Interpreter}
      expression gamble lvl text target dice_expression total roll_details g g' :
  Dicer.strip_flags expression = (gamble, lvl, text) ->
  split_target text = inr (target, dice_expression) ->
  roll_dice (strip dice_expression) g = (inr (total, roll_details), g') ->
  Dicer.evaluate_expression expression g =
  (Dicer.outcome gamble lvl target dice_expression total roll_details, g').
Proof.
  intros Hf Hs Hr.
  apply try_except_value.
  unfold Dicer.evaluate_body. rewrite Hf.
  unfold bind, lift. rewrite Hs, Hr. reflexivity.
Qed.

Lemma dicer_evaluate_stages `{Interpreter}
      expression options lvl text target dice_expression total roll_details g g' :
  dicer.strip_flags expression = (options, lvl, text) ->
  split_target text = inr (target, dice_expression) ->
  roll_dice (strip dice_expression) g = (inr (total, roll_details), g') ->
  dicer.evaluate_expression expression g =
  (dicer.outcome options lvl target dice_expression total roll_details, g').
Proof.
  intros Hf Hs Hr.
  apply try_except_value.
  unfold dicer.evaluate_body. rewrite Hf.
  unfold bind, lift. rewrite Hs, Hr. reflexivity.
Qed.

Lemma dicer_flags_inv expression gamble lvl text :
  dicer_flags expression = (gamble, lvl, text) ->
  exists options,
    dicer.strip_flags expression = (options, lvl, text) /\
    dicer.lookup options (u "-g") = gamble.
Proof.
  unfold dicer_flags.
  destruct (dicer.strip_flags expression) as [[options l] t].
  intros [= <- <- <-]. now exists options.
Qed.

Lemma lvl_map_qualifier lvl : dicer.lvl_map lvl = qualifier lvl.
Proof. now destruct lvl. Qed.

(** The two [outcome] functions compute the same line. *)
Lemma outcome_agree options lvl target dice_expression total roll_details :
  dicer.outcome options lvl target dice_expression total roll_details =
  Dicer.outcome (dicer.lookup options (u "-g")) lvl target dice_expression
                total roll_details.
Proof.
  unfold dicer.outcome, Dicer.outcome.
  rewrite lvl_map_qualifier.
  destruct lvl; reflexivity.
Qed.

(** Every engine runs the same three stages and formats with [Dicer.outcome]. *)
Lemma evaluate_stages `{Interpreter} (E : engine) :
  In E engines ->
  forall expression gamble lvl text target dice_expression total roll_details g g',
    flags E expression = (gamble, lvl, text) ->
    split_target text = inr (target, dice_expression) ->
    roll_dice (strip dice_expression) g = (inr (total, roll_details), g') ->
    evaluate E expression g =
    (Dicer.outcome gamble lvl target dice_expression total roll_details, g').
Proof.
  intros [<-|[<-|[]]]; simpl; intros * Hf Hs Hr.
  - eapply Dicer_evaluate_stages; eauto.
  - apply dicer_flags_inv in Hf as (options & Hf & <-).
    rewrite <- outcome_agree. eapply dicer_evaluate_stages; eauto.
Qed.

(** ** The d100 override and the threshold check *)

Lemma outcome_critical_success gamble lvl target dice_expression roll_details :
  contains (u "1d100") dice_expression = true ->
  Dicer.outcome gamble lvl target dice_expression 1 roll_details =
  line_head dice_expression roll_details 1 ++ u ", 大成功！".
Proof.
  intros Hc. unfold Dicer.outcome, line_head. rewrite Hc.
  change ((1 =? 1)%Z) with true. cbv beta iota zeta delta [andb].
  now rewrite <- !app_assoc.
Qed.

Lemma outcome_critical_failure gamble lvl target dice_expression total roll_details :
  contains (u "1d100") dice_expression = true ->
  (96 <= total)%Z ->
  Dicer.outcome gamble lvl target dice_expression total roll_details =
  line_head dice_expression roll_details total ++ u ", 大失败！".
Proof.
  intros Hc Ht. unfold Dicer.outcome, line_head. rewrite Hc.
  replace ((total =? 1)%Z) with false by (symmetry; apply Z.eqb_neq; lia).
  replace ((total >=? 96)%Z) with true by (symmetry; rewrite Z.geb_leb; apply Z.leb_le; lia).
  cbv beta iota zeta delta [andb].
  now rewrite <- !app_assoc.
Qed.

Lemma outcome_ordinary gamble lvl target dice_expression total roll_details :
  critical dice_expression total = false ->
  Dicer.outcome gamble lvl target dice_expression total roll_details =
  line_head dice_expression roll_details total ++ u ", " ++
  ordinary_clause gamble lvl target total.
Proof.
  unfold critical, Dicer.outcome, line_head, ordinary_clause. intros Hc.
  destruct (contains (u "1d100") dice_expression);
    destruct ((total =? 1)%Z); destruct ((total >=? 96)%Z);
      try discriminate Hc; cbv beta iota zeta delta [andb];
        rewrite <- !app_assoc; repeat f_equal;
          destruct target; try reflexivity;
            unfold check_success, qualifier; cbv beta iota zeta delta [fst snd];
              destruct lvl; reflexivity.
Qed.

(** C1.  When the dice expression contains the text 1d100, a total of 1
    gives the critical-success line and a total of 96 or more gives the
    critical-failure line, in both files, whatever the target, the
    difficulty and the gamble flag are: the clause follows the total
    directly and no comparison with a threshold is printed. *)
Theorem critical_override `{Interpreter} (E : engine) :
  In E engines ->
  forall expression gamble lvl text target dice_expression total roll_details g g',
    flags E expression = (gamble, lvl, text) ->
    split_target text = inr (target, dice_expression) ->
    roll_dice (strip dice_expression) g = (inr (total, roll_details), g') ->
    contains (u "1d100") dice_expression = true ->
    (total = 1%Z ->
     evaluate E expression g =
     (strip dice_expression ++ u ": " ++ roll_details ++ u "=" ++ str total
        ++ u ", 大成功！", g')) /\
    ((96 <= total)%Z ->
     evaluate E expression g =
     (strip dice_expression ++ u ": " ++ roll_details ++ u "=" ++ str total
        ++ u ", 大失败！", g')).
Proof.
  intros HE * Hf Hs Hr Hc.
  rewrite (evaluate_stages E HE _ _ _ _ _ _ _ _ _ _ Hf Hs Hr).
  split.
  - intros ->. rewrite outcome_critical_success by assumption.
    unfold line_head. now rewrite <- !app_assoc.
  - intros Ht. rewrite outcome_critical_failure by assumption.
    unfold line_head. now rewrite <- !app_assoc.
Qed.

(** C4.  With an integer target and no d100 override, the threshold is
    target // 2 for the hard level, target // 5 for the extreme level and
    the target itself otherwise; the check passes exactly when the total is
    at most the threshold; the line of a passed check does not depend on
    the gamble flag, which only selects the wording of a failed check. *)
Theorem threshold_check `{Interpreter} (E : engine) :
  In E engines ->
  forall expression gamble lvl text target dice_expression total roll_details g g',
    flags E expression = (gamble, lvl, text) ->
    split_target text = inr (Some target, dice_expression) ->
    roll_dice (strip dice_expression) g = (inr (total, roll_details), g') ->
    critical dice_expression total = false ->
    let threshold :=
      match lvl with
      | lvl_h => (target / 2)%Z
      | lvl_e => (target / 5)%Z
      | lvl_n => target
      end in
    let head :=
      strip dice_expression ++ u ": " ++ roll_details ++ u "=" ++ str total ++ u ", " in
    check_success target total lvl = ((total <=? threshold)%Z, threshold) /\
    ((total <= threshold)%Z ->
     evaluate E expression g =
     (head ++ str total ++ u "<=" ++ str threshold ++ u ", " ++ qualifier lvl
           ++ u "检定通过！", g')) /\
    ((threshold < total)%Z ->
     evaluate E expression g =
     (head ++ str total ++ u ">" ++ str threshold ++ u ", " ++ qualifier lvl
           ++ (if gamble then u "孤注一掷失败，视为大失败！" else u "检定失败！"), g')).
Proof.
  intros HE * Hf Hs Hr Hc threshold head.
  rewrite (evaluate_stages E HE _ _ _ _ _ _ _ _ _ _ Hf Hs Hr).
  rewrite outcome_ordinary by assumption. unfold ordinary_clause.
  assert (Hcs : check_success target total lvl = ((total <=? threshold)%Z, threshold))
    by (unfold check_success, threshold; destruct lvl; reflexivity).
  rewrite Hcs. cbv beta iota zeta delta [fst snd].
  unfold head, line_head. rewrite <- !app_assoc.
  split; [reflexivity|]. split; intros Ht.
  - replace ((total <=? threshold)%Z) with true by (symmetry; apply Z.leb_le; lia).
    reflexivity.
  - replace ((total <=? threshold)%Z) with false by (symmetry; apply Z.leb_gt; lia).
    destruct gamble; reflexivity.
Qed.

(** ** The simulator *)

Lemma randint_in_range (sides : Z) (g : rng) :
  (1 <= sides)%Z ->
  exists r, randint 1 sides g = (inr r, fun n => g (S n)) /\ (1 <= r <= sides)%Z.
Proof.
  intros Hs. unfold randint.
  replace ((sides <? 1)%Z) with false by (symmetry; apply Z.ltb_ge; lia).
  eexists; split; [reflexivity|].
  assert (0 <= Z.of_N (g O) mod (sides - 1 + 1) < sides - 1 + 1)%Z
    by (apply Z.mod_pos_bound; lia).
  lia.
Qed.

Lemma comprehension_randint (n : nat) (sides : Z) :
  (n <> O -> 1 <= sides)%Z ->
  forall g, exists rolls g',
    comprehension n (randint 1 sides) g = (inr rolls, g') /\
    List.length rolls = n /\
    Forall (fun r => 1 <= r <= sides)%Z rolls.
Proof.
  induction n as [|n IH]; intros Hs g.
  - exists [], g. repeat split. constructor.
  - assert (H1 : (1 <= sides)%Z) by (apply Hs; discriminate).
    destruct (randint_in_range sides g H1) as (r & Hr & Hrange).
    destruct (IH (fun _ => H1) (fun k => g (S k))) as (rolls & g' & Hc & Hl & Hall).
    exists (r :: rolls), g'. cbn [comprehension]. unfold bind at 1.
    rewrite Hr. unfold bind at 1. rewrite Hc. unfold ret.
    repeat split; [simpl; now rewrite Hl | now constructor].
Qed.

(** What [roll_dice] returns for a text that [parse_dice] accepts, as
    long as a die that is rolled has a side. *)
Lemma roll_dice_parsed (dice_expression : pystr) (d : DiceSpec) (g : rng) :
  parse_dice dice_expression = inr d ->
  ((0 < num_dice d)%Z -> (1 <= dice_type d)%Z) ->
  exists rolls g',
    roll_dice dice_expression g =
    (inr ((sum rolls + modifier d)%Z,
          if (modifier d =? 0)%Z then join (u "+") (map str rolls)
          else join (u "+") (map str rolls) ++ fmt (modifier_text d)), g') /\
    List.length rolls = Z.to_nat (num_dice d) /\
    Forall (fun r => 1 <= r <= dice_type d)%Z rolls.
Proof.
  intros Hp Hs.
  destruct (comprehension_randint (Z.to_nat (num_dice d)) (dice_type d)) with (g := g)
    as (rolls & g' & Hc & Hl & Hall).
  { intros Hn. apply Hs. lia. }
  exists rolls, g'. split; [|now split].
  unfold roll_dice, bind at 1, lift. rewrite Hp.
  unfold roll_spec, bind. rewrite Hc. unfold ret.
  destruct (modifier d =? 0)%Z; reflexivity.
Qed.

(** The modifier of a parsed text is nonzero only when the text spells
    one: group 3 took part in the match and [int] reads the modifier
    from it. *)
Lemma parse_dice_modifier (dice_expression : pystr) (d : DiceSpec) :
  parse_dice dice_expression = inr d ->
  modifier d <> 0%Z ->
  exists suffix, modifier_text d = Some suffix /\ int suffix = Some (modifier d).
Proof.
  unfold parse_dice.
  destruct (re_match DICE_PATTERN dice_expression) as [m|]; [|discriminate].
  destruct (if truthy (group m 1) then int_of (group m 1) else inr 1%Z) as [e|n];
    [discriminate|]; cbn [rbind].
  destruct (int_of (group m 2)) as [e|t]; [discriminate|]; cbn [rbind].
  destruct (truthy (group m 3)) eqn:Ht.
  - destruct (group m 3) as [s|] eqn:Hg; [|discriminate Ht].
    unfold int_of, int_str. destruct (int s) as [z|] eqn:Hz; [|discriminate].
    cbn [rbind]. intros [= <-]; cbn. intros _. now exists s.
  - cbn [rbind]. intros [= <-]; cbn. intros Hm. now contradict Hm.
Qed.

(** ** Failures *)

Lemma try_except_surfaced `{Interpreter} (try_block : pystr -> M pystr) :
  surfaced try_block (fun s => try_except (try_block s)).
Proof.
  intros s g. unfold try_except.
  destruct (try_block s g) as [[e|out] g'].
  - right. exists e, g'. cbn [fst]. now rewrite startswith_app.
  - left. now exists out, g'.
Qed.

(** C2.  The three entry points return a string for every input and
    every state of the random source: the value of the try block, or,
    for whatever exception the block raises, a string that begins with
    the error prefix.  The four malformed inputs of the specification
    give such an error string at every entry point, in both files. *)
Theorem entry_points_total `{Interpreter} :
  surfaced quick_roll_body quick_roll /\
  (forall E, In E engines ->
             surfaced (body E) (evaluate E) /\ surfaced (repeat_body E) (repeat E)) /\
  (forall s g,
      In s malformed ->
      startswith (u "错误：") (fst (quick_roll s g)) = true /\
      forall E, In E engines ->
                startswith (u "错误：") (fst (evaluate E s g)) = true /\
                startswith (u "错误：") (fst (repeat E s g)) = true).
Proof.
  split; [apply try_except_surfaced|]. split.
  - intros E [<-|[<-|[]]]; split; apply try_except_surfaced.
  - intros s g Hs.
    repeat (destruct Hs as [<-|Hs]); try destruct Hs;
      (split; [vm_compute; reflexivity|]);
      intros E [<-|[<-|[]]]; split; vm_compute; reflexivity.
Qed.

(** ** Degenerate dice *)

Lemma evaluate_roll_error `{Interpreter} (E : engine) :
  In E engines ->
  forall expression gamble lvl text target dice_expression e g g',
    flags E expression = (gamble, lvl, text) ->
    split_target text = inr (target, dice_expression) ->
    roll_dice (strip dice_expression) g = (inl e, g') ->
    evaluate E expression g = (u "错误：" ++ str_exn e, g').
Proof.
  intros [<-|[<-|[]]]; simpl; intros * Hf Hs Hr; apply try_except_error.
  - unfold Dicer.evaluate_body. rewrite Hf. unfold bind, lift. now rewrite Hs, Hr.
  - apply dicer_flags_inv in Hf as (options & Hf & _).
    unfold dicer.evaluate_body. rewrite Hf. unfold bind, lift. now rewrite Hs, Hr.
Qed.

Lemma roll_dice_no_dice (dice_expression : pystr) (d : DiceSpec) (g : rng) :
  parse_dice dice_expression = inr d ->
  num_dice d = 0%Z ->
  roll_dice dice_expression g =
  (inr (modifier d, if (modifier d =? 0)%Z then [] else fmt (modifier_text d)), g).
Proof.
  intros Hp Hn. unfold roll_dice, bind at 1, lift. rewrite Hp.
  unfold roll_spec. rewrite Hn. cbn. destruct (modifier d =? 0)%Z; reflexivity.
Qed.

Lemma roll_dice_no_sides (dice_expression : pystr) (d : DiceSpec) (g : rng) :
  parse_dice dice_expression = inr d ->
  (1 <= num_dice d)%Z ->
  dice_type d = 0%Z ->
  roll_dice dice_expression g = (inl (EmptyRange 1 0), g).
Proof.
  intros Hp Hn Hs. unfold roll_dice, bind at 1, lift. rewrite Hp.
  unfold roll_spec. rewrite Hs.
  destruct (Z.to_nat (num_dice d)) as [|n] eqn:Hk; [lia|].
  reflexivity.
Qed.

(** C10.  The code at the input 0d6, in both files: no die is rolled
    and nothing is raised, the total is 0 and the details are empty, and
    the line that [evaluate_expression] returns repeats the total after a
    comma.  At the input 1d0 [randint] raises and the entry point returns
    the error string. *)
Theorem zero_count_line `{Interpreter} (g : rng) :
  roll_dice (u "0d6") g = (inr (0%Z, []), g) /\
  Dicer.evaluate_expression (u "0d6") g = (u "0d6: =0, 0", g) /\
  dicer.evaluate_expression (u "0d6") g = (u "0d6: =0, 0", g) /\
  Dicer.evaluate_expression (u "1d0") g =
  (u "错误：" ++ str_exn (EmptyRange 1 0), g) /\
  dicer.evaluate_expression (u "1d0") g =
  (u "错误：" ++ str_exn (EmptyRange 1 0), g).
Proof.
  by_computation.
Qed.

(** The degenerate cases in general: a count of 0 rolls nothing, and a
    die without sides that is rolled makes the evaluation fail. *)
Lemma degenerate_dice `{Interpreter} (E : engine) :
  In E engines ->
  forall expression gamble lvl text target dice_expression d g,
    flags E expression = (gamble, lvl, text) ->
    split_target text = inr (target, dice_expression) ->
    parse_dice (strip dice_expression) = inr d ->
    (num_dice d = 0%Z ->
     roll_dice (strip dice_expression) g =
     (inr (modifier d, if (modifier d =? 0)%Z then [] else fmt (modifier_text d)), g)) /\
    ((1 <= num_dice d)%Z -> dice_type d = 0%Z ->
     evaluate E expression g = (u "错误：" ++ str_exn (EmptyRange 1 0), g)).
Proof.
  intros HE * Hf Hs Hp. split.
  - intros Hn. now apply roll_dice_no_dice.
  - intros Hn Hd.
    exact (evaluate_roll_error E HE _ _ _ _ _ _ _ _ _ Hf Hs
             (roll_dice_no_sides _ _ g Hp Hn Hd)).
Qed.

(** ** The target segment *)

Lemma contains_char (c : char) (s : pystr) :
  contains [c] s = existsb (char_eqb c) s.
Proof.
  induction s as [|b s IH]; [reflexivity|].
  cbn [contains startswith existsb]. rewrite IH.
  now rewrite andb_true_r.
Qed.

Lemma contains_char_count (c : char) (s : pystr) :
  contains [c] s = negb (Nat.eqb (count_occ N.eq_dec s c) 0).
Proof.
  rewrite contains_char.
  induction s as [|b s IH]; [reflexivity|].
  cbn [existsb count_occ]. unfold char_eqb at 1.
  destruct (N.eq_dec b c) as [->|Hne].
  - now rewrite N.eqb_refl.
  - rewrite IH. replace (c =? b)%N with false; [reflexivity|].
    symmetry. apply N.eqb_neq. congruence.
Qed.

Lemma split_from_length (sep : char) (s cur : pystr) :
  List.length (split_from sep cur s) = S (count_occ N.eq_dec s sep).
Proof.
  revert cur. induction s as [|c s IH]; intros cur; [reflexivity|].
  cbn [split_from count_occ]. unfold char_eqb.
  destruct (N.eq_dec c sep) as [->|Hne].
  - rewrite N.eqb_refl. cbn [List.length]. now rewrite IH.
  - replace (c =? sep)%N with false by (symmetry; now apply N.eqb_neq).
    apply IH.
Qed.

Lemma split_from_plain (sep : char) (s cur : pystr) :
  ~ In sep s -> split_from sep cur s = [rev cur ++ s].
Proof.
  revert cur. induction s as [|c s IH]; intros cur Hn.
  - cbn. now rewrite app_nil_r.
  - cbn [split_from]. unfold char_eqb.
    replace (c =? sep)%N with false
      by (symmetry; apply N.eqb_neq; intros ->; apply Hn; now left).
    rewrite IH by (intros Hin; apply Hn; now right).
    cbn [rev]. now rewrite <- app_assoc.
Qed.

Lemma split_from_app (sep : char) (l r cur : pystr) :
  ~ In sep l ->
  split_from sep cur (l ++ sep :: r) = (rev cur ++ l) :: split_from sep [] r.
Proof.
  revert cur. induction l as [|c l IH]; intros cur Hn.
  - cbn [app split_from]. unfold char_eqb. rewrite N.eqb_refl.
    now rewrite app_nil_r.
  - cbn [app split_from]. unfold char_eqb.
    replace (c =? sep)%N with false
      by (symmetry; apply N.eqb_neq; intros ->; apply Hn; now left).
    rewrite IH by (intros Hin; apply Hn; now right).
    cbn [rev]. now rewrite <- app_assoc.
Qed.

Lemma split_target_one (left right : pystr) :
  ~ In 47%N left -> ~ In 47%N right ->
  split_target (left ++ u "/" ++ right) =
  (target <~ int_str left ;; inr (Some target, right)).
Proof.
  intros Hl Hr. unfold split_target.
  change (u "/") with [47%N]. rewrite contains_char.
  match goal with
  | |- context [existsb ?f ?l] => replace (existsb f l) with true
  end.
  2:{ symmetry. apply existsb_exists. exists 47%N. split.
      - apply in_or_app. right. now left.
      - apply N.eqb_refl. }
  unfold split. cbn [app]. rewrite split_from_app by assumption.
  rewrite split_from_plain by assumption. reflexivity.
Qed.

Lemma split_target_many (text : pystr) :
  2 <= slashes text -> split_target text = inl TooManyValues.
Proof.
  unfold slashes, split_target. intros Hn.
  change (u "/") with [47%N]. rewrite contains_char_count.
  destruct (count_occ N.eq_dec text 47%N) as [|[|n]] eqn:Hc; try lia.
  cbn [Nat.eqb negb].
  pose proof (split_from_length 47%N text []) as Hlen. rewrite Hc in Hlen.
  unfold split.
  destruct (split_from 47%N [] text) as [|a [|b [|c rest]]]; try discriminate Hlen.
  reflexivity.
Qed.

Lemma split_target_none (text : pystr) :
  slashes text = 0 -> split_target text = inr (None, text).
Proof.
  unfold slashes, split_target. intros Hn.
  change (u "/") with [47%N]. rewrite contains_char_count, Hn. reflexivity.
Qed.

Lemma evaluate_split_error `{Interpreter} (E : engine) :
  In E engines ->
  forall expression gamble lvl text e g,
    flags E expression = (gamble, lvl, text) ->
    split_target text = inl e ->
    evaluate E expression g = (u "错误：" ++ str_exn e, g).
Proof.
  intros [<-|[<-|[]]]; simpl; intros * Hf Hs; apply try_except_error.
  - unfold Dicer.evaluate_body. rewrite Hf. unfold bind, lift. now rewrite Hs.
  - apply dicer_flags_inv in Hf as (options & Hf & _).
    unfold dicer.evaluate_body. rewrite Hf. unfold bind, lift. now rewrite Hs.
Qed.

(** C5, as the code has it.  After the flags are removed, a text with
    no separator has no target; a text with exactly one separator is cut
    there, the left part being read by [int] and the right part being the
    dice expression; a text with two separators or more is not cut at
    the first one: unpacking the parts raises, nothing reaches the dice
    parser, no die is rolled and both files return the error string. *)
Theorem target_split `{Interpreter} :
  (forall text, slashes text = 0 -> split_target text = inr (None, text)) /\
  (forall left right,
      ~ In 47%N left -> ~ In 47%N right ->
      split_target (left ++ u "/" ++ right) =
      match int left with
      | Some target => inr (Some target, right)
      | None => inl (InvalidLiteral left)
      end) /\
  (forall text, 2 <= slashes text -> split_target text = inl TooManyValues) /\
  (forall E, In E engines ->
     forall expression gamble lvl text g,
       flags E expression = (gamble, lvl, text) ->
       2 <= slashes text ->
       evaluate E expression g = (u "错误：" ++ str_exn TooManyValues, g)).
Proof.
  split; [exact split_target_none|].
  split.
  { intros left right Hl Hr. rewrite split_target_one by assumption.
    unfold int_str. now destruct (int left). }
  split; [exact split_target_many|].
  intros E HE * Hf Hn.
  apply (evaluate_split_error E HE _ _ _ _ _ _ Hf (split_target_many _ Hn)).
Qed.

(** C6, as the code has it.  The test is the literal substring test:
    4d100 does not contain 1d100, whereas 1d100+3 and 21d100 do.  An
    expression whose dice text does not contain 1d100 gets the ordinary
    clause (the bare total, or the comparison with the threshold) for
    every total; 4d100 always rolls four dice and reports their sum
    bare; and 1d100+3 gets the critical-failure line from 96 on. *)
Theorem substring_trigger `{Interpreter} (E : engine) :
  In E engines ->
  contains (u "1d100") (u "4d100") = false /\
  contains (u "1d100") (u "1d100+3") = true /\
  contains (u "1d100") (u "21d100") = true /\
  (forall expression gamble lvl text target dice_expression total roll_details g g',
      flags E expression = (gamble, lvl, text) ->
      split_target text = inr (target, dice_expression) ->
      roll_dice (strip dice_expression) g = (inr (total, roll_details), g') ->
      contains (u "1d100") dice_expression = false ->
      evaluate E expression g =
      (strip dice_expression ++ u ": " ++ roll_details ++ u "=" ++ str total
         ++ u ", " ++ ordinary_clause gamble lvl target total, g')) /\
  (forall g, exists rolls g',
      List.length rolls = 4 /\
      evaluate E (u "4d100") g =
      (u "4d100: " ++ join (u "+") (map str rolls) ++ u "=" ++ str (sum rolls)
         ++ u ", " ++ str (sum rolls), g')) /\
  (forall total roll_details g g',
      roll_dice (u "1d100+3") g = (inr (total, roll_details), g') ->
      (96 <= total)%Z ->
      evaluate E (u "1d100+3") g =
      (u "1d100+3: " ++ roll_details ++ u "=" ++ str total ++ u ", 大失败！", g')).
Proof.
  intros HE.
  split; [reflexivity|]. split; [reflexivity|]. split; [reflexivity|].
  split; [|split].
  - intros * Hf Hs Hr Hc.
    rewrite (evaluate_stages E HE _ _ _ _ _ _ _ _ _ _ Hf Hs Hr).
    rewrite outcome_ordinary by (unfold critical; now rewrite Hc).
    unfold line_head. now rewrite <- !app_assoc.
  - intros g.
    assert (Hp : parse_dice (u "4d100") =
                 inr {| num_dice := 4; dice_type := 100; modifier := 0;
                        modifier_text := None |}) by reflexivity.
    destruct (roll_dice_parsed _ _ g Hp) as (rolls & g' & Hr & Hl & _);
      [cbn; lia|].
    exists rolls, g'. split; [exact Hl|].
    cbn [modifier Z.eqb] in Hr. rewrite Z.add_0_r in Hr.
    assert (Hf : flags E (u "4d100") = (false, lvl_n, u "4d100"))
      by (destruct HE as [<-|[<-|[]]]; reflexivity).
    rewrite (evaluate_stages E HE _ _ _ _ None (u "4d100") _ _ _ _ Hf eq_refl Hr).
    rewrite outcome_ordinary by reflexivity.
    unfold line_head, ordinary_clause. rewrite <- !app_assoc. reflexivity.
  - intros * Hr Ht.
    assert (Hf : flags E (u "1d100+3") = (false, lvl_n, u "1d100+3"))
      by (destruct HE as [<-|[<-|[]]]; reflexivity).
    rewrite (evaluate_stages E HE _ _ _ _ None (u "1d100+3") _ _ _ _ Hf eq_refl Hr).
    rewrite outcome_critical_failure by (try reflexivity; assumption).
    unfold line_head. rewrite <- !app_assoc. reflexivity.
Qed.

(** ** Matching the command patterns *)

Lemma star_stop {A} (p : char -> bool) (b : pystr) (k : pystr -> option A) :
  match b with [] => True | c :: _ => p c = false end ->
  star p b k = k b.
Proof. destruct b as [|c b]; cbn; [reflexivity|]. now intros ->. Qed.

Lemma star_greedy {A} (p : char -> bool) (a b : pystr) (k : pystr -> option A) r :
  forallb p a = true ->
  match b with [] => True | c :: _ => p c = false end ->
  k b = Some r ->
  star p (a ++ b) k = Some r.
Proof.
  intros Ha Hb Hk. induction a as [|c a IH].
  - cbn [app]. now rewrite star_stop.
  - cbn [forallb] in Ha. apply andb_true_iff in Ha as [Hc Ha].
    cbn [app star]. rewrite Hc, (IH Ha). reflexivity.
Qed.

Lemma firstn_minus (a b : pystr) :
  firstn (List.length (a ++ b) - List.length b) (a ++ b) = a.
Proof.
  rewrite length_app, Nat.add_sub. 
  rewrite firstn_app, Nat.sub_diag, firstn_all. cbn. apply app_nil_r.
Qed.

Lemma firstn_cons_minus (x : char) (b : pystr) :
  firstn (List.length (x :: b) - List.length b) (x :: b) = [x].
Proof. exact (firstn_minus [x] b). Qed.

Lemma firstn_cons_app_minus (x : char) (a b : pystr) :
  firstn (List.length (x :: a ++ b) - List.length b) (x :: a ++ b) = x :: a.
Proof. exact (firstn_minus (x :: a) b). Qed.

Lemma no_newline_dot (e : pystr) :
  ~ In 10%N e -> forallb (test c_dot) e = true.
Proof.
  intros Hn. apply forallb_forall. intros c Hc. cbn.
  unfold char_eqb. apply negb_true_iff, N.eqb_neq. intros ->. contradiction.
Qed.

Lemma star_all {A} (p : char -> bool) (a : pystr) (k : pystr -> option A) r :
  forallb p a = true -> k [] = Some r -> star p a k = Some r.
Proof.
  intros Ha Hk. rewrite <- (app_nil_r a). now apply star_greedy.
Qed.

Lemma firstn_whole (a : pystr) : firstn (List.length a - List.length (@nil char)) a = a.
Proof. cbn [List.length]. rewrite Nat.sub_0_r. apply firstn_all. Qed.

Lemma inner_expression_cons (expression : pystr) :
  inner_expression expression ->
  exists c e, expression = c :: e /\ isspace c = false /\
              negb (char_eqb c 10%N) = true /\ forallb (test c_dot) e = true.
Proof.
  intros [Hhead Hnl]. destruct expression as [|c e]; [contradiction|].
  exists c, e. repeat split; try assumption.
  - unfold char_eqb. apply negb_true_iff, N.eqb_neq. intros ->. apply Hnl. now left.
  - apply no_newline_dot. intros Hin. apply Hnl. now right.
Qed.

Lemma match_dt (t : char) (expression : pystr) :
  t = 100%N \/ t = 116%N ->
  inner_expression expression ->
  re_match DT_PATTERN (46%N :: t :: 32%N :: expression) = Some [(2, expression); (1, [t])].
Proof.
  intros Ht Hin.
  destruct (inner_expression_cons _ Hin) as (c & e & -> & Hsp & Hnl & Hdot).
  unfold re_match, DT_PATTERN.
  destruct Ht as [->| ->]; cbn -[firstn List.length star];
    cbn [star test]; rewrite Hsp, Hnl;
    (erewrite star_all; [reflexivity|exact Hdot|]);
    rewrite firstn_whole, firstn_cons_minus; reflexivity.
Qed.

Lemma match_m (digits expression : pystr) :
  digits <> [] ->
  forallb isdecimal digits = true ->
  inner_expression expression ->
  re_match M_PATTERN (u ".m -" ++ digits ++ u " " ++ expression) =
  Some [(2, expression); (1, digits)].
Proof.
  intros Hne Hd Hin.
  destruct (inner_expression_cons _ Hin) as (c & e & -> & Hsp & Hnl & Hdot).
  destruct digits as [|d ds]; [contradiction|].
  cbn [forallb] in Hd. apply andb_true_iff in Hd as [Hd Hds].
  change (u ".m -") with [46; 109; 32; 45]%N. change (u " ") with [32%N].
  unfold re_match, M_PATTERN.
  cbn -[firstn List.length star].
  rewrite star_stop by reflexivity.
  cbn -[firstn List.length star]. rewrite Hd.
  erewrite star_greedy; [reflexivity|exact Hds|reflexivity|].
  cbn -[firstn List.length star].
  rewrite star_stop by exact Hsp.
  rewrite Hnl.
  erewrite star_all; [reflexivity|exact Hdot|].
  now rewrite firstn_whole, firstn_cons_app_minus.
Qed.

Lemma isspace_cases (c : char) :
  isspace c = true ->
  In c [9; 10; 11; 12; 13; 28; 29; 30; 31; 32; 133; 160; 5760; 8192; 8193;
        8194; 8195; 8196; 8197; 8198; 8199; 8200; 8201; 8202; 8232; 8233;
        8239; 8287; 12288]%N.
Proof.
  unfold isspace. rewrite !orb_true_iff, !andb_true_iff, !N.leb_le, !N.eqb_eq.
  intros Hc. cbn [In].
  assert (Hn : (c = 9 \/ c = 10 \/ c = 11 \/ c = 12 \/ c = 13 \/ c = 28 \/ c = 29
          \/ c = 30 \/ c = 31 \/ c = 32 \/ c = 133 \/ c = 160 \/ c = 5760
          \/ c = 8192 \/ c = 8193 \/ c = 8194 \/ c = 8195 \/ c = 8196 \/ c = 8197
          \/ c = 8198 \/ c = 8199 \/ c = 8200 \/ c = 8201 \/ c = 8202 \/ c = 8232
          \/ c = 8233 \/ c = 8239 \/ c = 8287 \/ c = 12288)%N) by lia.
  repeat (destruct Hn as [->|Hn]; [tauto|]). subst. tauto.
Qed.

Lemma isspace_not_decimal (c : char) : isspace c = true -> isdecimal c = false.
Proof.
  intros Hc. apply isspace_cases in Hc.
  repeat (destruct Hc as [<-|Hc]; [reflexivity|]). destruct Hc.
Qed.

Lemma int_space_isspace (c : char) : int_space c = true -> isspace c = true.
Proof.
  unfold int_space. rewrite !orb_true_iff, !andb_true_iff.
  intros [[H|H]|[_ H]]; [| |exact H].
  - unfold isspace. destruct H as [H1 H2]. now rewrite H1, H2.
  - apply N.eqb_eq in H. now subst.
Qed.

Lemma decimal_not_int_space (c : char) : isdecimal c = true -> int_space c = false.
Proof.
  intros Hd. destruct (int_space c) eqn:Hs; [|reflexivity].
  apply int_space_isspace, isspace_not_decimal in Hs. congruence.
Qed.

Lemma decimal_not_char (c x : char) :
  isdecimal x = false -> isdecimal c = true -> char_eqb c x = false.
Proof.
  intros Hx Hc. unfold char_eqb. apply N.eqb_neq. intros ->. congruence.
Qed.

Lemma int_lskip_decimal (c : char) (s : pystr) :
  isdecimal c = true -> int_lskip (c :: s) = c :: s.
Proof. intros Hd. cbn. now rewrite (decimal_not_int_space c Hd). Qed.

Lemma forallb_last (p : char -> bool) (s : pystr) :
  s <> [] -> forallb p s = true ->
  exists c r, rev s = c :: r /\ p c = true.
Proof.
  intros Hne Hall. destruct (rev s) as [|c r] eqn:Hr.
  - apply (f_equal (@rev char)) in Hr. rewrite rev_involutive in Hr. contradiction.
  - exists c, r. split; [reflexivity|].
    rewrite forallb_forall in Hall. apply Hall, in_rev. rewrite Hr. now left.
Qed.

Lemma int_trim_decimal (s : pystr) :
  s <> [] -> forallb isdecimal s = true -> int_trim s = s.
Proof.
  intros Hne Hall. unfold int_trim.
  destruct s as [|c s']; [contradiction|].
  pose proof Hall as Hall'. cbn [forallb] in Hall'.
  apply andb_true_iff in Hall' as [Hc _].
  rewrite (int_lskip_decimal c s' Hc).
  destruct (forallb_last isdecimal (c :: s') Hne Hall) as (l & r & Hr & Hl).
  rewrite Hr, (int_lskip_decimal l r Hl), <- Hr. apply rev_involutive.
Qed.

Lemma int_digits_decimal (s : pystr) :
  forallb isdecimal s = true ->
  forall acc after, s <> [] \/ after = true ->
  exists n, int_digits acc after s = Some n.
Proof.
  induction s as [|c s IH]; intros Hall acc after Hne.
  - destruct Hne as [Hne| ->]; [contradiction|]. now exists acc.
  - cbn [forallb] in Hall. apply andb_true_iff in Hall as [Hc Hall].
    cbn [int_digits]. unfold isdecimal in Hc.
    destruct (decimal c) as [d|]; [|discriminate].
    apply IH; [assumption|now right].
Qed.

Lemma int_decimal (s : pystr) :
  s <> [] -> forallb isdecimal s = true ->
  exists n, int s = Some n /\ (0 <= n)%Z.
Proof.
  intros Hne Hall. unfold int. rewrite int_trim_decimal by assumption.
  destruct s as [|c s']; [contradiction|].
  pose proof Hall as Hall'. cbn [forallb] in Hall'.
  apply andb_true_iff in Hall' as [Hc _].
  rewrite (decimal_not_char c 45%N eq_refl Hc), (decimal_not_char c 43%N eq_refl Hc).
  destruct (int_digits_decimal (c :: s') Hall 0%N false) as (n & Hn); [now left|].
  rewrite Hn. exists (Z.of_N n). split; [reflexivity|lia].
Qed.

Section Repetition.
Context `{Interpreter}.
Variable ev : pystr -> rng -> pystr * rng.

Lemma execute_loop_lines (expression : pystr) (n : nat) :
  forall (i : nat) (results : list pystr) (g : rng),
    execute_loop ev n (Z.of_nat i) expression results g =
    (results ++ map (fun k => u "第 " ++ str (Z.of_nat (i + k) + 1) ++ u " 次 -> "
                               ++ fst (ev expression (rng_after ev expression k g)))
                    (seq 0 n),
     rng_after ev expression n g).
Proof.
  induction n as [|n IH]; intros i results g.
  - cbn. now rewrite app_nil_r.
  - cbn [execute_loop rng_after].
    destruct (ev expression g) as [result g1] eqn:He. cbn [snd].
    replace (Z.of_nat i + 1)%Z with (Z.of_nat (S i)) by lia.
    rewrite IH, <- app_assoc. f_equal. f_equal.
    cbn [seq map app]. f_equal.
    + rewrite Nat.add_0_r. cbn [rng_after]. rewrite He.
      replace (Z.of_nat (S i)) with (Z.of_nat i + 1)%Z by lia. reflexivity.
    + rewrite <- seq_shift, map_map. apply map_ext. intros k.
      cbn [rng_after]. rewrite He. cbn [snd].
      now replace (S i + k) with (i + S k) by lia.
Qed.

Lemma execute_rolls_lines (times : Z) (expression : pystr) (g : rng) :
  _execute_rolls ev times expression g =
  (inr (join [10%N] (trial_lines ev expression (Z.to_nat times) g)),
   rng_after ev expression (Z.to_nat times) g).
Proof.
  unfold _execute_rolls. change 0%Z with (Z.of_nat 0).
  rewrite (execute_loop_lines expression (Z.to_nat times) 0 [] g).
  reflexivity.
Qed.

Lemma repeat_roll_lines (command : pystr) (times : Z) (expression : pystr) (g : rng) :
  repeat_directive command = inr (times, expression) ->
  repeat_roll ev command g =
  (join [10%N] (trial_lines ev expression (Z.to_nat times) g),
   rng_after ev expression (Z.to_nat times) g).
Proof.
  intros Hd. apply try_except_value.
  unfold repeat_roll_body, bind, lift. rewrite Hd.
  apply execute_rolls_lines.
Qed.

End Repetition.

Lemma directive_dt (expression : pystr) :
  inner_expression expression ->
  repeat_directive (u ".d " ++ expression) = inr (2%Z, expression) /\
  repeat_directive (u ".t " ++ expression) = inr (3%Z, expression).
Proof.
  intros Hin. unfold repeat_directive.
  change (u ".d " ++ expression) with (46 :: 100 :: 32 :: expression)%N.
  change (u ".t " ++ expression) with (46 :: 116 :: 32 :: expression)%N.
  rewrite !match_dt by (auto; fail).
  split; reflexivity.
Qed.

Lemma directive_m (digits expression : pystr) :
  digits <> [] ->
  forallb isdecimal digits = true ->
  inner_expression expression ->
  exists times,
    int digits = Some times /\ (0 <= times)%Z /\
    repeat_directive (u ".m -" ++ digits ++ u " " ++ expression) = inr (times, expression).
Proof.
  intros Hne Hd Hin.
  destruct (int_decimal digits Hne Hd) as (times & Hi & Hpos).
  exists times. split; [exact Hi|]. split; [exact Hpos|].
  unfold repeat_directive. rewrite match_m by assumption.
  cbn [group Nat.eqb int_of text_of rbind]. unfold int_str. now rewrite Hi.
Qed.

Lemma trial_lines_length ev expression n g :
  List.length (trial_lines ev expression n g) = n.
Proof. unfold trial_lines. now rewrite length_map, length_seq. Qed.

Lemma quick_pattern_prefix (command : pystr) :
  startswith (u ".r") command = false -> re_match QUICK_PATTERN command = None.
Proof.
  change (u ".r") with [46; 114]%N. unfold re_match, QUICK_PATTERN.
  destruct command as [|a [|b s]]; cbn -[star char_eqb].
  - reflexivity.
  - now destruct (char_eqb 46%N a).
  - destruct (char_eqb 46%N a); [|reflexivity].
    destruct (char_eqb 114%N b); [discriminate|reflexivity].
Qed.

Lemma repeat_patterns_prefix (command : pystr) :
  repeat_prefix command = false ->
  re_match M_PATTERN command = None /\ re_match DT_PATTERN command = None.
Proof.
  unfold repeat_prefix, re_match, M_PATTERN, DT_PATTERN.
  destruct command as [|a [|b [|c s]]]; cbn -[star firstn List.length char_eqb];
    repeat match goal with
           | |- context [char_eqb ?x ?y] => destruct (char_eqb x y)
           | |- context [isspace ?x] => destruct (isspace x)
           end;
    try discriminate; split; reflexivity.
Qed.

Lemma star_inv {A} (p : char -> bool) (s : pystr) (k : pystr -> option A) r :
  star p s k = Some r -> exists s', k s' = Some r.
Proof.
  induction s as [|c s IH]; cbn [star]; intros Hs.
  - now exists [].
  - destruct (p c); [|now exists (c :: s)].
    destruct (star p s k) as [r'|] eqn:Hr; [|now exists (c :: s)].
    injection Hs as <-. now apply IH.
Qed.

Ltac unroll_match :=
  repeat match goal with
         | H : star _ _ _ = Some _ |- _ => apply star_inv in H as (? & H)
         | H : match ?s with _ => _ end = Some _ |- _ =>
             destruct s eqn:?; try discriminate H
         | H : Some _ = Some _ |- _ => injection H as H; try subst
         end.

Lemma m_pattern_groups (command : pystr) (m : captures) :
  re_match M_PATTERN command = Some m ->
  exists digits expression, m = [(2, expression); (1, digits)].
Proof.
  unfold re_match, M_PATTERN. cbn -[star firstn List.length char_eqb].
  intros Hm. unroll_match. eauto.
Qed.

Lemma dt_pattern_groups (command : pystr) (m : captures) :
  re_match DT_PATTERN command = Some m ->
  exists kind expression, m = [(2, expression); (1, kind)].
Proof.
  unfold re_match, DT_PATTERN. cbn -[star firstn List.length char_eqb].
  intros Hm. unroll_match; eauto.
Qed.

Lemma repeat_directive_text (command : pystr) :
  repeat_directive command <> inl NoneArgument.
Proof.
  unfold repeat_directive.
  destruct (re_match M_PATTERN command) as [m|] eqn:Hm.
  - apply m_pattern_groups in Hm as (digits & expression & ->).
    cbn. unfold int_str. destruct (int digits); cbn; discriminate.
  - destruct (re_match DT_PATTERN command) as [m|] eqn:Hd; [|discriminate].
    apply dt_pattern_groups in Hd as (kind & expression & ->).
    cbn. discriminate.
Qed.

(** ** The dice pattern *)

Lemma star_inv_split {A} (p : char -> bool) (s : pystr) (k : pystr -> option A) r :
  star p s k = Some r ->
  exists a s', s = a ++ s' /\ forallb p a = true /\ k s' = Some r.
Proof.
  induction s as [|c s IH]; cbn [star]; intros Hs.
  - now exists [], [].
  - destruct (p c) eqn:Hc; [|now exists [], (c :: s)].
    destruct (star p s k) as [r'|] eqn:Hr; [|now exists [], (c :: s)].
    injection Hs as <-. destruct (IH eq_refl) as (a & s' & -> & Ha & Hk).
    exists (c :: a), s'. cbn [forallb]. now rewrite Hc, Ha.
Qed.

Lemma int_signed (sign c : char) (ds : pystr) :
  sign = 43%N \/ sign = 45%N ->
  forallb isdecimal (c :: ds) = true ->
  exists n, int (sign :: c :: ds) = Some n.
Proof.
  intros Hsign Hall.
  assert (Htrim : int_trim (sign :: c :: ds) = sign :: c :: ds).
  { unfold int_trim.
    assert (Hl : int_lskip (sign :: c :: ds) = sign :: c :: ds)
      by (destruct Hsign as [-> | ->]; reflexivity).
    rewrite Hl.
    destruct (forallb_last isdecimal (c :: ds)) as (l & r & Hr & Hd);
      [discriminate|assumption|].
    change (sign :: c :: ds) with ([sign] ++ c :: ds) at 1.
    rewrite rev_app_distr, Hr. cbn [app].
    rewrite (int_lskip_decimal l _ Hd).
    change (l :: r ++ rev [sign]) with ((l :: r) ++ rev [sign]).
    rewrite <- Hr, <- rev_app_distr. apply rev_involutive. }
  unfold int. rewrite Htrim.
  destruct (int_digits_decimal (c :: ds) Hall 0%N false) as (n & Hn); [now left|].
  destruct Hsign as [-> | ->]; cbn -[int_digits]; rewrite Hn; cbn [option_map]; eauto.
Qed.

(** Every text that the dice pattern matches is parsed: the digits and
    the signed digits of the groups are literals that [int] reads, so
    the only failure of [parse_dice] is the failure of the match. *)
Lemma parse_dice_total (dice_expression : pystr) (m : captures) :
  re_match DICE_PATTERN dice_expression = Some m ->
  exists d, parse_dice dice_expression = inr d.
Proof.
  intros Hm. unfold parse_dice. rewrite Hm.
  revert Hm. unfold re_match, DICE_PATTERN.
  cbn -[star firstn List.length char_eqb].
  intros Hm.
  apply star_inv_split in Hm as (a & s1 & -> & Ha & Hm).
  destruct s1 as [|x s2]; [discriminate|].
  destruct (char_eqb 100%N x); [|discriminate].
  destruct s2 as [|y s3]; [discriminate|].
  destruct (isdecimal y) eqn:Hy; [|discriminate].
  apply star_inv_split in Hm as (b & s4 & -> & Hb & Hm).
  rewrite firstn_cons_app_minus, firstn_minus in Hm.
  change (test c_digit) with isdecimal in *.
  assert (Hsides : exists n, int_of (Some (y :: b)) = inr n).
  { destruct (int_decimal (y :: b)) as (n & Hn & _);
      [discriminate|cbn [forallb]; now rewrite Hy, Hb|].
    exists n. cbn [int_of]. unfold int_str. now rewrite Hn. }
  assert (Hcount : exists n,
             (if truthy (Some a) then int_of (Some a) else inr 1%Z) = inr n).
  { destruct a as [|a0 a']; [now exists 1%Z|].
    destruct (int_decimal (a0 :: a')) as (n & Hn & _); [discriminate|assumption|].
    exists n. cbn [truthy int_of]. unfold int_str. now rewrite Hn. }
  destruct Hsides as (sides & Hsides). destruct Hcount as (count & Hcount).
  destruct s4 as [|sign s5].
  { injection Hm as <-. cbn [group Nat.eqb]. rewrite Hcount, Hsides.
    cbn [rbind truthy]. eauto. }
  destruct (char_eqb sign 43 || (char_eqb sign 45 || false)) eqn:Hsign.
  2:{ injection Hm as <-. cbn [group Nat.eqb]. rewrite Hcount, Hsides.
      cbn [rbind truthy]. eauto. }
  destruct s5 as [|z s6].
  { injection Hm as <-. cbn [group Nat.eqb]. rewrite Hcount, Hsides.
    cbn [rbind truthy]. eauto. }
  destruct (isdecimal z) eqn:Hz.
  2:{ injection Hm as <-. cbn [group Nat.eqb]. rewrite Hcount, Hsides.
      cbn [rbind truthy]. eauto. }
  destruct (star isdecimal s6 _) as [m'|] eqn:Hstar.
  2:{ injection Hm as <-. cbn [group Nat.eqb]. rewrite Hcount, Hsides.
      cbn [rbind truthy]. eauto. }
  assert (Hmm : m' = m) by congruence. subst m'. clear Hm.
  apply star_inv_split in Hstar as (c & s7 & -> & Hc & Hstar).
  apply (f_equal (fun o => match o with Some v => v | None => [] end)) in Hstar.
  cbv beta iota in Hstar. subst m.
  change (sign :: z :: c ++ s7) with ((sign :: z :: c) ++ s7).
  rewrite firstn_minus. cbn [group Nat.eqb]. rewrite Hcount, Hsides.
  cbn [rbind truthy].
  destruct (int_signed sign z c) as (n & Hn).
  - unfold char_eqb in Hsign. rewrite orb_false_r in Hsign.
    apply orb_true_iff in Hsign as [Hs%N.eqb_eq|Hs%N.eqb_eq]; auto.
  - cbn [forallb]. now rewrite Hz, Hc.
  - cbn [int_of]. unfold int_str. rewrite Hn. cbn [rbind]. eauto.
Qed.

(** ** Repetition *)

Lemma trial_lines_nth ev expression n g i :
  i < n ->
  nth i (trial_lines ev expression n g) [] = trial_line ev expression g i.
Proof.
  intros Hi. unfold trial_lines.
  rewrite (nth_indep _ [] (trial_line ev expression g 0))
    by (now rewrite length_map, length_seq).
  now rewrite map_nth, seq_nth.
Qed.

(** C7.  Whenever a repeat command is read as [times] trials of an
    expression, the result is the trial lines joined by line feeds: there
    are exactly [times] of them, line [i] starts with its number, counted
    from 1, and holds the result of a new evaluation of the expression in
    the state of the random source left by the trials before it, whether
    that result is a roll or an error string.  For an inner expression
    typed on one line, the d form asks for 2 trials of it, the t form for
    3 and the m form for the number its digits spell.  A failing
    expression fills every line with its error string. *)
Theorem repeat_roll_trials `{Interpreter} (E : engine) :
  In E engines ->
  (forall command times expression g,
      repeat_directive command = inr (times, expression) ->
      let lines := trial_lines (evaluate E) expression (Z.to_nat times) g in
      repeat E command g =
      (join [10%N] lines, rng_after (evaluate E) expression (Z.to_nat times) g) /\
      List.length lines = Z.to_nat times /\
      forall i, i < Z.to_nat times ->
                nth i lines [] =
                u "第 " ++ str (Z.of_nat i + 1) ++ u " 次 -> "
                  ++ fst (evaluate E expression
                                   (rng_after (evaluate E) expression i g))) /\
  (forall expression,
      inner_expression expression ->
      repeat_directive (u ".d " ++ expression) = inr (2%Z, expression) /\
      repeat_directive (u ".t " ++ expression) = inr (3%Z, expression) /\
      forall digits,
        digits <> [] ->
        forallb isdecimal digits = true ->
        exists times,
          int digits = Some times /\ (0 <= times)%Z /\
          repeat_directive (u ".m -" ++ digits ++ u " " ++ expression) =
          inr (times, expression)) /\
  (forall g,
      repeat E (u ".d abc") g =
      (u "第 1 次 -> 错误：无效的表达式！" ++ [10%N]
         ++ u "第 2 次 -> 错误：无效的表达式！", g)).
Proof.
  intros HE. split; [|split].
  - intros command times expression g Hd lines.
    split; [|split].
    + destruct HE as [<-|[<-|[]]]; now apply repeat_roll_lines.
    + apply trial_lines_length.
    + intros i Hi. unfold lines. now rewrite trial_lines_nth.
  - intros expression Hin.
    destruct (directive_dt expression Hin) as [Hd Ht].
    split; [exact Hd|]. split; [exact Ht|].
    intros digits Hne Hdec. now apply directive_m.
  - intros g. destruct HE as [<-|[<-|[]]]; vm_compute; reflexivity.
Qed.

(** C8, as the code has it.  A command is rejected when the start of it
    does not match the pattern of its form: [quick_roll] returns the
    error string for every command that does not start with the two
    characters of the r form, and [repeat_roll] returns its error string
    for every command that neither pattern matches, in particular for
    every command that does not start with a dot, one of the letters m, d
    and t, and a whitespace character.  The number of an m command is not
    checked to be positive: with the number 0 the command is accepted,
    no trial is run and the result is the empty string. *)
Theorem command_rejection `{Interpreter} :
  (forall command g,
      startswith (u ".r") command = false ->
      quick_roll command g = (u "错误：" ++ u "无效的表达式！", g)) /\
  (forall E, In E engines ->
     forall command g,
       re_match M_PATTERN command = None ->
       re_match DT_PATTERN command = None ->
       repeat E command g = (u "错误：" ++ u "无效的重复检定指令！", g)) /\
  (forall command,
      repeat_prefix command = false ->
      re_match M_PATTERN command = None /\ re_match DT_PATTERN command = None) /\
  (forall E, In E engines ->
     forall expression g,
       inner_expression expression ->
       repeat E (u ".m -0 " ++ expression) g = ([], g)).
Proof.
  split; [|split; [|split]].
  - intros command g Hp.
    assert (Hb : quick_roll_body command g = (inl (ValueError (u "无效的表达式！")), g))
      by (unfold quick_roll_body; now rewrite quick_pattern_prefix).
    exact (try_except_raise _ _ _ _ Hb).
  - intros E HE command g Hm Hd.
    assert (Hr : repeat_directive command = inl (ValueError (u "无效的重复检定指令！")))
      by (unfold repeat_directive; now rewrite Hm, Hd).
    assert (Hb : forall ev, repeat_roll_body ev command g =
                            (inl (ValueError (u "无效的重复检定指令！")), g))
      by (intros ev; unfold repeat_roll_body, bind, lift; now rewrite Hr).
    destruct HE as [<-|[<-|[]]]; exact (try_except_raise _ _ _ _ (Hb _)).
  - exact repeat_patterns_prefix.
  - intros E HE expression g Hin.
    destruct (directive_m [48%N] expression) as (times & Hi & _ & Hd);
      [discriminate|vm_compute; reflexivity|assumption|].
    vm_compute in Hi. injection Hi as <-.
    replace (u ".m -0 " ++ expression)
      with (u ".m -" ++ [48%N] ++ u " " ++ expression)
      by (vm_compute; reflexivity).
    destruct HE as [<-|[<-|[]]]; exact (repeat_roll_lines _ _ _ _ g Hd).
Qed.

(** ** The two files on the same input *)

Lemma evaluate_same_flags `{Interpreter} expression gamble lvl text :
  Dicer.strip_flags expression = (gamble, lvl, text) ->
  dicer_flags expression = (gamble, lvl, text) ->
  forall g, Dicer.evaluate_expression expression g =
            dicer.evaluate_expression expression g.
Proof.
  intros HD Hd g.
  apply dicer_flags_inv in Hd as (options & Hd & <-).
  unfold Dicer.evaluate_expression, dicer.evaluate_expression, try_except.
  unfold Dicer.evaluate_body, dicer.evaluate_body. rewrite HD, Hd.
  unfold bind, lift.
  destruct (split_target text) as [e|[target dice_expression]]; [reflexivity|].
  destruct (roll_dice (strip dice_expression) g) as [[e|[total details]] g'];
    [reflexivity|].
  unfold ret. now rewrite outcome_agree.
Qed.

Lemma flags_plain expression :
  flag_free expression ->
  Dicer.strip_flags expression = (false, lvl_n, expression) /\
  dicer_flags expression = (false, lvl_n, expression).
Proof.
  intros (Hg & Hh & He). split.
  - unfold Dicer.strip_flags. now rewrite Hg, Hh, He.
  - unfold dicer_flags, dicer.strip_flags. cbn [map fst dicer.initial_options fold_left].
    unfold dicer.option_step. now rewrite Hg, Hh, He.
Qed.

(** no occurrence of a two-character text across the seam *)
Lemma startswith2_app (x y c : char) (a b : pystr) :
  match b with [] => True | d :: _ => d <> y end ->
  startswith [x; y] (c :: a ++ b) = startswith [x; y] (c :: a).
Proof.
  intros Hb. cbn [startswith]. f_equal.
  destruct a as [|d a]; [|reflexivity].
  cbn [app]. destruct b as [|d b]; [reflexivity|].
  unfold char_eqb. replace (y =? d)%N with false; [reflexivity|].
  symmetry. apply N.eqb_neq. congruence.
Qed.

Lemma contains2_app (x y : char) (a b : pystr) :
  match b with [] => True | d :: _ => d <> y end ->
  contains [x; y] (a ++ b) = contains [x; y] a || contains [x; y] b.
Proof.
  intros Hb. induction a as [|c a IH].
  - cbn [app]. reflexivity.
  - cbn [app contains]. rewrite IH, startswith2_app by assumption.
    cbn [contains]. now rewrite orb_assoc.
Qed.

Lemma remove2_app (x y : char) (a b : pystr) :
  contains [x; y] a = false ->
  match b with [] => True | d :: _ => d <> y end ->
  replace_from [x; y] [] 0 (a ++ b) = a ++ replace_from [x; y] [] 0 b.
Proof.
  intros Ha Hb. induction a as [|c a IH]; [reflexivity|].
  cbn [contains] in Ha. apply orb_false_iff in Ha as [Hs Ha].
  cbn [app replace_from]. rewrite startswith2_app, Hs by assumption.
  now rewrite IH.
Qed.

Lemma startswith_cons (x c : char) (p s : pystr) :
  startswith (x :: p) (c :: s) = char_eqb x c && startswith p s.
Proof. reflexivity. Qed.

Lemma remove3_app (z : char) (a rest : pystr) :
  contains [45%N; z] a = false ->
  z <> 32%N ->
  replace_from [32%N; 45%N; z] [] 0 (a ++ 32%N :: rest) =
  a ++ replace_from [32%N; 45%N; z] [] 0 (32%N :: rest).
Proof.
  intros Ha Hz. induction a as [|c a IH]; [reflexivity|].
  cbn [contains] in Ha. apply orb_false_iff in Ha as [Hs Ha].
  cbn [app replace_from].
  replace (startswith [32%N; 45%N; z] (c :: a ++ 32%N :: rest)) with false.
  - now rewrite IH.
  - symmetry. rewrite startswith_cons. apply andb_false_iff. right.
    destruct a as [|d a]; [reflexivity|].
    cbn [contains] in Ha. apply orb_false_iff in Ha as [Hs' _].
    cbn [app]. rewrite startswith2_app by congruence. exact Hs'.
Qed.

Lemma lstrip_app (x y : pystr) :
  lstrip (x ++ y) = match lstrip x with [] => lstrip y | t => t ++ y end.
Proof.
  induction x as [|c x IH]; [reflexivity|].
  cbn [app lstrip]. destruct (isspace c); [exact IH|reflexivity].
Qed.

Lemma lstrip_length (s : pystr) : List.length (lstrip s) <= List.length s.
Proof.
  induction s as [|c s IH]; [reflexivity|].
  cbn [lstrip]. destruct (isspace c); cbn [List.length]; lia.
Qed.

(** A text that [strip] leaves alone starts and ends with a visible character. *)
Lemma strip_fixed (s : pystr) :
  strip s = s -> s <> [] ->
  lstrip s = s /\ lstrip (rev s) = rev s /\ rev s <> [].
Proof.
  intros Hs Hne. unfold strip, rstrip in Hs.
  assert (Hl : lstrip s = s).
  { pose proof (lstrip_length s) as H1.
    pose proof (lstrip_length (rev (lstrip s))) as H2.
    rewrite length_rev in H2.
    assert (H3 : List.length (lstrip (rev (lstrip s))) = List.length s)
      by (rewrite <- (length_rev (lstrip _)), Hs; reflexivity).
    destruct s as [|c s]; [contradiction|].
    pose proof (lstrip_length s) as H4.
    cbn [lstrip] in *. destruct (isspace c); [|reflexivity].
    cbn [List.length] in *. lia. }
  rewrite Hl in Hs. split; [exact Hl|]. split.
  - apply (f_equal (@rev char)) in Hs. now rewrite rev_involutive in Hs.
  - intros Hr. apply Hne. apply (f_equal (@rev char)) in Hr.
    now rewrite rev_involutive in Hr.
Qed.

Lemma strip_app (base w : pystr) :
  strip base = base -> base <> [] ->
  strip (base ++ w) = base ++ rstrip w.
Proof.
  intros Hs Hne. destruct (strip_fixed base Hs Hne) as (Hl & Hr & Hn).
  unfold strip.
  assert (Hlw : lstrip (base ++ w) = base ++ w).
  { rewrite lstrip_app, Hl. destruct base; [contradiction|reflexivity]. }
  rewrite Hlw. unfold rstrip. rewrite rev_app_distr, lstrip_app.
  destruct (lstrip (rev w)) as [|t ts] eqn:Hw.
  - rewrite Hr, rev_involutive. cbn. now rewrite app_nil_r.
  - now rewrite rev_app_distr, rev_involutive.
Qed.

Lemma seam_head (s : pystr) (y : char) :
  seam s = true -> y <> 32%N ->
  match s with [] => True | d :: _ => d <> y end.
Proof.
  destruct s as [|d s]; [trivial|]. cbn [seam]. intros Hd%N.eqb_eq. congruence.
Qed.

Lemma seam_cons (s : pystr) :
  seam s = true -> s <> [] -> exists rest, s = 32%N :: rest.
Proof.
  destruct s as [|d s]; [contradiction|]. cbn [seam].
  intros ->%N.eqb_eq _. now exists s.
Qed.

(** One flag of src/Dicer.py on a text that carries its flags after a
    base without flags. *)
Lemma Dicer_flag_app (z : char) (base s : pystr) :
  contains [45%N; z] base = false ->
  z <> 32%N ->
  seam s = true ->
  contains [45%N; z] (base ++ s) = contains [45%N; z] s /\
  (contains [45%N; z] s = true ->
   replace [32%N; 45%N; z] [] (base ++ s) =
   base ++ replace [32%N; 45%N; z] [] s).
Proof.
  intros Hb Hz Hs. split.
  - rewrite contains2_app by (now apply seam_head). now rewrite Hb.
  - intros Hc. destruct (seam_cons s Hs) as (rest & ->).
    + intros ->. discriminate Hc.
    + now apply remove3_app.
Qed.

(** One iteration of the loop of src/dicer.py on such a text. *)
Lemma dicer_flag_app (z : char) (base s : pystr) (options : dicer.options_dict) :
  contains [45%N; z] base = false ->
  z <> 32%N ->
  strip base = base -> base <> [] ->
  seam s = true ->
  dicer.option_step (options, base ++ s) [45%N; z] =
  if contains [45%N; z] s
  then (dicer.store options [45%N; z] true,
        base ++ rstrip (replace [45%N; z] [] s))
  else (options, base ++ s).
Proof.
  intros Hb Hz Hst Hne Hs. unfold dicer.option_step.
  rewrite contains2_app by (now apply seam_head). rewrite Hb. cbn [orb].
  destruct (contains [45%N; z] s); [|reflexivity].
  unfold replace. rewrite remove2_app by (try assumption; now apply seam_head).
  now rewrite strip_app.
Qed.

Ltac flag_literals :=
  change (u "-g") with [45; 103]%N in *;
  change (u "-h") with [45; 104]%N in *;
  change (u "-e") with [45; 101]%N in *;
  change (u " -g") with [32; 45; 103]%N in *;
  change (u " -h") with [32; 45; 104]%N in *;
  change (u " -e") with [32; 45; 101]%N in *;
  change (u "") with (@nil N) in *.

Lemma flag_suffixes_literal :
  flag_suffixes =
  [[32; 45; 103]; [32; 45; 104]; [32; 45; 101]; [32; 45; 104; 32; 45; 103];
   [32; 45; 103; 32; 45; 104]; [32; 45; 101; 32; 45; 103];
   [32; 45; 103; 32; 45; 101]]%N.
Proof. vm_compute. reflexivity. Qed.

Ltac compute_closed :=
  repeat match goal with
         | |- context [contains ?p (?c :: ?s)] =>
             let v := eval vm_compute in (contains p (c :: s)) in
             change (contains p (c :: s)) with v
         | |- context [contains ?p []] =>
             let v := eval vm_compute in (contains p []) in
             change (contains p []) with v
         | |- context [rstrip (replace ?p [] ?s)] =>
             let v := eval vm_compute in (rstrip (replace p [] s)) in
             change (rstrip (replace p [] s)) with v
         | |- context [replace ?p [] (?c :: ?s)] =>
             let v := eval vm_compute in (replace p [] (c :: s)) in
             change (replace p [] (c :: s)) with v
         | |- context [Dicer.strip_flags (?c :: ?s)] =>
             let v := eval vm_compute in (Dicer.strip_flags (c :: s)) in
             change (Dicer.strip_flags (c :: s)) with v
         end;
  cbv beta iota.

Lemma dicer_flags_suffix (base suffix : pystr) :
  flag_free base ->
  strip base = base -> base <> [] ->
  In suffix flag_suffixes ->
  dicer_flags (base ++ suffix) =
  (let '(gamble, lvl, _) := Dicer.strip_flags suffix in (gamble, lvl, base)).
Proof.
  intros (Hg & Hh & He) Hst Hne Hin. rewrite flag_suffixes_literal in Hin.
  unfold dicer_flags, dicer.strip_flags.
  cbn [map fst dicer.initial_options fold_left].
  flag_literals.
  repeat (destruct Hin as [<-|Hin]); try destruct Hin;
    rewrite (dicer_flag_app 103%N) by (assumption || discriminate || reflexivity);
    compute_closed;
    rewrite (dicer_flag_app 104%N) by (assumption || discriminate || reflexivity);
    compute_closed;
    rewrite (dicer_flag_app 101%N) by (assumption || discriminate || reflexivity);
    compute_closed;
    rewrite app_nil_r; reflexivity.
Qed.

Lemma Dicer_flags_suffix (base suffix : pystr) :
  flag_free base ->
  In suffix flag_suffixes ->
  Dicer.strip_flags (base ++ suffix) =
  (let '(gamble, lvl, _) := Dicer.strip_flags suffix in (gamble, lvl, base)).
Proof.
  intros (Hg & Hh & He) Hin. rewrite flag_suffixes_literal in Hin.
  unfold Dicer.strip_flags at 1. flag_literals.
  assert (Hz : forall z s, contains [45%N; z] base = false -> z <> 32%N -> seam s = true ->
               contains [45%N; z] (base ++ s) = contains [45%N; z] s)
    by (intros z s Hb Hz Hs; now apply Dicer_flag_app).
  assert (Hr : forall z s, contains [45%N; z] base = false -> z <> 32%N -> seam s = true ->
               contains [45%N; z] s = true ->
               replace [32%N; 45%N; z] [] (base ++ s) =
               base ++ replace [32%N; 45%N; z] [] s)
    by (intros z s Hb Hz' Hs; now apply Dicer_flag_app).
  repeat (destruct Hin as [<-|Hin]); try destruct Hin;
    rewrite (Hz 103%N) by (assumption || discriminate || reflexivity);
    compute_closed;
    rewrite ?(Hr 103%N) by (assumption || discriminate || reflexivity);
    compute_closed;
    rewrite (Hz 104%N) by (assumption || discriminate || reflexivity);
    compute_closed;
    rewrite ?(Hr 104%N) by (assumption || discriminate || reflexivity);
    compute_closed;
    rewrite ?(Hz 101%N) by (assumption || discriminate || reflexivity);
    compute_closed;
    rewrite ?(Hr 101%N) by (assumption || discriminate || reflexivity);
    compute_closed;
    rewrite app_nil_r; reflexivity.
Qed.

(** C9, as the code has it.  The two files return the same string, and
    leave the random source in the same state, on every input that
    holds none of the three flag texts, and on every input made of a
    base without flag texts and without outer whitespace followed by the
    flags written as documented: each after one space, at the end. *)
Theorem engines_agree `{Interpreter} :
  (forall expression g,
      flag_free expression ->
      Dicer.evaluate_expression expression g =
      dicer.evaluate_expression expression g) /\
  (forall base suffix g,
      flag_free base ->
      strip base = base ->
      In suffix flag_suffixes ->
      Dicer.evaluate_expression (base ++ suffix) g =
      dicer.evaluate_expression (base ++ suffix) g).
Proof.
  split.
  - intros expression g Hf.
    destruct (flags_plain expression Hf) as [HD Hd].
    now apply (evaluate_same_flags _ _ _ _ HD Hd).
  - intros base suffix g Hf Hst Hin.
    destruct base as [|c base'] eqn:Hb.
    + rewrite flag_suffixes_literal in Hin. cbn [app].
      repeat (destruct Hin as [<-|Hin]); try destruct Hin;
        vm_compute; reflexivity.
    + rewrite <- Hb in *.
      assert (Hne : base <> []) by (rewrite Hb; discriminate).
      pose proof (Dicer_flags_suffix base suffix Hf Hin) as HD.
      pose proof (dicer_flags_suffix base suffix Hf Hst Hne Hin) as Hd.
      destruct (Dicer.strip_flags suffix) as [[gamble lvl] t].
      now apply (evaluate_same_flags _ _ _ _ HD Hd).
Qed.

(** ** [str] and [int] *)

Lemma uint_chars_decimal (d : Decimal.uint) :
  forallb isdecimal (uint_chars d) = true.
Proof. induction d; cbn [uint_chars forallb]; try rewrite IHd; reflexivity. Qed.

Lemma int_digits_uint_acc (d : Decimal.uint) (acc : positive) :
  int_digits (Npos acc) true (uint_chars d) = Some (Npos (Pos.of_uint_acc d acc)).
Proof.
  revert acc. induction d; intros acc; cbn [uint_chars Pos.of_uint_acc];
    [reflexivity|..];
    cbn [int_digits];
    match goal with
    | |- context [decimal ?c] =>
        replace (decimal c) with (Some (c - 48)%N) by reflexivity
    end;
    cbv beta iota;
    match goal with
    | |- int_digits ?n true _ = Some (N.pos (Pos.of_uint_acc _ ?p)) =>
        replace n with (Npos p) by lia
    end; apply IHd.
Qed.

Lemma int_digits_uint (d : Decimal.uint) (after : bool) :
  d <> Decimal.Nil \/ after = true ->
  int_digits 0 after (uint_chars d) = Some (Pos.of_uint d).
Proof.
  revert after. induction d; intros after Hne; cbn [uint_chars Pos.of_uint].
  - destruct Hne as [Hne| ->]; [contradiction|reflexivity].
  - cbn [int_digits]. replace (decimal 48%N) with (Some 0%N) by reflexivity.
    cbv beta iota. change (10 * 0 + 0)%N with 0%N. apply IHd. now right.
  - exact (int_digits_uint_acc d 1).
  - exact (int_digits_uint_acc d 2).
  - exact (int_digits_uint_acc d 3).
  - exact (int_digits_uint_acc d 4).
  - exact (int_digits_uint_acc d 5).
  - exact (int_digits_uint_acc d 6).
  - exact (int_digits_uint_acc d 7).
  - exact (int_digits_uint_acc d 8).
  - exact (int_digits_uint_acc d 9).
Qed.

Lemma uint_chars_nil (d : Decimal.uint) : uint_chars d = [] -> d = Decimal.Nil.
Proof. destruct d; cbn; congruence. Qed.

Lemma int_lskip_last (x : pystr) (c : char) :
  int_space c = false -> exists y, int_lskip (x ++ [c]) = y ++ [c].
Proof.
  intros Hc. induction x as [|a x IH]; cbn [app int_lskip].
  - rewrite Hc. now exists [].
  - destruct (int_space a); [exact IH|]. now exists (a :: x).
Qed.

(** [int] drops nothing from a text that starts with a character it does
    not skip, and keeps such a first character in any case. *)
Lemma int_trim_head (c : char) (s : pystr) :
  int_space c = false -> exists t, int_trim (c :: s) = c :: t.
Proof.
  intros Hc. unfold int_trim. cbn [int_lskip]. rewrite Hc. cbn [rev].
  destruct (int_lskip_last (rev s) c Hc) as (y & ->).
  exists (rev y). now rewrite rev_app_distr.
Qed.

Lemma int_trim_fixed (c l : char) (s r : pystr) :
  int_space c = false -> rev (c :: s) = l :: r -> int_space l = false ->
  int_trim (c :: s) = c :: s.
Proof.
  intros Hc Hr Hl. unfold int_trim. cbn [int_lskip]. rewrite Hc, Hr.
  cbn [int_lskip]. rewrite Hl, <- Hr. apply rev_involutive.
Qed.

Lemma int_minus_digits (ds : pystr) :
  ds <> [] -> forallb isdecimal ds = true ->
  int (45%N :: ds) = option_map (fun n => (- Z.of_N n)%Z) (int_digits 0 false ds).
Proof.
  intros Hne Hall.
  destruct (forallb_last isdecimal ds Hne Hall) as (l & r & Hr & Hl).
  unfold int. erewrite int_trim_fixed; [reflexivity|reflexivity| |].
  - cbn [rev]. rewrite Hr. reflexivity.
  - now apply decimal_not_int_space.
Qed.

Lemma int_plain_digits (ds : pystr) :
  ds <> [] -> forallb isdecimal ds = true ->
  int ds = option_map Z.of_N (int_digits 0 false ds).
Proof.
  intros Hne Hall. unfold int. rewrite int_trim_decimal by assumption.
  destruct ds as [|c s']; [contradiction|].
  cbn [forallb] in Hall. apply andb_true_iff in Hall as [Hc _].
  now rewrite (decimal_not_char c 45%N eq_refl Hc), (decimal_not_char c 43%N eq_refl Hc).
Qed.

Lemma to_uint_not_nil (p : positive) : Pos.to_uint p <> Decimal.Nil.
Proof.
  intros Hn. pose proof (DecimalPos.Unsigned.of_to p) as Hp.
  rewrite Hn in Hp. discriminate.
Qed.

(** Reading back what [str] wrote gives the number. *)
Lemma int_str_round_trip (z : Z) : int (str z) = Some z.
Proof.
  unfold str. destruct z as [|p|p]; cbn [Z.to_int].
  - reflexivity.
  - rewrite int_plain_digits.
    + rewrite int_digits_uint by (left; apply to_uint_not_nil).
      now rewrite DecimalPos.Unsigned.of_to.
    + intros Hn. apply uint_chars_nil in Hn. now apply to_uint_not_nil in Hn.
    + apply uint_chars_decimal.
  - rewrite int_minus_digits.
    + rewrite int_digits_uint by (left; apply to_uint_not_nil).
      now rewrite DecimalPos.Unsigned.of_to.
    + intros Hn. apply uint_chars_nil in Hn. now apply to_uint_not_nil in Hn.
    + apply uint_chars_decimal.
Qed.

Lemma str_decimal (z : Z) :
  (0 <= z)%Z -> str z <> [] /\ forallb isdecimal (str z) = true.
Proof.
  intros Hz. unfold str. destruct z as [|p|p]; cbn [Z.to_int]; [| |lia].
  - split; [discriminate|reflexivity].
  - split; [|apply uint_chars_decimal].
    intros Hn. apply uint_chars_nil in Hn. now apply to_uint_not_nil in Hn.
Qed.

(** ** The dice grammar *)

Lemma no_digit_stop (rest : pystr) :
  no_digit rest = true ->
  match rest with [] => True | c :: _ => isdecimal c = false end.
Proof. destruct rest as [|x r]; cbn; [trivial|]. now intros ->%negb_true_iff. Qed.

Lemma match_dice_plain (a b rest : pystr) :
  forallb isdecimal a = true ->
  b <> [] -> forallb isdecimal b = true ->
  no_modifier rest = true ->
  re_match DICE_PATTERN (a ++ 100%N :: b ++ rest) = Some [(2, b); (1, a)].
Proof.
  intros Ha Hne Hb Hrest.
  destruct b as [|y b]; [contradiction|].
  cbn [forallb] in Hb. apply andb_true_iff in Hb as [Hy Hb].
  unfold re_match, DICE_PATTERN. cbn -[firstn List.length star].
  erewrite star_greedy; [reflexivity|exact Ha|reflexivity|].
  cbn -[firstn List.length star]. rewrite Hy.
  erewrite star_greedy; [reflexivity|exact Hb| |].
  - destruct rest as [|x r]; [exact I|]. cbn in Hrest.
    apply andb_true_iff in Hrest as [Hx _]. now apply negb_true_iff in Hx.
  - rewrite !firstn_cons_app_minus, !firstn_minus.
    destruct rest as [|x r]; [reflexivity|].
    cbn [no_modifier] in Hrest. apply andb_true_iff in Hrest as [_ Hx].
    apply negb_true_iff in Hx. rewrite orb_false_r.
    destruct (char_eqb x 43 || char_eqb x 45); [|reflexivity].
    cbn [andb] in Hx. destruct r as [|z r]; [reflexivity|].
    now rewrite Hx.
Qed.

Lemma match_dice_signed (a b c rest : pystr) (sign : char) :
  forallb isdecimal a = true ->
  b <> [] -> forallb isdecimal b = true ->
  sign = 43%N \/ sign = 45%N ->
  c <> [] -> forallb isdecimal c = true ->
  no_digit rest = true ->
  re_match DICE_PATTERN (a ++ 100%N :: b ++ (sign :: c) ++ rest) =
  Some [(3, sign :: c); (2, b); (1, a)].
Proof.
  intros Ha Hne Hb Hsign Hnc Hc Hrest.
  destruct b as [|y b]; [contradiction|].
  cbn [forallb] in Hb. apply andb_true_iff in Hb as [Hy Hb].
  destruct c as [|z c]; [contradiction|].
  cbn [forallb] in Hc. apply andb_true_iff in Hc as [Hz Hc].
  unfold re_match, DICE_PATTERN. cbn -[firstn List.length star].
  erewrite star_greedy; [reflexivity|exact Ha|reflexivity|].
  cbn -[firstn List.length star]. rewrite Hy.
  erewrite star_greedy; [reflexivity|exact Hb| |].
  - cbn [app]. destruct Hsign as [-> | ->]; reflexivity.
  - rewrite !firstn_cons_app_minus, !firstn_minus.
    cbn [app].
    replace (char_eqb sign 43 || (char_eqb sign 45 || false)) with true
      by (destruct Hsign as [-> | ->]; reflexivity).
    rewrite Hz.
    erewrite star_greedy; [reflexivity|exact Hc|now apply no_digit_stop|].
    change (sign :: z :: c ++ rest) with ((sign :: z :: c) ++ rest).
    now rewrite firstn_minus.
Qed.

Lemma int_of_decimal (s : pystr) :
  s <> [] -> forallb isdecimal s = true ->
  exists n, int s = Some n /\ (0 <= n)%Z /\ int_of (Some s) = inr n.
Proof.
  intros Hne Hall. destruct (int_decimal s Hne Hall) as (n & Hn & Hpos).
  exists n. repeat split; try assumption. cbn. unfold int_str. now rewrite Hn.
Qed.

Lemma dice_grammar_parse (a b m rest : pystr) :
  forallb isdecimal a = true ->
  b <> [] -> forallb isdecimal b = true ->
  modifier_form m rest = true ->
  exists count sides bonus,
    (a = [] -> count = 1%Z) /\ (a <> [] -> int a = Some count) /\
    int b = Some sides /\
    (m = [] -> bonus = 0%Z) /\ (m <> [] -> int m = Some bonus) /\
    (0 <= count)%Z /\ (0 <= sides)%Z /\
    parse_dice (a ++ 100%N :: b ++ m ++ rest) =
    inr {| num_dice := count; dice_type := sides; modifier := bonus;
           modifier_text := match m with [] => None | _ :: _ => Some m end |}.
Proof.
  intros Ha Hne Hb Hm.
  destruct (int_of_decimal b Hne Hb) as (sides & Hsides & Hs0 & Hs).
  assert (Hcount : exists count,
             (a = [] -> count = 1%Z) /\ (a <> [] -> int a = Some count) /\
             (0 <= count)%Z /\
             (if truthy (Some a) then int_of (Some a) else inr 1%Z) = inr count).
  { destruct a as [|a0 a'].
    - exists 1%Z. repeat split; [congruence|lia].
    - destruct (int_of_decimal (a0 :: a')) as (n & Hn & Hn0 & Hn'); [discriminate|assumption|].
      exists n. repeat split; [discriminate|now intros _|assumption|exact Hn']. }
  destruct Hcount as (count & Hc1 & Hc2 & Hc0 & Hc).
  destruct m as [|sign c].
  - exists count, sides, 0%Z. repeat split; try assumption; try congruence.
    unfold parse_dice. cbn [app]. rewrite match_dice_plain by assumption.
    cbn [group Nat.eqb]. rewrite Hc, Hs. reflexivity.
  - cbn [modifier_form] in Hm.
    apply andb_true_iff in Hm as [Hm Hrest]. apply andb_true_iff in Hm as [Hsign Hd].
    destruct c as [|z c]; [discriminate|].
    assert (Hsg : sign = 43%N \/ sign = 45%N).
    { unfold char_eqb in Hsign.
      apply orb_true_iff in Hsign as [H%N.eqb_eq|H%N.eqb_eq]; auto. }
    destruct (int_signed sign z c Hsg Hd) as (bonus & Hbonus).
    exists count, sides, bonus. repeat split; try assumption; try discriminate.
    { now intros _. }
    unfold parse_dice. rewrite match_dice_signed by (assumption || discriminate).
    cbn [group Nat.eqb]. rewrite Hc, Hs. cbn [rbind truthy int_of].
    unfold int_str. now rewrite Hbonus.
Qed.

(** X1.  The grammar of a dice text.  A text made of digits (possibly
    none), the letter d, at least one digit, an optional modifier (a
    sign and at least one digit) and a rest that cannot extend what is
    before it is parsed by [roll_dice] without an exception: the count
    is the number [int] reads from the first digits, or 1 when there are
    none; the sides are read from the digits after the letter; the
    modifier is read from the sign and its digits, or is 0 when there is
    no modifier; the rest is ignored.  Count and sides are never
    negative. *)
Theorem dice_grammar (a b m rest : pystr) :
  forallb isdecimal a = true ->
  b <> [] -> forallb isdecimal b = true ->
  modifier_form m rest = true ->
  exists count sides bonus,
    (a = [] -> count = 1%Z) /\ (a <> [] -> int a = Some count) /\
    int b = Some sides /\
    (m = [] -> bonus = 0%Z) /\ (m <> [] -> int m = Some bonus) /\
    (0 <= count)%Z /\ (0 <= sides)%Z /\
    parse_dice (a ++ u "d" ++ b ++ m ++ rest) =
    inr {| num_dice := count; dice_type := sides; modifier := bonus;
           modifier_text := match m with [] => None | _ :: _ => Some m end |}.
Proof.
  change (u "d" ++ b ++ m ++ rest) with (100%N :: b ++ m ++ rest).
  apply dice_grammar_parse.
Qed.

(** ** [quick_roll] *)

Lemma parse_one_die (n : Z) :
  (0 <= n)%Z ->
  parse_dice (u "1d" ++ str n) =
  inr {| num_dice := 1; dice_type := n; modifier := 0; modifier_text := None |}.
Proof.
  intros Hn. destruct (str_decimal n Hn) as [Hne Hd].
  destruct (dice_grammar_parse [49%N] (str n) [] [] eq_refl Hne Hd eq_refl)
    as (count & sides & bonus & _ & Hc & Hs & Hb & _ & _ & _ & Hp).
  rewrite int_str_round_trip in Hs. injection Hs as <-.
  specialize (Hc ltac:(discriminate)). injection Hc as <-.
  rewrite (Hb eq_refl) in Hp. cbn [app] in Hp. rewrite app_nil_r in Hp. exact Hp.
Qed.

(** X2.  Writing a number and reading it back.  [int] reads from the
    text [str] writes for a number that very number; and the dice text
    that [quick_roll] builds from a number of sides that is not negative
    is parsed by [roll_dice] as one die with that number of sides and no
    modifier. *)
Theorem quick_text_round_trip :
  (forall z, int (str z) = Some z) /\
  (forall sides, (0 <= sides)%Z ->
     parse_dice (u "1d" ++ str sides) =
     inr {| num_dice := 1; dice_type := sides; modifier := 0; modifier_text := None |}).
Proof. split; [exact int_str_round_trip|exact parse_one_die]. Qed.

Lemma match_quick (ws digits rest : pystr) :
  forallb isspace ws = true ->
  forallb isdecimal digits = true ->
  no_space (digits ++ rest) = true ->
  no_digit rest = true ->
  re_match QUICK_PATTERN (46%N :: 114%N :: ws ++ digits ++ rest) =
  Some match digits with [] => [] | _ :: _ => [(1, digits)] end.
Proof.
  intros Hws Hd Hsp Hrest.
  unfold re_match, QUICK_PATTERN. cbn -[firstn List.length star].
  erewrite star_greedy; [reflexivity|exact Hws| |].
  - destruct (digits ++ rest) as [|x r]; [exact I|].
    now apply negb_true_iff in Hsp.
  - destruct digits as [|y ds].
    + cbn [app]. destruct rest as [|x r]; [reflexivity|].
      cbn in Hrest. apply negb_true_iff in Hrest.
      cbn -[firstn List.length star]. now rewrite Hrest.
    + cbn [forallb] in Hd. apply andb_true_iff in Hd as [Hy Hds].
      cbn -[firstn List.length star]. rewrite Hy.
      erewrite star_greedy; [reflexivity|exact Hds|now apply no_digit_stop|].
      now rewrite firstn_cons_app_minus.
Qed.

Lemma roll_one_die (n : Z) (g : rng) :
  (1 <= n)%Z ->
  roll_dice (u "1d" ++ str n) g =
  (inr ((1 + Z.of_N (g O) mod n)%Z, str (1 + Z.of_N (g O) mod n)),
   fun k => g (S k)).
Proof.
  intros Hn. unfold roll_dice, bind at 1, lift.
  rewrite parse_one_die by lia.
  unfold roll_spec. cbn [num_dice dice_type modifier modifier_text].
  change (Z.to_nat 1) with 1%nat. cbn [comprehension].
  unfold bind, ret, randint.
  replace (n <? 1)%Z with false by (symmetry; apply Z.ltb_ge; lia).
  replace (n - 1 + 1)%Z with n by lia.
  cbn [map join sum fold_right Z.eqb].
  now rewrite !Z.add_0_r.
Qed.

Lemma roll_no_side (g : rng) :
  roll_dice (u "1d" ++ str 0) g = (inl (EmptyRange 1 0), g).
Proof. vm_compute. reflexivity. Qed.

Lemma quick_roll_body_sides (ws digits rest : pystr) :
  forallb isspace ws = true ->
  forallb isdecimal digits = true ->
  no_space (digits ++ rest) = true ->
  no_digit rest = true ->
  exists sides,
    (digits = [] -> sides = 100%Z) /\
    (digits <> [] -> int digits = Some sides) /\
    (0 <= sides)%Z /\
    forall g,
      quick_roll_body (46%N :: 114%N :: ws ++ digits ++ rest) g =
      bind (roll_dice (u "1d" ++ str sides))
           (fun x => let (total, roll_details) := x in
                     ret ((u "1d" ++ str sides) ++ u ": " ++ roll_details
                            ++ u "=" ++ str total)) g.
Proof.
  intros Hws Hd Hsp Hrest.
  destruct digits as [|y ds].
  - exists 100%Z. repeat split; [congruence|lia|].
    intros g. unfold quick_roll_body. rewrite match_quick by assumption.
    reflexivity.
  - destruct (int_of_decimal (y :: ds)) as (n & Hn & Hn0 & Hn'); [discriminate|assumption|].
    exists n. repeat split; [discriminate|now intros _|assumption|].
    intros g. unfold quick_roll_body. rewrite match_quick by assumption.
    cbn [group Nat.eqb truthy]. rewrite Hn'. reflexivity.
Qed.

(** X3.  [quick_roll] on a command that starts with ".r", optional
    whitespace and optional digits: one die is rolled, with as many sides
    as [int] reads from the digits (100 without digits); whatever follows
    is ignored.  With at least one side the line is "1d<sides>: <r>=<r>"
    for the draw [r], which lies between 1 and the sides, and one raw
    number is consumed; with 0 sides the error string of [randint] is
    returned and nothing is consumed. *)
Theorem quick_roll_one_die `{Interpreter} (ws digits rest : pystr) :
  forallb isspace ws = true ->
  forallb isdecimal digits = true ->
  no_space (digits ++ rest) = true ->
  no_digit rest = true ->
  exists sides,
    (digits = [] -> sides = 100%Z) /\
    (digits <> [] -> int digits = Some sides) /\
    (0 <= sides)%Z /\
    forall g,
      ((1 <= sides)%Z ->
       quick_roll (u ".r" ++ ws ++ digits ++ rest) g =
       (u "1d" ++ str sides ++ u ": " ++ str (1 + Z.of_N (g O) mod sides)
          ++ u "=" ++ str (1 + Z.of_N (g O) mod sides), fun k => g (S k)) /\
       (1 <= 1 + Z.of_N (g O) mod sides <= sides)%Z) /\
      (sides = 0%Z ->
       quick_roll (u ".r" ++ ws ++ digits ++ rest) g =
       (u "错误：" ++ str_exn (EmptyRange 1 0), g)).
Proof.
  intros Hws Hd Hsp Hrest.
  destruct (quick_roll_body_sides ws digits rest Hws Hd Hsp Hrest)
    as (sides & H1 & H2 & H0 & Hbody).
  exists sides. split; [exact H1|]. split; [exact H2|]. split; [exact H0|].
  intros g. change (u ".r" ++ ws ++ digits ++ rest)
    with (46%N :: 114%N :: ws ++ digits ++ rest).
  split.
  - intros Hs. split.
    + apply try_except_value. rewrite Hbody. unfold bind.
      rewrite roll_one_die by assumption. unfold ret.
      now rewrite <- app_assoc.
    + assert (0 <= Z.of_N (g O) mod sides < sides)%Z by (apply Z.mod_pos_bound; lia).
      lia.
  - intros Hz. apply try_except_error. rewrite Hbody, Hz. unfold bind.
    now rewrite roll_no_side.
Qed.

(** ** The texts the patterns match *)

Lemma longest_prefix (p : char -> bool) (s : pystr) :
  exists a r, s = a ++ r /\ forallb p a = true /\
              match r with [] => True | c :: _ => p c = false end.
Proof.
  induction s as [|c s (a & r & -> & Ha & Hr)].
  - now exists [], [].
  - destruct (p c) eqn:Hc.
    + exists (c :: a), r. cbn [forallb]. now rewrite Hc, Ha.
    + now exists [], (c :: a ++ r).
Qed.

Lemma stop_no_digit (r : pystr) :
  match r with [] => True | c :: _ => isdecimal c = false end -> no_digit r = true.
Proof. destruct r as [|c r]; cbn; [trivial|]. now intros ->. Qed.

(** A text that starts with digits, the letter d and a digit is of the
    form the grammar lemma reads. *)
Lemma dice_text_form (a s : pystr) (y : char) :
  forallb isdecimal a = true -> isdecimal y = true ->
  exists b m rest,
    a ++ 100%N :: y :: s = a ++ 100%N :: b ++ m ++ rest /\
    b <> [] /\ forallb isdecimal b = true /\ modifier_form m rest = true.
Proof.
  intros Ha Hy.
  destruct (longest_prefix isdecimal s) as (b & r & -> & Hb & Hr).
  assert (Hplain : no_modifier r = true ->
            exists b0 m rest,
              a ++ 100%N :: y :: b ++ r = a ++ 100%N :: b0 ++ m ++ rest /\
              b0 <> [] /\ forallb isdecimal b0 = true /\ modifier_form m rest = true).
  { intros Hn. exists (y :: b), [], r. cbn [app forallb]. rewrite Hy, Hb.
    repeat split; [discriminate|exact Hn]. }
  destruct r as [|x r]; [now apply Hplain|].
  destruct (no_modifier (x :: r)) eqn:Hn; [now apply Hplain|]. clear Hplain.
  cbn [no_modifier] in Hn. rewrite Hr in Hn. cbn [negb andb] in Hn.
  apply negb_false_iff, andb_true_iff in Hn as [Hsign Hz].
  destruct r as [|z r]; [discriminate|].
  destruct (longest_prefix isdecimal r) as (c & rest & -> & Hc & Hrest).
  exists (y :: b), (x :: z :: c), rest. cbn [app forallb modifier_form].
  rewrite Hy, Hb, Hsign, Hz, Hc, (stop_no_digit rest Hrest).
  repeat split. discriminate.
Qed.

(** The dice pattern matches exactly the texts that start with digits
    (possibly none), the letter d and a digit. *)
Lemma match_dice_form (s : pystr) (m : captures) :
  re_match DICE_PATTERN s = Some m ->
  exists a y s', s = a ++ 100%N :: y :: s' /\
                 forallb isdecimal a = true /\ isdecimal y = true.
Proof.
  unfold re_match, DICE_PATTERN. cbn -[star firstn List.length char_eqb].
  intros Hm.
  apply star_inv_split in Hm as (a & s1 & -> & Ha & Hm).
  destruct s1 as [|x s2]; [discriminate|].
  destruct (char_eqb 100%N x) eqn:Hx; [|discriminate].
  apply N.eqb_eq in Hx. subst x.
  destruct s2 as [|y s3]; [discriminate|].
  destruct (isdecimal y) eqn:Hy; [|discriminate].
  now exists a, y, s3.
Qed.

(** Every text the pattern matches is parsed, with a count and a number
    of sides that are not negative. *)
Lemma parse_dice_matched (s : pystr) (m : captures) :
  re_match DICE_PATTERN s = Some m ->
  exists d, parse_dice s = inr d /\ (0 <= num_dice d)%Z /\ (0 <= dice_type d)%Z.
Proof.
  intros Hm. destruct (match_dice_form s m Hm) as (a & y & s' & -> & Ha & Hy).
  destruct (dice_text_form a s' y Ha Hy) as (b & m' & rest & -> & Hne & Hb & Hf).
  destruct (dice_grammar_parse a b m' rest Ha Hne Hb Hf)
    as (count & sides & bonus & _ & _ & _ & _ & _ & Hc & Hs & Hp).
  eexists. split; [exact Hp|]. now split.
Qed.

Lemma parse_dice_cases (s : pystr) :
  (re_match DICE_PATTERN s = None /\
   parse_dice s = inl (ValueError (u "无效的表达式！"))) \/
  (exists d, parse_dice s = inr d /\ (0 <= num_dice d)%Z /\ (0 <= dice_type d)%Z).
Proof.
  destruct (re_match DICE_PATTERN s) as [m|] eqn:Hm.
  - right. now apply parse_dice_matched with m.
  - left. split; [reflexivity|]. unfold parse_dice. now rewrite Hm.
Qed.

(** ** Draws and totals *)

Lemma comprehension_draws (n : nat) (sides : Z) :
  (n <> O -> 1 <= sides)%Z ->
  forall g, exists rolls,
    comprehension n (randint 1 sides) g = (inr rolls, fun k => g (n + k)%nat) /\
    List.length rolls = n /\
    Forall (fun r => 1 <= r <= sides)%Z rolls.
Proof.
  induction n as [|n IH]; intros Hs g.
  - exists []. repeat split. constructor.
  - assert (H1 : (1 <= sides)%Z) by (apply Hs; discriminate).
    destruct (randint_in_range sides g H1) as (r & Hr & Hrange).
    destruct (IH (fun _ => H1) (fun k => g (S k))) as (rolls & Hc & Hl & Hall).
    exists (r :: rolls). cbn [comprehension]. unfold bind at 1.
    rewrite Hr. unfold bind at 1. rewrite Hc. unfold ret.
    repeat split; [simpl; now rewrite Hl | now constructor].
Qed.

Lemma sum_range (sides : Z) (rolls : list Z) :
  Forall (fun r => 1 <= r <= sides)%Z rolls ->
  (Z.of_nat (List.length rolls) <= sum rolls <= Z.of_nat (List.length rolls) * sides)%Z.
Proof.
  induction 1 as [|r rolls Hr _ IH]; [cbn; lia|].
  cbn [List.length]. unfold sum in *. cbn [fold_right]. nia.
Qed.

Lemma comprehension_no_side (n : nat) (sides : Z) (g : rng) :
  (sides < 1)%Z ->
  comprehension (S n) (randint 1 sides) g = (inl (EmptyRange 1 sides), g).
Proof.
  intros Hs. cbn [comprehension]. unfold bind, randint.
  now replace (sides <? 1)%Z with true by (symmetry; apply Z.ltb_lt; lia).
Qed.

Lemma roll_dice_failure_cases (dice_expression : pystr) (g g' : rng) (e : exn) :
  roll_dice dice_expression g = (inl e, g') ->
  g' = g /\
  ((e = ValueError (u "无效的表达式！") /\
    re_match DICE_PATTERN dice_expression = None) \/
   (e = EmptyRange 1 0 /\
    exists d, parse_dice dice_expression = inr d /\
              (1 <= num_dice d)%Z /\ dice_type d = 0%Z)).
Proof.
  unfold roll_dice, bind at 1, lift.
  destruct (parse_dice_cases dice_expression) as [[Hm Hp]|(d & Hp & Hn & Hs)];
    rewrite Hp.
  - intros [= <- <-]. split; [reflexivity|]. now left.
  - destruct (Z.to_nat (num_dice d)) as [|n] eqn:Hk.
    + unfold roll_spec. rewrite Hk. cbn. discriminate.
    + destruct (Z.eq_dec (dice_type d) 0) as [Hz|Hz].
      * unfold roll_spec. rewrite Hk, Hz. unfold bind at 1.
        rewrite comprehension_no_side by lia. intros [= <- <-]. split; [reflexivity|].
        right. split; [reflexivity|]. exists d.
        split; [reflexivity|]. split; [lia|exact Hz].
      * destruct (comprehension_draws (S n) (dice_type d)) with (g := g)
          as (rolls & Hc & _); [lia|].
        unfold roll_spec. rewrite Hk. unfold bind. rewrite Hc. discriminate.
Qed.

(** X5.  [roll_dice] fails in two ways only, and a failure consumes no
    random number: the text is not matched by the pattern (the
    ValueError of the program), or it asks for at least one die with 0
    sides (the ValueError of [randint]). *)
Theorem roll_dice_failures (dice_expression : pystr) (g g' : rng) (e : exn) :
  roll_dice dice_expression g = (inl e, g') ->
  g' = g /\
  ((e = ValueError (u "无效的表达式！") /\
    re_match DICE_PATTERN dice_expression = None) \/
   (e = EmptyRange 1 0 /\
    exists d, parse_dice dice_expression = inr d /\
              (1 <= num_dice d)%Z /\ dice_type d = 0%Z)).
Proof. apply roll_dice_failure_cases. Qed.

Lemma parse_dice_nonneg (dice_expression : pystr) (d : DiceSpec) :
  parse_dice dice_expression = inr d -> (0 <= num_dice d)%Z /\ (0 <= dice_type d)%Z.
Proof.
  intros Hp. destruct (parse_dice_cases dice_expression) as [[_ Hq]|(d' & Hq & Hn)].
  - congruence.
  - rewrite Hp in Hq. injection Hq as <-. exact Hn.
Qed.

(** X6.  The range of a roll: when the text is parsed and a die that is
    rolled has a side, [roll_dice] returns a total between count +
    modifier and count * sides + modifier, and has consumed exactly one
    raw number per die. *)
Theorem roll_dice_total_range (dice_expression : pystr) (d : DiceSpec) (g : rng) :
  parse_dice dice_expression = inr d ->
  (num_dice d = 0 \/ 1 <= dice_type d)%Z ->
  exists total roll_details g',
    roll_dice dice_expression g = (inr (total, roll_details), g') /\
    (num_dice d + modifier d <= total <= num_dice d * dice_type d + modifier d)%Z /\
    forall k, g' k = g (Z.to_nat (num_dice d) + k)%nat.
Proof.
  intros Hp Hs. destruct (parse_dice_nonneg _ _ Hp) as [Hn _].
  destruct (comprehension_draws (Z.to_nat (num_dice d)) (dice_type d)) with (g := g)
    as (rolls & Hc & Hl & Hall); [lia|].
  pose proof (sum_range _ _ Hall) as Hsum. rewrite Hl, Z2Nat.id in Hsum by assumption.
  eexists _, _, _. split; [|split].
  - unfold roll_dice, bind at 1, lift. rewrite Hp.
    unfold roll_spec, bind. rewrite Hc. unfold ret. reflexivity.
  - lia.
  - reflexivity.
Qed.

(** ** Failures of an evaluation *)

Lemma split_target_failures (text : pystr) (e : exn) :
  split_target text = inl e ->
  e = TooManyValues \/ exists t, e = InvalidLiteral t /\ int t = None.
Proof.
  unfold split_target.
  destruct (contains (u "/") text); [|discriminate].
  destruct (split 47%N text) as [|a [|b [|c r]]]; try (intros [= <-]; now left).
  unfold int_str. destruct (int a) eqn:Ha; cbn [rbind]; [discriminate|].
  intros [= <-]. right. now exists a.
Qed.

Lemma body_failures (flags_text : pystr) (k : option Z -> pystr -> Z -> pystr -> pystr)
      (g g' : rng) (e : exn) :
  bind (lift (split_target flags_text))
       (fun x => let (target, dice_expression) := x in
                 bind (roll_dice (strip dice_expression))
                      (fun y => let (total, roll_details) := y in
                                ret (k target dice_expression total roll_details)))
       g = (inl e, g') ->
  g' = g /\
  (e = ValueError (u "无效的表达式！") \/ e = EmptyRange 1 0 \/
   e = TooManyValues \/ exists t, e = InvalidLiteral t /\ int t = None).
Proof.
  unfold bind at 1, lift.
  destruct (split_target flags_text) as [e0|[target dice_expression]] eqn:Hs.
  - intros [= <- <-]. split; [reflexivity|].
    destruct (split_target_failures _ _ Hs) as [->|Ht]; auto.
  - unfold bind.
    destruct (roll_dice (strip dice_expression) g) as [[e1|[total details]] g1] eqn:Hr.
    + intros [= <- <-].
      destruct (roll_dice_failure_cases _ _ _ _ Hr) as [-> [[-> _]|[-> _]]]; auto.
    + discriminate.
Qed.

(** X7.  The try block of [evaluate_expression] raises four exceptions
    only, all of them ValueError: the one of the program for a dice text
    the pattern does not match, the one of [randint] for a die without
    sides, the one of the unpacking for two separators or more, and the
    one of [int] for a target that is no number.  A failed evaluation has
    consumed no random number, and the entry point returns the error
    string for it. *)
Theorem evaluate_failures `{Interpreter} (E : engine) :
  In E engines ->
  forall expression g g' e,
    body E expression g = (inl e, g') ->
    g' = g /\
    (e = ValueError (u "无效的表达式！") \/ e = EmptyRange 1 0 \/
     e = TooManyValues \/ exists t, e = InvalidLiteral t /\ int t = None) /\
    evaluate E expression g = (u "错误：" ++ str_exn e, g).
Proof.
  intros HE expression g g' e Hb.
  assert (Hcases : g' = g /\
    (e = ValueError (u "无效的表达式！") \/ e = EmptyRange 1 0 \/
     e = TooManyValues \/ exists t, e = InvalidLiteral t /\ int t = None)).
  { destruct HE as [<-|[<-|[]]]; cbn [body Dicer_py dicer_py] in Hb.
    - unfold Dicer.evaluate_body in Hb.
      destruct (Dicer.strip_flags expression) as [[gamble lvl] text].
      exact (body_failures text (Dicer.outcome gamble lvl) g g' e Hb).
    - unfold dicer.evaluate_body in Hb.
      destruct (dicer.strip_flags expression) as [[options lvl] text].
      exact (body_failures text (dicer.outcome options lvl) g g' e Hb). }
  destruct Hcases as [-> Hcases]. split; [reflexivity|]. split; [exact Hcases|].
  destruct HE as [<-|[<-|[]]]; cbn [body evaluate Dicer_py dicer_py] in *;
    now apply try_except_error.
Qed.

Lemma startswith_inv (p s : pystr) :
  startswith p s = true -> exists r, s = p ++ r.
Proof.
  revert s. induction p as [|a p IH]; intros s; [now exists s|].
  destruct s as [|b s]; cbn [startswith]; [discriminate|].
  intros [Hab Hp]%andb_true_iff. apply N.eqb_eq in Hab as ->.
  destruct (IH s Hp) as (r & ->). now exists r.
Qed.

(** Every command that starts with ".r" reads as whitespace, digits and
    a rest that starts with neither. *)
Lemma quick_command_form (command : pystr) :
  startswith (u ".r") command = true ->
  exists ws digits rest,
    command = u ".r" ++ ws ++ digits ++ rest /\
    forallb isspace ws = true /\ forallb isdecimal digits = true /\
    no_space (digits ++ rest) = true /\ no_digit rest = true.
Proof.
  intros (s & ->)%startswith_inv.
  destruct (longest_prefix isspace s) as (ws & r1 & -> & Hws & Hr1).
  destruct (longest_prefix isdecimal r1) as (digits & rest & -> & Hd & Hrest).
  exists ws, digits, rest. repeat split; try assumption.
  - destruct (digits ++ rest) as [|x r]; [reflexivity|]. cbn. now rewrite Hr1.
  - now apply stop_no_digit.
Qed.

(** X8.  The try block of [quick_roll] fails in two ways only: the
    command does not start with ".r" (the ValueError of the program), or
    its digits say 0 sides (the ValueError of [randint]).  In both cases
    no random number is consumed.  In particular the digits are always
    read, and the dice text built from them is always parsed. *)
Theorem quick_roll_failures (command : pystr) (g g' : rng) (e : exn) :
  quick_roll_body command g = (inl e, g') ->
  g' = g /\
  ((e = ValueError (u "无效的表达式！") /\ startswith (u ".r") command = false) \/
   (e = EmptyRange 1 0 /\ startswith (u ".r") command = true)).
Proof.
  destruct (startswith (u ".r") command) eqn:Hp.
  - destruct (quick_command_form command Hp)
      as (ws & digits & rest & -> & Hws & Hd & Hsp & Hrest).
    destruct (quick_roll_body_sides ws digits rest Hws Hd Hsp Hrest)
      as (sides & _ & _ & H0 & Hbody).
    change (u ".r" ++ ws ++ digits ++ rest)
      with (46%N :: 114%N :: ws ++ digits ++ rest).
    rewrite Hbody. unfold bind.
    destruct (Z.eq_dec sides 0) as [->|Hz].
    + rewrite roll_no_side. intros [= <- <-]. split; [reflexivity|]. now right.
    + rewrite roll_one_die by lia. discriminate.
  - unfold quick_roll_body. rewrite quick_pattern_prefix by assumption.
    intros [= <- <-]. split; [reflexivity|]. now left.
Qed.

(** ** The commands [repeat_roll] accepts *)

Lemma dot_no_newline (e : pystr) :
  forallb (test c_dot) e = true -> ~ In 10%N e.
Proof.
  intros Hall Hin. rewrite forallb_forall in Hall.
  specialize (Hall _ Hin). discriminate Hall.
Qed.

Lemma m_pattern_shape (command : pystr) (m : captures) :
  re_match M_PATTERN command = Some m ->
  exists digits expression,
    m = [(2, expression); (1, digits)] /\
    digits <> [] /\ forallb isdecimal digits = true /\
    expression <> [] /\ ~ In 10%N expression.
Proof.
  unfold re_match, M_PATTERN. cbn -[star firstn List.length char_eqb].
  intros Hm.
  destruct command as [|x1 [|x2 [|x3 s]]]; try discriminate;
    try (destruct (char_eqb 46%N x1); discriminate).
  1:{ destruct (char_eqb 46%N x1); [|discriminate].
      destruct (char_eqb 109%N x2); discriminate. }
  destruct (char_eqb 46%N x1); [|discriminate].
  destruct (char_eqb 109%N x2); [|discriminate].
  destruct (isspace x3); [|discriminate].
  apply star_inv_split in Hm as (a & s1 & -> & _ & Hm).
  destruct s1 as [|x4 s2]; [discriminate|].
  destruct (char_eqb 45%N x4); [|discriminate].
  destruct s2 as [|y s3]; [discriminate|].
  destruct (isdecimal y) eqn:Hy; [|discriminate].
  apply star_inv_split in Hm as (b & s4 & -> & Hb & Hm).
  destruct s4 as [|w s5]; [discriminate|].
  destruct (isspace w); [|discriminate].
  apply star_inv_split in Hm as (c & s6 & -> & _ & Hm).
  destruct s6 as [|z s7]; [discriminate|].
  destruct (negb (char_eqb z 10%N)) eqn:Hz; [|discriminate].
  apply star_inv_split in Hm as (d & s8 & -> & Hd & Hm).
  rewrite firstn_cons_app_minus in Hm.
  change (y :: b ++ w :: c ++ z :: d ++ s8) with ((y :: b) ++ w :: c ++ z :: d ++ s8) in Hm.
  rewrite firstn_minus in Hm.
  injection Hm as <-. change (test c_digit) with isdecimal in Hb.
  exists (y :: b), (z :: d). split; [reflexivity|].
  split; [discriminate|]. split; [cbn [forallb]; now rewrite Hy, Hb|].
  split; [discriminate|].
  apply dot_no_newline. cbn [forallb]. cbn [test]. now rewrite Hz, Hd.
Qed.

Lemma dt_pattern_shape (command : pystr) (m : captures) :
  re_match DT_PATTERN command = Some m ->
  exists kind expression,
    m = [(2, expression); (1, [kind])] /\
    (kind = 100%N \/ kind = 116%N) /\
    expression <> [] /\ ~ In 10%N expression.
Proof.
  unfold re_match, DT_PATTERN. cbn -[star firstn List.length char_eqb].
  intros Hm.
  destruct command as [|x1 [|x2 s]]; try discriminate.
  1:{ destruct (char_eqb 46%N x1); discriminate. }
  destruct (char_eqb 46%N x1); [|discriminate].
  match type of Hm with
  | context [if char_eqb 100 x2 then ?b else None] => set (inner := b) in Hm
  end.
  assert (Hkind : (x2 = 100%N \/ x2 = 116%N) /\ inner = Some m).
  { destruct (char_eqb 100%N x2) eqn:H1; destruct (char_eqb 116%N x2) eqn:H2;
      destruct inner as [r|]; try discriminate Hm;
      try apply N.eqb_eq in H1; try apply N.eqb_eq in H2; auto. }
  clear Hm. destruct Hkind as [Hkind Hm]. subst inner.
  destruct s as [|x3 s]; [discriminate|].
  destruct (isspace x3); [|discriminate].
  apply star_inv_split in Hm as (a & s1 & -> & _ & Hm).
  destruct s1 as [|z s2]; [discriminate|].
  destruct (negb (char_eqb z 10%N)) eqn:Hz; [|discriminate].
  apply star_inv_split in Hm as (d & s3 & -> & Hd & Hm).
  rewrite firstn_cons_app_minus, firstn_cons_minus in Hm.
  injection Hm as <-.
  exists x2, (z :: d). split; [reflexivity|]. split; [exact Hkind|].
  split; [discriminate|].
  apply dot_no_newline. cbn [forallb]. cbn [test]. now rewrite Hz, Hd.
Qed.

Lemma repeat_directive_cases (command : pystr) :
  (re_match M_PATTERN command = None /\ re_match DT_PATTERN command = None /\
   repeat_directive command = inl (ValueError (u "无效的重复检定指令！"))) \/
  (exists times expression,
      repeat_directive command = inr (times, expression) /\
      (0 <= times)%Z /\
      (re_match M_PATTERN command = None -> times = 2%Z \/ times = 3%Z) /\
      expression <> [] /\ ~ In 10%N expression).
Proof.
  unfold repeat_directive.
  destruct (re_match M_PATTERN command) as [m|] eqn:Hm.
  - right. apply m_pattern_shape in Hm as (digits & expression & -> & Hne & Hd & He & Hnl).
    destruct (int_of_decimal digits Hne Hd) as (times & _ & H0 & Ht).
    exists times, expression. cbn [group Nat.eqb]. rewrite Ht. cbn [rbind text_of].
    repeat split; try assumption. discriminate.
  - destruct (re_match DT_PATTERN command) as [m|] eqn:Hd.
    + right. apply dt_pattern_shape in Hd as (kind & expression & -> & Hk & He & Hnl).
      cbn [group Nat.eqb text_of rbind].
      eexists _, expression. split; [reflexivity|].
      split; [destruct (group_is _ _); lia|].
      split; [intros _; destruct (group_is _ _); auto|]. now split.
    + left. now repeat split.
Qed.

(** ** Reading the flags *)

Lemma contains_cons (p : pystr) (c : char) (s : pystr) :
  contains p s = true -> contains p (c :: s) = true.
Proof. intros Hs. cbn [contains]. rewrite Hs. apply orb_true_r. Qed.

Lemma neq_eqb (a b : char) : a <> b -> char_eqb a b = false.
Proof. intros Hab. now apply N.eqb_neq. Qed.

(** Removing the occurrences of one flag keeps an occurrence of another. *)
Lemma keep_flag2 (z w : char) :
  z <> w -> w <> 45%N -> z <> 45%N ->
  forall n s, List.length s <= n ->
    contains [45%N; w] s = true ->
    contains [45%N; w] (replace [45%N; z] [] s) = true.
Proof.
  intros Hzw Hw Hz. unfold replace.
  induction n as [|n IH]; intros s Hlen Hc.
  - destruct s; [discriminate Hc|cbn in Hlen; lia].
  - destruct s as [|c s']; [discriminate Hc|]. cbn [List.length] in Hlen.
    cbn [replace_from].
    destruct (startswith [45%N; z] (c :: s')) eqn:Hocc.
    + apply startswith_inv in Hocc as (r & Hr). cbn [app] in Hr.
      injection Hr as -> ->. cbn [app List.length Nat.sub replace_from].
      apply IH; [cbn [List.length] in Hlen; lia|].
      cbn [contains startswith] in Hc.
      rewrite (neq_eqb w z), (neq_eqb 45%N z) in Hc by congruence.
      rewrite andb_false_r in Hc. exact Hc.
    + cbn [app]. cbn [contains] in Hc. apply orb_true_iff in Hc as [Hc|Hc].
      * apply startswith_inv in Hc as (r & Hr). cbn [app] in Hr.
        injection Hr as -> ->. cbn [replace_from startswith].
        rewrite (neq_eqb 45%N w) by congruence. cbn [andb].
        cbn [contains startswith]. unfold char_eqb. now rewrite !N.eqb_refl.
      * apply contains_cons. apply IH; [lia|exact Hc].
Qed.

Lemma keep_flag3 (z w : char) :
  z <> w -> w <> 32%N -> z <> 45%N ->
  forall n s, List.length s <= n ->
    contains [45%N; w] s = true ->
    contains [45%N; w] (replace [32%N; 45%N; z] [] s) = true.
Proof.
  intros Hzw Hw Hz. unfold replace.
  induction n as [|n IH]; intros s Hlen Hc.
  - destruct s; [discriminate Hc|cbn in Hlen; lia].
  - destruct s as [|c s']; [discriminate Hc|]. cbn [List.length] in Hlen.
    cbn [replace_from].
    destruct (startswith [32%N; 45%N; z] (c :: s')) eqn:Hocc.
    + apply startswith_inv in Hocc as (r & Hr). cbn [app] in Hr.
      injection Hr as -> ->. cbn [app List.length Nat.sub replace_from].
      apply IH; [cbn [List.length] in Hlen; lia|].
      cbn [contains startswith] in Hc.
      rewrite (neq_eqb w z), (neq_eqb 45%N z) in Hc by congruence.
      change (char_eqb 45 32) with false in Hc.
      rewrite andb_false_r in Hc. exact Hc.
    + cbn [app]. cbn [contains] in Hc. apply orb_true_iff in Hc as [Hc|Hc].
      * apply startswith_inv in Hc as (r & Hr). cbn [app] in Hr.
        injection Hr as -> ->. cbn [replace_from startswith].
        rewrite (neq_eqb 32%N w) by congruence. cbn [andb].
        cbn [contains startswith]. unfold char_eqb. now rewrite !N.eqb_refl.
      * apply contains_cons. apply IH; [lia|exact Hc].
Qed.

Lemma lstrip_decompose (s : pystr) :
  exists w, s = w ++ lstrip s /\ forallb isspace w = true.
Proof.
  induction s as [|c s (w & Hw & Hall)]; [now exists []|].
  cbn [lstrip]. destruct (isspace c) eqn:Hc.
  - exists (c :: w). cbn [app forallb]. rewrite Hc, Hall. now rewrite <- Hw.
  - now exists [].
Qed.

Lemma rstrip_decompose (s : pystr) :
  exists w, s = rstrip s ++ w /\ forallb isspace w = true.
Proof.
  destruct (lstrip_decompose (rev s)) as (w & Hw & Hall).
  exists (rev w). split.
  - unfold rstrip. rewrite <- rev_app_distr, <- Hw. now rewrite rev_involutive.
  - apply forallb_forall. intros c Hc%in_rev.
    rewrite forallb_forall in Hall. now apply Hall.
Qed.

Lemma contains_spaces (x y : char) (w : pystr) :
  isspace x = false -> forallb isspace w = true -> contains [x; y] w = false.
Proof.
  intros Hx. induction w as [|c w IH]; [reflexivity|].
  cbn [forallb]. intros [Hc Hw]%andb_true_iff.
  cbn [contains startswith]. rewrite (IH Hw), orb_false_r.
  rewrite neq_eqb; [reflexivity|]. intros ->. congruence.
Qed.

Lemma contains_lstrip (x y : char) (s : pystr) :
  isspace x = false -> contains [x; y] (lstrip s) = contains [x; y] s.
Proof.
  intros Hx. induction s as [|c s IH]; [reflexivity|].
  cbn [lstrip]. destruct (isspace c) eqn:Hc; [|reflexivity].
  rewrite IH. cbn [contains startswith].
  rewrite neq_eqb; [reflexivity|]. intros ->. congruence.
Qed.

Lemma contains_rstrip (x y : char) (s : pystr) :
  isspace x = false -> isspace y = false ->
  contains [x; y] (rstrip s) = contains [x; y] s.
Proof.
  intros Hx Hy. destruct (rstrip_decompose s) as (w & Hs & Hw).
  rewrite Hs at 2. rewrite contains2_app.
  - now rewrite (contains_spaces x y w Hx Hw), orb_false_r.
  - destruct w as [|d w]; [exact I|]. cbn [forallb] in Hw.
    apply andb_true_iff in Hw as [Hd _]. intros ->. congruence.
Qed.

Lemma contains_strip (x y : char) (s : pystr) :
  isspace x = false -> isspace y = false ->
  contains [x; y] (strip s) = contains [x; y] s.
Proof.
  intros Hx Hy. unfold strip.
  now rewrite contains_rstrip, contains_lstrip.
Qed.

Lemma Dicer_flags_read (expression : pystr) :
  fst (fst (Dicer.strip_flags expression)) = contains (u "-g") expression /\
  (contains (u "-h") expression = true ->
   snd (fst (Dicer.strip_flags expression)) = lvl_h).
Proof.
  unfold Dicer.strip_flags. flag_literals. split.
  - destruct (contains [45; 103]%N expression);
      repeat match goal with
             | |- context [if contains ?p ?s then _ else _] => destruct (contains p s)
             end; reflexivity.
  - intros Hh.
    assert (Hk : contains [45; 104]%N
                   (if contains [45; 103]%N expression
                    then replace [32; 45; 103]%N [] expression
                    else expression) = true).
    { destruct (contains [45; 103]%N expression); [|exact Hh].
      apply (keep_flag3 103%N 104%N) with (n := List.length expression);
        (discriminate || lia || assumption). }
    now rewrite Hk.
Qed.

Lemma dicer_flags_read (expression : pystr) :
  fst (fst (dicer_flags expression)) = contains (u "-g") expression /\
  (contains (u "-h") expression = true ->
   snd (fst (dicer_flags expression)) = lvl_h).
Proof.
  unfold dicer_flags, dicer.strip_flags.
  cbn [map fst dicer.initial_options fold_left].
  unfold dicer.option_step. flag_literals. split.
  - destruct (contains [45; 103]%N expression);
      repeat match goal with
             | |- context [if contains ?p ?s then _ else _] => destruct (contains p s)
             end; reflexivity.
  - intros Hh. destruct (contains [45; 103]%N expression).
    + assert (Hk : contains [45; 104]%N (strip (replace [45; 103]%N [] expression)) = true).
      { rewrite contains_strip by reflexivity.
        apply (keep_flag2 103%N 104%N) with (n := List.length expression);
          (discriminate || lia || assumption). }
      rewrite Hk.
      repeat match goal with
             | |- context [if contains ?p ?s then _ else _] => destruct (contains p s)
             end; reflexivity.
    + rewrite Hh.
      repeat match goal with
             | |- context [if contains ?p ?s then _ else _] => destruct (contains p s)
             end; reflexivity.
Qed.

(** X10.  How the flags are read, in both files: the gamble flag is set
    exactly when the input contains "-g", and an input that contains
    "-h" is checked at the hard level, whether or not it also contains
    "-e" or "-g". *)
Theorem hard_takes_precedence `{Interpreter} (E : engine) :
  In E engines ->
  forall expression,
    fst (fst (flags E expression)) = contains (u "-g") expression /\
    (contains (u "-h") expression = true ->
     snd (fst (flags E expression)) = lvl_h).
Proof.
  intros [<-|[<-|[]]] expression; cbn [flags Dicer_py dicer_py].
  - apply Dicer_flags_read.
  - apply dicer_flags_read.
Qed.

(** ** Inputs that start with a stray character *)

Lemma stray_inv (c : char) :
  stray c = true ->
  isspace c = false /\ isdecimal c = false /\
  c <> 100%N /\ c <> 43%N /\ c <> 45%N /\ c <> 47%N.
Proof.
  unfold stray. change (u "d+-/") with [100; 43; 45; 47]%N. cbn [existsb].
  rewrite !andb_true_iff, !negb_true_iff, !orb_false_iff. unfold char_eqb.
  rewrite !N.eqb_neq. tauto.
Qed.

Lemma lstrip_last (x : pystr) (c : char) :
  isspace c = false -> exists y, lstrip (x ++ [c]) = y ++ [c].
Proof.
  intros Hc. induction x as [|a x IH]; cbn [app lstrip].
  - rewrite Hc. now exists [].
  - destruct (isspace a); [exact IH|]. now exists (a :: x).
Qed.

Lemma strip_head (c : char) (s : pystr) :
  isspace c = false -> exists t, strip (c :: s) = c :: t.
Proof.
  intros Hc. unfold strip, rstrip. cbn [lstrip]. rewrite Hc. cbn [rev].
  destruct (lstrip_last (rev s) c Hc) as (y & ->).
  exists (rev y). now rewrite rev_app_distr.
Qed.

Lemma replace_head (x c : char) (old s : pystr) :
  x <> c -> exists t, replace (x :: old) [] (c :: s) = c :: t.
Proof.
  intros Hx. unfold replace. cbn [replace_from startswith].
  rewrite (neq_eqb x c Hx). cbn [andb]. eauto.
Qed.

Lemma Dicer_flags_head (c : char) (s : pystr) :
  stray c = true ->
  exists gamble lvl t, Dicer.strip_flags (c :: s) = (gamble, lvl, c :: t).
Proof.
  intros (Hsp & _)%stray_inv.
  assert (Hc : c <> 32%N) by (intros ->; discriminate Hsp).
  unfold Dicer.strip_flags. flag_literals.
  destruct (contains [45; 103]%N (c :: s)).
  - destruct (replace_head 32%N c [45; 103]%N s) as (t & ->); [congruence|].
    destruct (contains [45; 104]%N (c :: t)).
    + destruct (replace_head 32%N c [45; 104]%N t) as (t' & ->); [congruence|]. eauto.
    + destruct (contains [45; 101]%N (c :: t)); [|eauto].
      destruct (replace_head 32%N c [45; 101]%N t) as (t' & ->); [congruence|]. eauto.
  - destruct (contains [45; 104]%N (c :: s)).
    + destruct (replace_head 32%N c [45; 104]%N s) as (t' & ->); [congruence|]. eauto.
    + destruct (contains [45; 101]%N (c :: s)); [|eauto].
      destruct (replace_head 32%N c [45; 101]%N s) as (t' & ->); [congruence|]. eauto.
Qed.

Lemma option_step_head (c : char) (z : char) (options : dicer.options_dict) (s : pystr) :
  isspace c = false -> c <> 45%N ->
  exists options' t, dicer.option_step (options, c :: s) [45%N; z] = (options', c :: t).
Proof.
  intros Hsp Hc. unfold dicer.option_step.
  destruct (contains [45%N; z] (c :: s)); [|eauto].
  change (u "") with (@nil N).
  destruct (replace_head 45%N c [z] s) as (t & ->); [congruence|].
  destruct (strip_head c t Hsp) as (t' & ->). eauto.
Qed.

Lemma dicer_flags_head (c : char) (s : pystr) :
  stray c = true ->
  exists options lvl t, dicer.strip_flags (c :: s) = (options, lvl, c :: t).
Proof.
  intros (Hsp & _ & _ & _ & Hm & _)%stray_inv.
  unfold dicer.strip_flags. cbn [map fst dicer.initial_options fold_left].
  flag_literals.
  destruct (option_step_head c 103%N dicer.initial_options s Hsp Hm)
    as (o1 & t1 & ->).
  destruct (option_step_head c 104%N o1 t1 Hsp Hm) as (o2 & t2 & ->).
  destruct (option_step_head c 101%N o2 t2 Hsp Hm) as (o3 & t3 & ->).
  eauto.
Qed.

Lemma split_from_head (sep : char) (s cur : pystr) :
  exists x parts, split_from sep cur s = (rev cur ++ x) :: parts.
Proof.
  revert cur. induction s as [|c s IH]; intros cur; cbn [split_from].
  - exists [], []. now rewrite app_nil_r.
  - destruct (char_eqb c sep).
    + exists [], (split_from sep [] s). now rewrite app_nil_r.
    + destruct (IH (c :: cur)) as (x & parts & ->).
      exists (c :: x), parts. cbn [rev]. now rewrite <- app_assoc.
Qed.

Lemma int_stray (c : char) (s : pystr) : stray c = true -> int (c :: s) = None.
Proof.
  intros (Hsp & Hd & _ & Hp & Hm & _)%stray_inv.
  assert (Hi : int_space c = false).
  { destruct (int_space c) eqn:Hi; [|reflexivity].
    apply int_space_isspace in Hi. congruence. }
  unfold int. destruct (int_trim_head c s Hi) as (t & ->).
  rewrite (neq_eqb c 45%N Hm), (neq_eqb c 43%N Hp).
  cbn [int_digits]. unfold isdecimal in Hd.
  destruct (decimal c); [discriminate|].
  now rewrite andb_false_r.
Qed.

Lemma split_target_stray (c : char) (s : pystr) :
  stray c = true ->
  split_target (c :: s) = inr (None, c :: s) \/ exists e, split_target (c :: s) = inl e.
Proof.
  intros Hc. pose proof (stray_inv c Hc) as (_ & _ & _ & _ & _ & Hsl).
  unfold split_target.
  destruct (contains (u "/") (c :: s)); [right|now left].
  unfold split. cbn [split_from]. rewrite (neq_eqb c 47%N Hsl).
  destruct (split_from_head 47%N s [c]) as (x & parts & ->). cbn [rev app].
  destruct parts as [|b [|b' parts]]; eauto.
  unfold int_str. rewrite (int_stray c x Hc). cbn [rbind]. eauto.
Qed.

Lemma parse_dice_stray (c : char) (s : pystr) :
  stray c = true -> parse_dice (c :: s) = inl (ValueError (u "无效的表达式！")).
Proof.
  intros (_ & Hd & H100 & _)%stray_inv.
  unfold parse_dice.
  replace (re_match DICE_PATTERN (c :: s)) with (@None captures); [reflexivity|].
  unfold re_match, DICE_PATTERN. cbn -[star firstn List.length char_eqb].
  cbn [star test]. rewrite Hd.
  rewrite neq_eqb; [reflexivity|congruence].
Qed.

Lemma stray_body (c : char) (t : pystr)
      (k : option Z -> pystr -> Z -> pystr -> pystr) (g : rng) :
  stray c = true ->
  exists e,
    bind (lift (split_target (c :: t)))
       (fun x => let (target, dice_expression) := x in
                 bind (roll_dice (strip dice_expression))
                      (fun y => let (total, roll_details) := y in
                                ret (k target dice_expression total roll_details)))
       g = (inl e, g).
Proof.
  intros Hc. unfold bind at 1, lift.
  destruct (split_target_stray c t Hc) as [-> |(e & ->)]; [|eauto].
  pose proof (stray_inv c Hc) as (Hsp & _).
  destruct (strip_head c t Hsp) as (t' & ->).
  unfold bind, roll_dice, bind, lift. rewrite parse_dice_stray by assumption. eauto.
Qed.

Lemma stray_evaluate `{Interpreter} (E : engine) :
  In E engines ->
  forall c s g,
    stray c = true ->
    exists e,
      body E (c :: s) g = (inl e, g) /\
      evaluate E (c :: s) g = (u "错误：" ++ str_exn e, g) /\
      startswith (u "错误：") (fst (evaluate E (c :: s) g)) = true.
Proof.
  intros HE c s g Hc.
  assert (Hb : exists e, body E (c :: s) g = (inl e, g)).
  { destruct HE as [<-|[<-|[]]]; cbn [body Dicer_py dicer_py].
    - unfold Dicer.evaluate_body.
      destruct (Dicer_flags_head c s Hc) as (gamble & lvl & t & ->).
      apply stray_body with (k := Dicer.outcome gamble lvl). exact Hc.
    - unfold dicer.evaluate_body.
      destruct (dicer_flags_head c s Hc) as (options & lvl & t & ->).
      apply stray_body with (k := dicer.outcome options lvl). exact Hc. }
  destruct Hb as (e & Hb). exists e. split; [exact Hb|].
  assert (He : evaluate E (c :: s) g = (u "错误：" ++ str_exn e, g)).
  { destruct HE as [<-|[<-|[]]]; cbn [body evaluate Dicer_py dicer_py] in *;
      now apply try_except_error. }
  split; [exact He|]. rewrite He. cbn [fst]. apply startswith_app.
Qed.

(** X11.  An input whose first character is neither whitespace, a digit,
    the letter d, a sign nor the separator is never evaluated: the try
    block of [evaluate_expression] raises, both files return an error
    string, and no random number is consumed.  Inputs that start with a
    dot, such as an unknown command, are of this kind. *)
Theorem stray_input_rejected `{Interpreter} (E : engine) :
  In E engines ->
  forall c s g,
    stray c = true ->
    exists e,
      body E (c :: s) g = (inl e, g) /\
      evaluate E (c :: s) g = (u "错误：" ++ str_exn e, g) /\
      startswith (u "错误：") (fst (evaluate E (c :: s) g)) = true.
Proof. exact (stray_evaluate E). Qed.

(** ** The levels of the check *)

(** X12.  The three levels of [check_success].  The check passes for a
    total exactly when it passes for every smaller total.  For a target
    that is not negative the thresholds are ordered extreme <= hard <=
    normal, so a check passed at a harder level is passed at the easier
    ones; floor division turns the order around for a negative target. *)
Theorem difficulty_order (target total : Z) :
  (forall lvl total', (total' <= total)%Z ->
      fst (check_success target total lvl) = true ->
      fst (check_success target total' lvl) = true) /\
  ((0 <= target)%Z ->
   (0 <= snd (check_success target total lvl_e)
      <= snd (check_success target total lvl_h))%Z /\
   (snd (check_success target total lvl_h)
      <= snd (check_success target total lvl_n))%Z /\
   (fst (check_success target total lvl_e) = true ->
    fst (check_success target total lvl_h) = true) /\
   (fst (check_success target total lvl_h) = true ->
    fst (check_success target total lvl_n) = true)) /\
  ((target < 0)%Z ->
   (snd (check_success target total lvl_n)
      <= snd (check_success target total lvl_h)
      <= snd (check_success target total lvl_e))%Z /\
   (snd (check_success target total lvl_e) < 0)%Z /\
   (fst (check_success target total lvl_n) = true ->
    fst (check_success target total lvl_h) = true) /\
   (fst (check_success target total lvl_h) = true ->
    fst (check_success target total lvl_e) = true)).
Proof.
  unfold check_success; cbn [fst snd].
  pose proof (Z.div_mod target 2 ltac:(lia)) as H2.
  pose proof (Z.mod_pos_bound target 2 ltac:(lia)) as B2.
  pose proof (Z.div_mod target 5 ltac:(lia)) as H5.
  pose proof (Z.mod_pos_bound target 5 ltac:(lia)) as B5.
  split; [|split].
  - intros lvl total' Hle. rewrite !Z.leb_le. lia.
  - intros Ht. rewrite !Z.leb_le. repeat split; lia.
  - intros Ht. rewrite !Z.leb_le. repeat split; lia.
Qed.

(** ** The main loop *)

(** X13.  The main loop on a line that starts with a dot and does not
    leave the loop: unless the line starts with ".r", or with ".d", ".t"
    or ".m" followed by a whitespace character, it is answered with an
    error string and no random number is consumed. *)
Theorem dot_line_rejected `{Interpreter} `{Unicode} (E : engine) :
  In E engines ->
  forall line g out g',
    startswith (u ".") line = true ->
    startswith (u ".r") line = false ->
    repeat_prefix line = false ->
    main_turn E line g = Some (out, g') ->
    startswith (u "错误：") out = true /\ g' = g.
Proof.
  intros HE line g out g' Hdot Hr Hp. unfold main_turn.
  destruct (dicer.pystr_eqb _ _); [discriminate|]. rewrite Hr.
  destruct (existsb _ _).
  - destruct (repeat_patterns_prefix line Hp) as [Hm Hd].
    assert (Hrep : exists msg, repeat E line g = (u "错误：" ++ msg, g)).
    { eexists. destruct HE as [<-|[<-|[]]]; cbn [repeat Dicer_py dicer_py];
        apply try_except_raise; unfold repeat_roll_body, bind, lift, repeat_directive;
        now rewrite Hm, Hd. }
    destruct Hrep as (msg & ->). generalize (u "错误：") as head.
    intros head [= <- <-]. split; [apply startswith_app|reflexivity].
  - apply startswith_inv in Hdot as (rest & ->). change (u "." ++ rest) with (46%N :: rest).
    destruct (stray_evaluate E HE 46%N rest g eq_refl) as (e & _ & He & Hs).
    rewrite He in Hs. cbn [fst] in Hs. rewrite He. revert Hs.
    generalize (u "错误：" ++ str_exn e) as text.
    intros text Hs [= <- <-]. now split.
Qed.

(** ** Inputs written as documented *)















(** X15.  The two files differ in how they read the flags and in
    nothing else: on an input from which both read the same gamble flag,
    the same level and the same remaining text, they return the same
    string and leave the random source in the same state. *)
Theorem same_flags_same_line `{Interpreter} (expression : pystr) :
  Dicer.strip_flags expression = dicer_flags expression ->
  forall g, Dicer.evaluate_expression expression g =
            dicer.evaluate_expression expression g.
Proof.
  intros Hsame g.
  destruct (Dicer.strip_flags expression) as [[gamble lvl] text] eqn:HD.
  exact (evaluate_same_flags expression gamble lvl text HD (eq_sym Hsame) g).
Qed.

(** ** Blank input *)

Lemma lstrip_spaces (w : pystr) : forallb isspace w = true -> lstrip w = [].
Proof.
  induction w as [|c w IH]; [reflexivity|]. cbn [forallb lstrip].
  intros [Hc Hw]%andb_true_iff. rewrite Hc. now apply IH.
Qed.

Lemma strip_spaces (w : pystr) : forallb isspace w = true -> strip w = [].
Proof. intros Hw. unfold strip, rstrip. now rewrite (lstrip_spaces w Hw). Qed.

Lemma spaces_not_in (z : char) (w : pystr) :
  isspace z = false -> forallb isspace w = true -> ~ In z w.
Proof.
  intros Hz Hw Hin. rewrite forallb_forall in Hw. specialize (Hw z Hin). congruence.
Qed.

Lemma blank_evaluate_body (w : pystr) (k : option Z -> pystr -> Z -> pystr -> pystr)
      (g : rng) :
  forallb isspace w = true ->
  bind (lift (split_target w))
       (fun x => let (target, dice_expression) := x in
                 bind (roll_dice (strip dice_expression))
                      (fun y => let (total, roll_details) := y in
                                ret (k target dice_expression total roll_details)))
       g = (inl (ValueError (u "无效的表达式！")), g).
Proof.
  intros Hw. unfold bind at 1, lift.
  rewrite split_target_none
    by (unfold slashes; apply count_occ_not_In; now apply spaces_not_in).
  unfold bind, roll_dice, bind, lift. now rewrite (strip_spaces w Hw).
Qed.

(** X16.  Blank input.  On the empty line and on a line of whitespace
    only, [evaluate_expression] (both files) and [quick_roll] return the
    error string of an invalid expression, [repeat_roll] returns the
    error string of an invalid command, and none of them consumes a
    random number. *)
Theorem blank_input_rejected `{Interpreter} (E : engine) :
  In E engines ->
  forall w g,
    forallb isspace w = true ->
    evaluate E w g = (u "错误：" ++ u "无效的表达式！", g) /\
    quick_roll w g = (u "错误：" ++ u "无效的表达式！", g) /\
    repeat E w g = (u "错误：" ++ u "无效的重复检定指令！", g).
Proof.
  intros HE w g Hw.
  assert (Hfree : flag_free w).
  { unfold flag_free. flag_literals.
    repeat split; now apply contains_spaces. }
  destruct (flags_plain w Hfree) as [HD Hd].
  split; [|split].
  - destruct HE as [<-|[<-|[]]]; cbn [evaluate Dicer_py dicer_py];
      apply try_except_raise.
    + unfold Dicer.evaluate_body. rewrite HD.
      now apply (blank_evaluate_body w (Dicer.outcome false lvl_n)).
    + apply dicer_flags_inv in Hd as (options & Hd & _).
      unfold dicer.evaluate_body. rewrite Hd.
      now apply (blank_evaluate_body w (dicer.outcome options lvl_n)).
  - apply try_except_raise. unfold quick_roll_body.
    rewrite quick_pattern_prefix; [reflexivity|].
    destruct w as [|c w']; [reflexivity|]. cbn [forallb] in Hw.
    apply andb_true_iff in Hw as [Hc _]. change (u ".r") with [46; 114]%N.
    cbn [startswith]. rewrite neq_eqb; [reflexivity|]. intros <-. discriminate Hc.
  - assert (Hp : repeat_prefix w = false).
    { destruct w as [|c w']; [reflexivity|]. cbn [forallb] in Hw.
      apply andb_true_iff in Hw as [Hc _]. unfold repeat_prefix.
      destruct w' as [|b [|a w'']]; try reflexivity.
      rewrite neq_eqb; [reflexivity|]. intros <-. discriminate Hc. }
    destruct (repeat_patterns_prefix w Hp) as [Hm Hdt].
    destruct HE as [<-|[<-|[]]]; cbn [repeat Dicer_py dicer_py];
      apply try_except_raise; unfold repeat_roll_body, bind, lift, repeat_directive;
      now rewrite Hm, Hdt.
Qed.

(** ** The lines of a repetition *)

Lemma in_replace_from (c : char) (old : pystr) (s : pystr) :
  forall skip, In c (replace_from old [] skip s) -> In c s.
Proof.
  induction s as [|x s IH]; intros skip; cbn [replace_from]; [trivial|].
  destruct skip as [|k].
  - destruct (startswith old (x :: s)); cbn [app].
    + intros Hin. right. exact (IH _ Hin).
    + intros [->|Hin]; [now left|right; exact (IH _ Hin)].
  - intros Hin. right. exact (IH _ Hin).
Qed.

Lemma in_replace (c : char) (old s : pystr) : In c (replace old [] s) -> In c s.
Proof. apply in_replace_from. Qed.

Lemma in_lstrip (c : char) (s : pystr) : In c (lstrip s) -> In c s.
Proof.
  induction s as [|x s IH]; cbn [lstrip]; [trivial|].
  destruct (isspace x); [|trivial]. intros Hin. right. now apply IH.
Qed.

Lemma in_strip (c : char) (s : pystr) : In c (strip s) -> In c s.
Proof.
  unfold strip, rstrip. intros Hin%in_rev%in_lstrip%in_rev. now apply in_lstrip.
Qed.

Lemma Dicer_flags_text (expression : pystr) (c : char) :
  In c (snd (Dicer.strip_flags expression)) -> In c expression.
Proof.
  unfold Dicer.strip_flags. change (u "") with (@nil N).
  assert (H1 : In c (if contains (u "-g") expression
                     then replace (u " -g") [] expression else expression) ->
               In c expression).
  { destruct (contains (u "-g") expression); [apply in_replace|trivial]. }
  repeat match goal with
         | |- context [if contains ?p ?s then _ else _] =>
             lazymatch s with
             | expression => fail
             | _ => destruct (contains p s)
             end
         end; cbn [snd]; intros Hin; try apply in_replace in Hin; now apply H1.
Qed.

Lemma option_step_text (st : dicer.options_dict * pystr) (option : pystr) (c : char) :
  In c (snd (dicer.option_step st option)) -> In c (snd st).
Proof.
  destruct st as [options expression]. unfold dicer.option_step.
  change (u "") with (@nil N).
  destruct (contains option expression); cbn [snd]; [|trivial].
  intros Hin%in_strip. now apply in_replace in Hin.
Qed.

Lemma dicer_flags_text (expression : pystr) (c : char) :
  In c (snd (dicer_flags expression)) -> In c expression.
Proof.
  unfold dicer_flags, dicer.strip_flags.
  cbn [map fst dicer.initial_options fold_left].
  set (st3 := dicer.option_step
                (dicer.option_step
                   (dicer.option_step (dicer.initial_options, expression) (u "-g"))
                   (u "-h"))
                (u "-e")).
  assert (Hst : In c (snd st3) -> In c expression).
  { intros Hin. subst st3.
    now apply option_step_text, option_step_text, option_step_text in Hin. }
  destruct st3 as [options text]. exact Hst.
Qed.

Lemma flags_text `{Interpreter} (E : engine) :
  In E engines ->
  forall expression c, In c (snd (flags E expression)) -> In c expression.
Proof.
  intros [<-|[<-|[]]] expression c; cbn [flags Dicer_py dicer_py].
  - apply Dicer_flags_text.
  - apply dicer_flags_text.
Qed.

Lemma in_split_from (sep c : char) (s : pystr) :
  forall cur part, In part (split_from sep cur s) -> In c part -> In c cur \/ In c s.
Proof.
  induction s as [|x s IH]; intros cur part; cbn [split_from].
  - intros [<-|[]] Hc%in_rev. now left.
  - destruct (char_eqb x sep).
    + intros [<-|Hp] Hc.
      * left. now apply in_rev.
      * destruct (IH [] part Hp Hc) as [[]|Hin]. right. now right.
    + intros Hp Hc. destruct (IH (x :: cur) part Hp Hc) as [[->|Hin]|Hin].
      * right. now left.
      * now left.
      * right. now right.
Qed.

Lemma split_target_text (text : pystr) (c : char) :
  (forall target dice_expression,
      split_target text = inr (target, dice_expression) ->
      In c dice_expression -> In c text) /\
  (forall t, split_target text = inl (InvalidLiteral t) -> In c t -> In c text).
Proof.
  unfold split_target.
  destruct (contains (u "/") text); [|split; [now intros ? ? [= _ <-]|discriminate]].
  assert (Hpart : forall part, In part (split 47%N text) -> In c part -> In c text).
  { intros part Hp Hc. destruct (in_split_from 47%N c text [] part Hp Hc) as [[]|Hin].
    exact Hin. }
  destruct (split 47%N text) as [|a [|b [|x r]]]; try (split; discriminate).
  unfold int_str. destruct (int a); cbn [rbind]; split; try discriminate.
  - intros ? ? [= _ <-]. apply Hpart. right. now left.
  - intros t [= <-]. apply Hpart. now left.
Qed.

Lemma str_chars (z : Z) (c : char) : In c (str z) -> isdecimal c = true \/ c = 45%N.
Proof.
  assert (Hd : forall d, In c (uint_chars d) -> isdecimal c = true).
  { intros d Hin. pose proof (uint_chars_decimal d) as Hall.
    rewrite forallb_forall in Hall. now apply Hall. }
  unfold str. destruct (Z.to_int z) as [d|d].
  - intros Hin. left. now apply (Hd d).
  - intros [<-|Hin]; [now right|left; now apply (Hd d)].
Qed.

Lemma str_one_line (z : Z) : ~ In 10%N (str z).
Proof. intros [Hd| Hd]%str_chars; discriminate Hd. Qed.

Lemma in_join (c : char) (sep : pystr) (parts : list pystr) :
  In c (join sep parts) -> In c sep \/ exists part, In part parts /\ In c part.
Proof.
  induction parts as [|p parts IH]; cbn [join]; [intros []|].
  destruct parts as [|q parts].
  - intros Hin. right. exists p. split; [now left|exact Hin].
  - intros [Hin|[Hin|Hin]%in_app_or]%in_app_or.
    + right. exists p. split; [now left|exact Hin].
    + now left.
    + destruct (IH Hin) as [Hs|(part & Hp & Hc)]; [now left|].
      right. exists part. split; [now right|exact Hc].
Qed.

Lemma rolls_one_line (rolls : list Z) : ~ In 10%N (join (u "+") (map str rolls)).
Proof.
  intros [Hs|(part & Hp & Hc)]%in_join.
  - vm_compute in Hs. destruct Hs as [Hs|[]]. discriminate Hs.
  - apply in_map_iff in Hp as (z & <- & _). now apply str_one_line in Hc.
Qed.

(** The text of the modifier is a piece of the dice text. *)
Lemma modifier_text_in (s m : pystr) (d : DiceSpec) (c : char) :
  parse_dice s = inr d -> modifier_text d = Some m -> In c m -> In c s.
Proof.
  intros Hp Hm Hc.
  assert (Hmatch : exists caps, re_match DICE_PATTERN s = Some caps).
  { unfold parse_dice in Hp. destruct (re_match DICE_PATTERN s); [eauto|discriminate]. }
  destruct Hmatch as (caps & Hmatch).
  destruct (match_dice_form s caps Hmatch) as (a & y & s' & -> & Ha & Hy).
  destruct (dice_text_form a s' y Ha Hy) as (b & m' & rest & Heq & Hne & Hb & Hf).
  rewrite Heq in *. clear Heq.
  destruct (dice_grammar_parse a b m' rest Ha Hne Hb Hf)
    as (count & sides & bonus & _ & _ & _ & _ & _ & _ & _ & Hq).
  rewrite Hq in Hp. injection Hp as <-. cbn [modifier_text] in Hm.
  destruct m' as [|sign digits]; [discriminate|]. injection Hm as <-.
  apply in_or_app. right. right. apply in_or_app. right. apply in_or_app. now left.
Qed.

Lemma roll_details_one_line (s : pystr) (g g' : rng) (total : Z) (roll_details : pystr) :
  roll_dice s g = (inr (total, roll_details), g') ->
  ~ In 10%N s -> ~ In 10%N roll_details.
Proof.
  unfold roll_dice, bind at 1, lift.
  destruct (parse_dice s) as [e|d] eqn:Hp; [discriminate|].
  unfold roll_spec, bind.
  destruct (comprehension _ _ g) as [[e|rolls] g1]; [discriminate|].
  unfold ret. intros [= _ <- _] Hs.
  destruct (Z.eqb_spec (modifier d) 0) as [Hz|Hz]; [apply rolls_one_line|].
  intros [Hin|Hin]%in_app_or; [now apply rolls_one_line in Hin|].
  destruct (parse_dice_modifier s d Hp Hz) as (m & Hm & _).
  rewrite Hm in Hin. cbn [fmt] in Hin.
  apply Hs. exact (modifier_text_in s m d 10%N Hp Hm Hin).
Qed.

Ltac one_line_pieces Hdice Hdetails :=
  repeat match goal with
         | H : In 10%N (_ ++ _) |- _ => apply in_app_or in H as [H|H]
         | H : In 10%N (str _) |- _ => now apply str_one_line in H
         | H : In 10%N (strip _) |- _ => apply in_strip in H; now apply Hdice in H
         | H : In 10%N (u _) |- _ =>
             vm_compute in H; repeat (destruct H as [H|H]; [discriminate H|]);
             now destruct H
         | H : In 10%N ?t |- _ => now apply Hdetails in H
         end.

Lemma outcome_one_line (gamble : bool) (lvl : difficulty) (target : option Z)
      (dice_expression : pystr) (total : Z) (roll_details : pystr) :
  ~ In 10%N dice_expression -> ~ In 10%N roll_details ->
  ~ In 10%N (Dicer.outcome gamble lvl target dice_expression total roll_details).
Proof.
  intros Hdice Hdetails. unfold Dicer.outcome, check_success. cbv zeta.
  destruct (contains (u "1d100") dice_expression && (total =? 1)%Z);
    [intros Hin; one_line_pieces Hdice Hdetails|].
  destruct (contains (u "1d100") dice_expression && (total >=? 96)%Z);
    [intros Hin; one_line_pieces Hdice Hdetails|].
  destruct target as [target|]; [|intros Hin; one_line_pieces Hdice Hdetails].
  destruct lvl;
    match goal with
    | |- context [if (?a <=? ?b)%Z then _ else _] => destruct (a <=? b)%Z
    end;
    try destruct gamble; intros Hin; one_line_pieces Hdice Hdetails.
Qed.

Lemma prefix_one_line (s : pystr) : ~ In 10%N s -> ~ In 10%N (u "错误：" ++ s).
Proof.
  intros Hs [Hin|Hin]%in_app_or; [|now apply Hs].
  vm_compute in Hin. repeat (destruct Hin as [Hin|Hin]; [discriminate Hin|]).
  now destruct Hin.
Qed.

Lemma body_one_line `{Interpreter} (text : pystr)
      (k : option Z -> pystr -> Z -> pystr -> pystr) (g : rng) :
  one_line_messages ->
  ~ In 10%N text ->
  (forall target dice_expression total roll_details,
      ~ In 10%N dice_expression -> ~ In 10%N roll_details ->
      ~ In 10%N (k target dice_expression total roll_details)) ->
  ~ In 10%N
    (fst (try_except
            (bind (lift (split_target text))
               (fun x => let (target, dice_expression) := x in
                         bind (roll_dice (strip dice_expression))
                           (fun y => let (total, roll_details) := y in
                                     ret (k target dice_expression total roll_details))))
            g)).
Proof.
  intros Hmsg Htext Hk. unfold try_except, bind at 1, lift.
  destruct (split_target text) as [e0|[target dice_expression]] eqn:Hs.
  - cbn [fst]. apply prefix_one_line.
    destruct Hmsg as (Hlit & Hmany & Hrange).
    destruct (split_target_failures _ _ Hs) as [->|(t & -> & _)]; cbn [str_exn].
    + exact Hmany.
    + apply Hlit. intros Hin. apply Htext.
      exact (proj2 (split_target_text text 10%N) t Hs Hin).
  - assert (Hdice : ~ In 10%N dice_expression).
    { intros Hin. apply Htext.
      exact (proj1 (split_target_text text 10%N) _ _ Hs Hin). }
    unfold bind.
    destruct (roll_dice (strip dice_expression) g) as [[e1|[total roll_details]] g1] eqn:Hr.
    + cbn [fst]. apply prefix_one_line.
      destruct (roll_dice_failure_cases _ _ _ _ Hr) as [_ [[-> _]|[-> _]]]; cbn [str_exn].
      * intros Hin. vm_compute in Hin.
        repeat (destruct Hin as [Hin|Hin]; [discriminate Hin|]). now destruct Hin.
      * apply Hmsg.
    + cbn [fst ret]. apply Hk; [exact Hdice|].
      apply (roll_details_one_line _ _ _ _ _ Hr).
      intros Hin%in_strip. now apply Hdice.
Qed.

Lemma evaluate_one_line `{Interpreter} (E : engine) :
  In E engines ->
  one_line_messages ->
  forall expression g,
    ~ In 10%N expression -> ~ In 10%N (fst (evaluate E expression g)).
Proof.
  intros HE Hmsg expression g Hexp.
  pose proof (flags_text E HE expression 10%N) as Hflags.
  destruct HE as [<-|[<-|[]]]; cbn [evaluate flags Dicer_py dicer_py] in *.
  - unfold Dicer.evaluate_expression, Dicer.evaluate_body.
    destruct (Dicer.strip_flags expression) as [[gamble lvl] text]. cbn [snd] in Hflags.
    apply body_one_line; [exact Hmsg|tauto|].
    intros. now apply outcome_one_line.
  - unfold dicer.evaluate_expression, dicer.evaluate_body.
    unfold dicer_flags in Hflags.
    destruct (dicer.strip_flags expression) as [[options lvl] text]. cbn [snd] in Hflags.
    apply body_one_line; [exact Hmsg|tauto|].
    intros. rewrite outcome_agree. now apply outcome_one_line.
Qed.

Lemma split_join_lines (lines : list pystr) :
  lines <> [] ->
  Forall (fun line => ~ In 10%N line) lines ->
  split 10%N (join [10%N] lines) = lines.
Proof.
  intros Hne Hall. unfold split.
  induction Hall as [|line lines Hline Hall IH]; [contradiction|].
  destruct lines as [|next lines].
  - cbn [join]. now rewrite split_from_plain.
  - cbn [join]. cbn [app]. rewrite split_from_app by assumption. cbn [rev app].
    f_equal. apply IH. discriminate.
Qed.

Lemma trial_line_one_line `{Interpreter} (E : engine) (expression : pystr)
      (g : rng) (i : nat) :
  In E engines -> one_line_messages -> ~ In 10%N expression ->
  ~ In 10%N (trial_line (evaluate E) expression g i).
Proof.
  intros HE Hmsg Hexp. unfold trial_line.
  pose proof (evaluate_one_line E HE Hmsg expression
                (rng_after (evaluate E) expression i g) Hexp) as Hev.
  intros Hin. one_line_pieces Hexp Hev.
Qed.

Lemma CPython_one_line : @one_line_messages CPython.
Proof.
  unfold one_line_messages. cbn [builtin_message CPython].
  split; [|split].
  - intros t Ht Hin. one_line_pieces Ht Ht.
  - intros Hin. vm_compute in Hin.
    repeat (destruct Hin as [Hin|Hin]; [discriminate Hin|]). now destruct Hin.
  - intros a b Hin. assert (Hno : ~ In 10%N (@nil N)) by (intros []).
    one_line_pieces Hno Hno.
Qed.

(** X17.  The lines of a repetition.  When the messages of the
    interpreter stay on one line, no trial line of [repeat_roll] holds a
    line feed: cutting the result at the line feeds gives back the trial
    lines, one per trial, for every command that asks for at least one
    trial; a command that asks for none returns the empty string. *)
Theorem repeat_lines_split `{Interpreter} (E : engine) :
  In E engines ->
  one_line_messages ->
  forall command times expression g,
    repeat_directive command = inr (times, expression) ->
    ((1 <= times)%Z ->
     split 10%N (fst (repeat E command g)) =
     trial_lines (evaluate E) expression (Z.to_nat times) g /\
     Z.of_nat (List.length (split 10%N (fst (repeat E command g)))) = times) /\
    ((times <= 0)%Z -> repeat E command g = ([], g)).
Proof.
  intros HE Hmsg command times expression g Hr.
  assert (Hrep : repeat E command g =
                 (join [10%N] (trial_lines (evaluate E) expression (Z.to_nat times) g),
                  rng_after (evaluate E) expression (Z.to_nat times) g)).
  { destruct HE as [<-|[<-|[]]]; cbn [repeat evaluate Dicer_py dicer_py];
      now apply repeat_roll_lines. }
  assert (Hexp : ~ In 10%N expression).
  { destruct (repeat_directive_cases command)
      as [(_ & _ & Hno)|(times' & expression' & Hr' & _ & _ & _ & Hnl)].
    - rewrite Hno in Hr. discriminate Hr.
    - rewrite Hr in Hr'. now injection Hr' as _ <-. }
  split.
  - intros Ht. rewrite Hrep. cbn [fst].
    rewrite split_join_lines.
    + split; [reflexivity|]. rewrite trial_lines_length. lia.
    + intros Hnil. apply (f_equal (@List.length pystr)) in Hnil.
      rewrite trial_lines_length in Hnil. cbn in Hnil. lia.
    + unfold trial_lines. apply Forall_forall. intros line (i & <- & _)%in_map_iff.
      now apply trial_line_one_line.
  - intros Ht. rewrite Hrep. replace (Z.to_nat times) with O by lia. reflexivity.
Qed.

(** ** The contract of the simulator *)

Lemma comprehension_tape (n : nat) (sides : Z) :
  (1 <= sides)%Z ->
  forall g,
    comprehension n (randint 1 sides) g =
    (inr (draws g sides n), fun k => g (n + k)%nat).
Proof.
  intros Hs. induction n as [|n IH]; intros g; [reflexivity|].
  cbn [comprehension]. unfold bind at 1, randint at 1.
  replace (sides <? 1)%Z with false by (symmetry; apply Z.ltb_ge; lia).
  unfold bind at 1. rewrite IH. unfold ret.
  replace (sides - 1 + 1)%Z with sides by lia.
  unfold draws. cbn [seq map]. rewrite <- seq_shift, map_map. reflexivity.
Qed.

Lemma join_plus_separated (texts : list pystr) :
  join (u "+") texts = plus_separated texts.
Proof.
  change (u "+") with [43%N].
  destruct texts as [|first others]; [reflexivity|]. cbn [plus_separated].
  revert first. induction others as [|next others IH]; intros first.
  - cbn. now rewrite app_nil_r.
  - change (join [43%N] (first :: next :: others))
      with (first ++ [43%N] ++ join [43%N] (next :: others)).
    rewrite (IH next). reflexivity.
Qed.

Lemma split_join (sep : char) (parts : list pystr) :
  parts <> [] ->
  Forall (fun part => ~ In sep part) parts ->
  split sep (join [sep] parts) = parts.
Proof.
  intros Hne Hall. unfold split.
  induction Hall as [|part parts Hpart Hall IH]; [contradiction|].
  destruct parts as [|next parts].
  - cbn [join]. now rewrite split_from_plain.
  - cbn [join]. cbn [app]. rewrite split_from_app by assumption. cbn [rev app].
    f_equal. apply IH. discriminate.
Qed.

Lemma str_no_plus (z : Z) : ~ In 43%N (str z).
Proof. intros [Hd|Hd]%str_chars; discriminate Hd. Qed.

Lemma draws_length (g : rng) (sides : Z) (n : nat) : List.length (draws g sides n) = n.
Proof. unfold draws. now rewrite length_map, length_seq. Qed.

Lemma draws_range (g : rng) (sides : Z) (n : nat) :
  (1 <= sides)%Z -> Forall (fun r => 1 <= r <= sides)%Z (draws g sides n).
Proof.
  intros Hs. unfold draws. apply Forall_forall. intros r (i & <- & _)%in_map_iff.
  assert (0 <= Z.of_N (g i) mod sides < sides)%Z by (apply Z.mod_pos_bound; lia).
  lia.
Qed.

(** C3.  For a dice text that parses to a count of at least 1 and at
    least 1 side, [roll_dice] returns without an exception.  There are
    exactly count draws, the ones that count calls of [randint] read
    from the random source, each between 1 and sides, and the source is
    advanced by count.  The total is their sum plus the modifier.  The
    details are the decimal texts of the draws, in order, each after the
    first preceded by a plus sign, so that cutting the details at the
    plus signs and reading the pieces with [int] gives the draws back;
    they are followed by the modifier as the text spells it exactly when
    the modifier is not zero. *)
Theorem roll_dice_contract (dice_expression : pystr) (d : DiceSpec) (g : rng) :
  parse_dice dice_expression = inr d ->
  (1 <= num_dice d)%Z ->
  (1 <= dice_type d)%Z ->
  exists rolls suffix g',
    roll_dice dice_expression g =
    (inr ((sum rolls + modifier d)%Z, plus_separated (map str rolls) ++ suffix), g') /\
    rolls = draws g (dice_type d) (Z.to_nat (num_dice d)) /\
    (forall k, g' k = g (Z.to_nat (num_dice d) + k)%nat) /\
    Z.of_nat (List.length rolls) = num_dice d /\
    Forall (fun r => 1 <= r <= dice_type d)%Z rolls /\
    split 43%N (plus_separated (map str rolls)) = map str rolls /\
    map int (map str rolls) = map Some rolls /\
    (modifier d = 0%Z -> suffix = []) /\
    (modifier d <> 0%Z ->
     modifier_text d = Some suffix /\ int suffix = Some (modifier d)).
Proof.
  intros Hp Hn Hs.
  set (rolls := draws g (dice_type d) (Z.to_nat (num_dice d))).
  assert (Hroll : forall suffix,
             (if (modifier d =? 0)%Z then @nil N else fmt (modifier_text d)) = suffix ->
             roll_dice dice_expression g =
             (inr ((sum rolls + modifier d)%Z, plus_separated (map str rolls) ++ suffix),
              fun k => g (Z.to_nat (num_dice d) + k)%nat)).
  { intros suffix <-. unfold roll_dice, bind at 1, lift. rewrite Hp.
    unfold roll_spec, bind. rewrite comprehension_tape by assumption.
    unfold ret. fold rolls. rewrite join_plus_separated.
    destruct (modifier d =? 0)%Z; [now rewrite app_nil_r|reflexivity]. }
  assert (Hcut : split 43%N (plus_separated (map str rolls)) = map str rolls).
  { rewrite <- join_plus_separated. change (u "+") with [43%N]. apply split_join.
    - intros Hnil. apply (f_equal (@List.length pystr)) in Hnil.
      subst rolls. rewrite length_map, draws_length in Hnil. cbn in Hnil. lia.
    - apply Forall_forall. intros part (z & <- & _)%in_map_iff. apply str_no_plus. }
  assert (Hback : map int (map str rolls) = map Some rolls).
  { rewrite map_map. apply map_ext. intros z. apply int_str_round_trip. }
  assert (Hlen : Z.of_nat (List.length rolls) = num_dice d)
    by (subst rolls; rewrite draws_length; lia).
  pose proof (draws_range g (dice_type d) (Z.to_nat (num_dice d)) Hs) as Hall.
  fold rolls in Hall.
  destruct (Z.eq_dec (modifier d) 0) as [Hm|Hm].
  - exists rolls, [], (fun k => g (Z.to_nat (num_dice d) + k)%nat).
    split; [apply Hroll; now rewrite (proj2 (Z.eqb_eq _ _) Hm)|].
    split; [reflexivity|]. split; [reflexivity|]. split; [exact Hlen|].
    split; [exact Hall|]. split; [exact Hcut|]. split; [exact Hback|].
    split; [reflexivity|]. intros Hm'. now contradict Hm'.
  - destruct (parse_dice_modifier dice_expression d Hp Hm) as (suffix & Ht & Hi).
    exists rolls, suffix, (fun k => g (Z.to_nat (num_dice d) + k)%nat).
    split; [apply Hroll; now rewrite (proj2 (Z.eqb_neq _ _) Hm), Ht|].
    split; [reflexivity|]. split; [reflexivity|]. split; [exact Hlen|].
    split; [exact Hall|]. split; [exact Hcut|]. split; [exact Hback|].
    split; [intros Hm'; now contradict Hm'|]. now intros _.
Qed.

(** ** The texts [roll_dice] accepts *)

Lemma dice_form_parsed (dice_expression : pystr) :
  dice_form dice_expression <-> exists d, parse_dice dice_expression = inr d.
Proof.
  split.
  - intros (a & y & rest & -> & Ha & Hy). change (u "d" ++ y :: rest) with (100%N :: y :: rest).
    destruct (dice_text_form a rest y Ha Hy) as (b & m & rest' & -> & Hne & Hb & Hf).
    destruct (dice_grammar_parse a b m rest' Ha Hne Hb Hf)
      as (count & sides & bonus & _ & _ & _ & _ & _ & _ & _ & Hp).
    eauto.
  - intros (d & Hp). unfold parse_dice in Hp.
    destruct (re_match DICE_PATTERN dice_expression) as [m|] eqn:Hm; [|discriminate].
    exact (match_dice_form _ _ Hm).
Qed.

(** X4.  The texts [roll_dice] accepts.  [roll_dice] raises the
    ValueError of the program exactly on the texts that do not start
    with digits (possibly none), the letter d and a digit.  A text of
    that form passes the match and the three conversions, whatever
    follows the digits; [roll_dice] then returns a result when the count
    is 0 or there is at least one side, and otherwise, when at least one
    die with 0 sides is asked for, raises the ValueError of [randint]. *)
Theorem accepted_dice_texts (dice_expression : pystr) (g : rng) :
  (dice_form dice_expression <-> exists d, parse_dice dice_expression = inr d) /\
  (dice_form dice_expression ->
   exists d,
     parse_dice dice_expression = inr d /\
     (((num_dice d = 0 \/ 1 <= dice_type d)%Z /\
       exists total roll_details g',
         roll_dice dice_expression g = (inr (total, roll_details), g')) \/
      ((1 <= num_dice d)%Z /\ dice_type d = 0%Z /\
       roll_dice dice_expression g = (inl (EmptyRange 1 0), g)))) /\
  (~ dice_form dice_expression ->
   roll_dice dice_expression g = (inl (ValueError (u "无效的表达式！")), g)) /\
  (roll_dice dice_expression g = (inl (ValueError (u "无效的表达式！")), g) ->
   ~ dice_form dice_expression).
Proof.
  assert (Hform : dice_form dice_expression ->
    exists d,
      parse_dice dice_expression = inr d /\
      (((num_dice d = 0 \/ 1 <= dice_type d)%Z /\
        exists total roll_details g',
          roll_dice dice_expression g = (inr (total, roll_details), g')) \/
       ((1 <= num_dice d)%Z /\ dice_type d = 0%Z /\
        roll_dice dice_expression g = (inl (EmptyRange 1 0), g)))).
  { intros Hf. destruct (proj1 (dice_form_parsed dice_expression) Hf) as (d & Hp).
    exists d. split; [exact Hp|].
    destruct (parse_dice_nonneg _ _ Hp) as [Hn Hs].
    destruct (Z.eq_dec (num_dice d) 0) as [Hz|Hz];
      [|destruct (Z.eq_dec (dice_type d) 0) as [Hs0|Hs0]].
    - left. split; [now left|].
      destruct (roll_dice_parsed dice_expression d g Hp) as (rolls & g' & Hr & _); [lia|].
      eauto.
    - right. split; [lia|]. split; [exact Hs0|].
      apply (roll_dice_no_sides dice_expression d g); [exact Hp|lia|exact Hs0].
    - left. split; [right; lia|].
      destruct (roll_dice_parsed dice_expression d g Hp) as (rolls & g' & Hr & _); [lia|].
      eauto. }
  split; [apply dice_form_parsed|]. split; [exact Hform|]. split.
  - intros Hno. destruct (parse_dice_cases dice_expression) as [[_ Hp]|(d & Hp & _)].
    + unfold roll_dice, bind, lift. now rewrite Hp.
    + contradict Hno. apply (proj2 (dice_form_parsed dice_expression)). eauto.
  - intros Hr Hf. destruct (Hform Hf) as (d & _ & [(_ & total & details & g' & Hok)|(_ & _ & Hbad)]).
    + rewrite Hok in Hr. discriminate Hr.
    + rewrite Hbad in Hr. discriminate Hr.
Qed.

(** ** What a repeat command asks for *)

Lemma m_pattern_command (command : pystr) (m : captures) :
  re_match M_PATTERN command = Some m ->
  exists ws digits rest expression,
    command = u ".m" ++ ws ++ u "-" ++ digits ++ rest /\
    ws <> [] /\ forallb isspace ws = true /\
    digits <> [] /\ forallb isdecimal digits = true /\
    no_digit rest = true /\
    m = [(2, expression); (1, digits)].
Proof.
  unfold re_match, M_PATTERN. cbn -[star firstn List.length char_eqb].
  intros Hm.
  destruct command as [|x1 [|x2 [|x3 s]]]; try discriminate;
    try (destruct (char_eqb 46%N x1); discriminate).
  1:{ destruct (char_eqb 46%N x1); [|discriminate].
      destruct (char_eqb 109%N x2); discriminate. }
  destruct (char_eqb 46%N x1) eqn:H1; [|discriminate].
  destruct (char_eqb 109%N x2) eqn:H2; [|discriminate].
  destruct (isspace x3) eqn:H3; [|discriminate].
  apply N.eqb_eq in H1, H2. subst x1 x2.
  apply star_inv_split in Hm as (a & s1 & -> & Ha & Hm).
  destruct s1 as [|x4 s2]; [discriminate|].
  destruct (char_eqb 45%N x4) eqn:H4; [|discriminate].
  apply N.eqb_eq in H4. subst x4.
  destruct s2 as [|y s3]; [discriminate|].
  destruct (isdecimal y) eqn:Hy; [|discriminate].
  apply star_inv_split in Hm as (b & s4 & -> & Hb & Hm).
  destruct s4 as [|w s5]; [discriminate|].
  destruct (isspace w) eqn:Hw; [|discriminate].
  apply star_inv_split in Hm as (c & s6 & -> & _ & Hm).
  destruct s6 as [|z s7]; [discriminate|].
  destruct (negb (char_eqb z 10%N)) eqn:Hz; [|discriminate].
  apply star_inv_split in Hm as (d & s8 & -> & Hd & Hm).
  rewrite firstn_cons_app_minus in Hm.
  change (y :: b ++ w :: c ++ z :: d ++ s8) with ((y :: b) ++ w :: c ++ z :: d ++ s8) in Hm.
  rewrite firstn_minus in Hm.
  injection Hm as <-. change (test c_digit) with isdecimal in Hb.
  change (test c_space) with isspace in Ha.
  exists (x3 :: a), (y :: b), (w :: c ++ z :: d ++ s8), (z :: d).
  split; [reflexivity|].
  split; [discriminate|]. split; [cbn [forallb]; now rewrite H3, Ha|].
  split; [discriminate|]. split; [cbn [forallb]; now rewrite Hy, Hb|].
  split; [cbn; now rewrite (isspace_not_decimal w Hw)|reflexivity].
Qed.

Lemma dt_pattern_command (command : pystr) (m : captures) :
  re_match DT_PATTERN command = Some m ->
  exists kind rest expression,
    command = 46%N :: kind :: rest /\
    (kind = 100%N \/ kind = 116%N) /\
    m = [(2, expression); (1, [kind])].
Proof.
  unfold re_match, DT_PATTERN. cbn -[star firstn List.length char_eqb].
  intros Hm.
  destruct command as [|x1 [|x2 s]]; try discriminate.
  1:{ destruct (char_eqb 46%N x1); discriminate. }
  destruct (char_eqb 46%N x1) eqn:H0; [|discriminate].
  apply N.eqb_eq in H0. subst x1.
  match type of Hm with
  | context [if char_eqb 100 x2 then ?b else None] => set (inner := b) in Hm
  end.
  assert (Hkind : (x2 = 100%N \/ x2 = 116%N) /\ inner = Some m).
  { destruct (char_eqb 100%N x2) eqn:H1; destruct (char_eqb 116%N x2) eqn:H2;
      destruct inner as [r|]; try discriminate Hm;
      try apply N.eqb_eq in H1; try apply N.eqb_eq in H2; auto. }
  clear Hm. destruct Hkind as [Hkind Hm]. subst inner.
  destruct s as [|x3 s]; [discriminate|].
  destruct (isspace x3); [|discriminate].
  apply star_inv_split in Hm as (a & s1 & -> & _ & Hm).
  destruct s1 as [|z s2]; [discriminate|].
  destruct (negb (char_eqb z 10%N)) eqn:Hz; [|discriminate].
  apply star_inv_split in Hm as (d & s3 & -> & Hd & Hm).
  rewrite firstn_cons_app_minus, firstn_cons_minus in Hm.
  injection Hm as <-.
  exists x2, (x3 :: a ++ z :: d ++ s3), (z :: d). now repeat split.
Qed.

(** The number of trials that a command asks for: the number that
    [int] reads from the digits of an m command, 2 for d and 3 for t. *)
Lemma repeat_directive_reading (command : pystr) (times : Z) (expression : pystr) :
  repeat_directive command = inr (times, expression) ->
  (exists ws digits rest,
      command = u ".m" ++ ws ++ u "-" ++ digits ++ rest /\
      ws <> [] /\ forallb isspace ws = true /\
      digits <> [] /\ forallb isdecimal digits = true /\
      no_digit rest = true /\
      int digits = Some times) \/
  (exists rest, command = u ".d" ++ rest /\ times = 2%Z) \/
  (exists rest, command = u ".t" ++ rest /\ times = 3%Z).
Proof.
  unfold repeat_directive.
  destruct (re_match M_PATTERN command) as [m|] eqn:Hm.
  - apply m_pattern_command in Hm
      as (ws & digits & rest & text & -> & Hw & Hws & Hne & Hd & Hrest & ->).
    cbn [group Nat.eqb int_of text_of]. unfold int_str.
    destruct (int digits) as [n|] eqn:Hn; cbn [rbind]; [|discriminate].
    intros [= <- _]. left. exists ws, digits, rest. now repeat split.
  - destruct (re_match DT_PATTERN command) as [m|] eqn:Hd; [|discriminate].
    apply dt_pattern_command in Hd as (kind & rest & text & -> & [-> | ->] & ->);
      cbn [group Nat.eqb text_of rbind]; intros Hr; right.
    + left. exists rest. split; [reflexivity|].
      vm_compute in Hr. now injection Hr as <- _.
    + right. exists rest. split; [reflexivity|].
      vm_compute in Hr. now injection Hr as <- _.
Qed.

(** X9.  [repeat_roll] has one failure of its own: the rejection of a
    command that neither pattern matches, which consumes no random
    number.  Every other command is run.  The number of trials is the
    number that [int] reads from the digits after the minus sign of an
    m command, which is never negative; it is 2 for a d command and 3
    for a t command.  The expression that is repeated is not empty and
    holds no line feed, and the result is the lines of the trials. *)
Theorem repeat_roll_cases `{Interpreter} (E : engine) :
  In E engines ->
  forall command g,
    (re_match M_PATTERN command = None /\ re_match DT_PATTERN command = None /\
     repeat E command g = (u "错误：" ++ u "无效的重复检定指令！", g)) \/
    (exists times expression,
        repeat_directive command = inr (times, expression) /\
        (0 <= times)%Z /\
        (re_match M_PATTERN command = None -> times = 2%Z \/ times = 3%Z) /\
        expression <> [] /\ ~ In 10%N expression /\
        repeat E command g =
        (join [10%N] (trial_lines (evaluate E) expression (Z.to_nat times) g),
         rng_after (evaluate E) expression (Z.to_nat times) g) /\
        ((exists ws digits rest,
             command = u ".m" ++ ws ++ u "-" ++ digits ++ rest /\
             ws <> [] /\ forallb isspace ws = true /\
             digits <> [] /\ forallb isdecimal digits = true /\
             no_digit rest = true /\
             int digits = Some times) \/
         (exists rest, command = u ".d" ++ rest /\ times = 2%Z) \/
         (exists rest, command = u ".t" ++ rest /\ times = 3%Z))).
Proof.
  intros HE command g.
  destruct (repeat_directive_cases command)
    as [(Hm & Hd & Hr)|(times & expression & Hr & H0 & Hdt & Hne & Hnl)].
  - left. split; [exact Hm|]. split; [exact Hd|].
    destruct HE as [<-|[<-|[]]]; cbn [repeat Dicer_py dicer_py];
      apply try_except_raise; unfold repeat_roll_body, bind, lift; now rewrite Hr.
  - right. exists times, expression.
    split; [exact Hr|]. split; [exact H0|]. split; [exact Hdt|].
    split; [exact Hne|]. split; [exact Hnl|]. split.
    + destruct HE as [<-|[<-|[]]]; cbn [repeat evaluate Dicer_py dicer_py];
        now apply repeat_roll_lines.
    + exact (repeat_directive_reading command times expression Hr).
Qed.

(** ** Instances on concrete inputs *)

Lemma critical_override_witness :
  fst (evaluate Dicer_py (u "50/1d100") (const_rng 0)) = u "1d100: 1=1, 大成功！" /\
  fst (evaluate dicer_py (u "20/1d100 -g") (const_rng 95)) = u "1d100: 96=96, 大失败！".
Proof.
  split.
  - assert (Hf : flags Dicer_py (u "50/1d100") = (false, lvl_n, u "50/1d100"))
      by (vm_compute; reflexivity).
    assert (Hs : split_target (u "50/1d100") = inr (Some 50%Z, u "1d100"))
      by (vm_compute; reflexivity).
    assert (Hr : roll_dice (strip (u "1d100")) (const_rng 0) =
                 (inr (1%Z, u "1"), const_rng 0)) by (vm_compute; reflexivity).
    assert (Hc : contains (u "1d100") (u "1d100") = true) by (vm_compute; reflexivity).
    destruct (critical_override Dicer_py (or_introl eq_refl) _ _ _ _ _ _ _ _ _ _
                                Hf Hs Hr Hc) as [Hw _].
    rewrite Hw by reflexivity. vm_compute. reflexivity.
  - assert (Hf : flags dicer_py (u "20/1d100 -g") = (true, lvl_n, u "20/1d100"))
      by (vm_compute; reflexivity).
    assert (Hs : split_target (u "20/1d100") = inr (Some 20%Z, u "1d100"))
      by (vm_compute; reflexivity).
    assert (Hr : roll_dice (strip (u "1d100")) (const_rng 95) =
                 (inr (96%Z, u "96"), const_rng 95)) by (vm_compute; reflexivity).
    assert (Hc : contains (u "1d100") (u "1d100") = true) by (vm_compute; reflexivity).
    destruct (critical_override dicer_py (or_intror (or_introl eq_refl))
                                _ _ _ _ _ _ _ _ _ _ Hf Hs Hr Hc) as [_ Hw].
    rewrite Hw by lia. vm_compute. reflexivity.
Defined.

Lemma entry_points_total_witness :
  startswith (u "错误：") (fst (quick_roll (u "5/") (const_rng 0))) = true /\
  startswith (u "错误：") (fst (evaluate Dicer_py (u "5/") (const_rng 0))) = true /\
  startswith (u "错误：") (fst (repeat dicer_py (u ".m -x foo") (const_rng 0))) = true.
Proof.
  destruct entry_points_total as (_ & _ & Hm).
  destruct (Hm (u "5/") (const_rng 0)) as [Hq HE]; [vm_compute; tauto|].
  destruct (Hm (u ".m -x foo") (const_rng 0)) as [_ HE']; [vm_compute; tauto|].
  split; [exact Hq|]. split.
  - exact (proj1 (HE Dicer_py (or_introl eq_refl))).
  - exact (proj2 (HE' dicer_py (or_intror (or_introl eq_refl)))).
Defined.

Lemma threshold_check_witness :
  fst (evaluate Dicer_py (u "40/1d100+2 -h") (const_rng 14)) =
  u "1d100+2: 15+2=17, 17<=20, 困难检定通过！" /\
  fst (evaluate dicer_py (u "20/1d100 -g") (const_rng 49)) =
  u "1d100: 50=50, 50>20, 孤注一掷失败，视为大失败！".
Proof.
  split.
  - assert (Hf : flags Dicer_py (u "40/1d100+2 -h") = (false, lvl_h, u "40/1d100+2"))
      by (vm_compute; reflexivity).
    assert (Hs : split_target (u "40/1d100+2") = inr (Some 40%Z, u "1d100+2"))
      by (vm_compute; reflexivity).
    assert (Hr : roll_dice (strip (u "1d100+2")) (const_rng 14) =
                 (inr (17%Z, u "15+2"), const_rng 14)) by (vm_compute; reflexivity).
    assert (Hc : critical (u "1d100+2") 17 = false) by (vm_compute; reflexivity).
    destruct (threshold_check Dicer_py (or_introl eq_refl) _ _ _ _ _ _ _ _ _ _
                              Hf Hs Hr Hc) as (_ & Hw & _).
    rewrite Hw by (vm_compute; discriminate). vm_compute. reflexivity.
  - assert (Hf : flags dicer_py (u "20/1d100 -g") = (true, lvl_n, u "20/1d100"))
      by (vm_compute; reflexivity).
    assert (Hs : split_target (u "20/1d100") = inr (Some 20%Z, u "1d100"))
      by (vm_compute; reflexivity).
    assert (Hr : roll_dice (strip (u "1d100")) (const_rng 49) =
                 (inr (50%Z, u "50"), const_rng 49)) by (vm_compute; reflexivity).
    assert (Hc : critical (u "1d100") 50 = false) by (vm_compute; reflexivity).
    destruct (threshold_check dicer_py (or_intror (or_introl eq_refl))
                              _ _ _ _ _ _ _ _ _ _ Hf Hs Hr Hc) as (_ & _ & Hw).
    rewrite Hw by (vm_compute; reflexivity). vm_compute. reflexivity.
Defined.

Lemma target_split_witness :
  split_target (u "10" ++ u "/" ++ u "1d6") = inr (Some 10%Z, u "1d6") /\
  split_target (u "10/1d6/2") = inl TooManyValues /\
  evaluate Dicer_py (u "10/1d6/2 -h") (const_rng 0) =
  (u "错误：" ++ str_exn TooManyValues, const_rng 0).
Proof.
  destruct target_split as (_ & Hone & Hmany & Hev).
  split; [|split].
  - rewrite (Hone (u "10") (u "1d6")).
    + vm_compute. reflexivity.
    + vm_compute. intros [Hx|[Hx|[]]]; discriminate Hx.
    + vm_compute. intros [Hx|[Hx|[Hx|[]]]]; discriminate Hx.
  - apply Hmany. vm_compute. lia.
  - apply (Hev Dicer_py (or_introl eq_refl) (u "10/1d6/2 -h") false lvl_h (u "10/1d6/2")).
    + vm_compute. reflexivity.
    + vm_compute. lia.
Defined.

Lemma substring_trigger_witness :
  evaluate dicer_py (u "1d100+3") (const_rng 95) =
  (u "1d100+3: " ++ u "96+3" ++ u "=" ++ str 99 ++ u ", 大失败！", const_rng 95) /\
  fst (evaluate dicer_py (u "30/4d6") (const_rng 5)) = u "4d6: 6+6+6+6=24, 24<=30, 检定通过！".
Proof.
  destruct (substring_trigger dicer_py (or_intror (or_introl eq_refl)))
    as (_ & _ & _ & Hplain & _ & Hcrit).
  split.
  - apply Hcrit; [vm_compute; reflexivity|lia].
  - assert (Hf : flags dicer_py (u "30/4d6") = (false, lvl_n, u "30/4d6"))
      by (vm_compute; reflexivity).
    assert (Hs : split_target (u "30/4d6") = inr (Some 30%Z, u "4d6"))
      by (vm_compute; reflexivity).
    assert (Hr : roll_dice (strip (u "4d6")) (const_rng 5) =
                 (inr (24%Z, u "6+6+6+6"), const_rng 5)) by (vm_compute; reflexivity).
    assert (Hc : contains (u "1d100") (u "4d6") = false) by (vm_compute; reflexivity).
    rewrite (Hplain _ _ _ _ _ _ _ _ _ _ Hf Hs Hr Hc). vm_compute. reflexivity.
Defined.

Lemma repeat_roll_trials_witness :
  fst (repeat Dicer_py (u ".m -2 20/1d100+2") (seq_rng [14; 74]%N)) =
  u "第 1 次 -> 1d100+2: 15+2=17, 17<=20, 检定通过！" ++ [10%N]
    ++ u "第 2 次 -> 1d100+2: 75+2=77, 77>20, 检定失败！" /\
  repeat_directive (u ".d " ++ u "1d6") = inr (2%Z, u "1d6") /\
  repeat_directive (u ".t " ++ u "1d6") = inr (3%Z, u "1d6").
Proof.
  destruct (repeat_roll_trials Dicer_py (or_introl eq_refl)) as (Hlines & Hforms & _).
  split.
  - destruct (Hlines (u ".m -2 20/1d100+2") 2%Z (u "20/1d100+2") (seq_rng [14; 74]%N))
      as (Hw & _); [vm_compute; reflexivity|].
    rewrite Hw. vm_compute. reflexivity.
  - destruct (Hforms (u "1d6")) as (Hd & Ht & _).
    + split; [vm_compute; reflexivity|].
      vm_compute. intros [Hx|[Hx|[Hx|[]]]]; discriminate Hx.
    + split; assumption.
Defined.

Lemma command_rejection_witness :
  quick_roll (u "abc") (const_rng 0) = (u "错误：" ++ u "无效的表达式！", const_rng 0) /\
  repeat Dicer_py (u ".m -x foo") (const_rng 0) =
  (u "错误：" ++ u "无效的重复检定指令！", const_rng 0) /\
  repeat dicer_py (u ".m -0 " ++ u "1d6") (const_rng 0) = ([], const_rng 0).
Proof.
  destruct command_rejection as (Hq & Hr & _ & Hz).
  split; [|split].
  - apply Hq. vm_compute. reflexivity.
  - apply (Hr Dicer_py (or_introl eq_refl)); vm_compute; reflexivity.
  - apply (Hz dicer_py (or_intror (or_introl eq_refl))).
    split; [vm_compute; reflexivity|].
    vm_compute. intros [Hx|[Hx|[Hx|[]]]]; discriminate Hx.
Defined.

Lemma engines_agree_witness :
  Dicer.evaluate_expression (u "1d6+2") (const_rng 3) =
  dicer.evaluate_expression (u "1d6+2") (const_rng 3) /\
  Dicer.evaluate_expression (u "100/1d100" ++ u " -e -g") (const_rng 49) =
  dicer.evaluate_expression (u "100/1d100" ++ u " -e -g") (const_rng 49).
Proof.
  destruct engines_agree as (Hplain & Hflags).
  split.
  - apply Hplain. unfold flag_free. by_computation.
  - apply Hflags.
    + unfold flag_free. by_computation.
    + vm_compute. reflexivity.
    + vm_compute. tauto.
Defined.

Lemma dice_grammar_witness :
  parse_dice (u "3" ++ u "d" ++ u "6" ++ u "+2" ++ u " x") =
  inr {| num_dice := 3; dice_type := 6; modifier := 2;
         modifier_text := Some (u "+2") |}.
Proof.
  destruct (dice_grammar (u "3") (u "6") (u "+2") (u " x"))
    as (count & sides & bonus & _ & Hc & Hs & _ & Hb & _ & _ & Hp);
    [vm_compute; reflexivity | vm_compute; discriminate
     | vm_compute; reflexivity | vm_compute; reflexivity |].
  specialize (Hc ltac:(vm_compute; discriminate)).
  specialize (Hb ltac:(vm_compute; discriminate)).
  vm_compute in Hc, Hs, Hb.
  injection Hc as <-. injection Hs as <-. injection Hb as <-.
  exact Hp.
Defined.

Lemma quick_text_round_trip_witness :
  int (str (-17)) = Some (-17)%Z /\
  parse_dice (u "1d" ++ str 20) =
  inr {| num_dice := 1; dice_type := 20; modifier := 0; modifier_text := None |}.
Proof.
  destruct quick_text_round_trip as [Hint Hparse].
  split; [apply Hint|apply Hparse; lia].
Defined.

Lemma quick_roll_one_die_witness :
  fst (quick_roll (u ".r" ++ u " " ++ u "20" ++ u "abc") (const_rng 6)) = u "1d20: 7=7".
Proof.
  destruct (quick_roll_one_die (u " ") (u "20") (u "abc"))
    as (sides & _ & Hs & _ & Hg);
    [vm_compute; reflexivity | vm_compute; reflexivity
     | vm_compute; reflexivity | vm_compute; reflexivity |].
  specialize (Hs ltac:(vm_compute; discriminate)). vm_compute in Hs.
  injection Hs as <-.
  destruct (Hg (const_rng 6)) as [Hok _].
  destruct (Hok ltac:(lia)) as [Hq _].
  rewrite Hq. vm_compute. reflexivity.
Defined.

Lemma roll_dice_failures_witness :
  const_rng 0 = const_rng 0 /\
  ((EmptyRange 1 0 = ValueError (u "无效的表达式！") /\
    re_match DICE_PATTERN (u "2d0") = None) \/
   (EmptyRange 1 0 = EmptyRange 1 0 /\
    exists d, parse_dice (u "2d0") = inr d /\
              (1 <= num_dice d)%Z /\ dice_type d = 0%Z)).
Proof.
  apply (roll_dice_failures (u "2d0") (const_rng 0) (const_rng 0) (EmptyRange 1 0)).
  vm_compute. reflexivity.
Defined.

Lemma roll_dice_total_range_witness :
  exists total roll_details g',
    roll_dice (u "3d6+2") (seq_rng [2; 2; 3]%N) = (inr (total, roll_details), g') /\
    (3 + 2 <= total <= 3 * 6 + 2)%Z /\
    forall k, g' k = seq_rng [2; 2; 3]%N (Z.to_nat 3 + k)%nat.
Proof.
  apply (roll_dice_total_range (u "3d6+2")
           {| num_dice := 3; dice_type := 6; modifier := 2;
              modifier_text := Some (u "+2") |} (seq_rng [2; 2; 3]%N)).
  - vm_compute. reflexivity.
  - simpl. lia.
Defined.

Lemma evaluate_failures_witness :
  const_rng 0 = const_rng 0 /\
  (TooManyValues = ValueError (u "无效的表达式！") \/ TooManyValues = EmptyRange 1 0 \/
   TooManyValues = TooManyValues \/
   exists t, TooManyValues = InvalidLiteral t /\ int t = None) /\
  evaluate Dicer_py (u "10/1d6/2") (const_rng 0) =
  (u "错误：" ++ str_exn TooManyValues, const_rng 0).
Proof.
  apply (evaluate_failures Dicer_py (or_introl eq_refl) (u "10/1d6/2")
           (const_rng 0) (const_rng 0) TooManyValues).
  vm_compute. reflexivity.
Defined.

Lemma quick_roll_failures_witness :
  const_rng 3 = const_rng 3 /\
  ((EmptyRange 1 0 = ValueError (u "无效的表达式！") /\
    startswith (u ".r") (u ".r0") = false) \/
   (EmptyRange 1 0 = EmptyRange 1 0 /\ startswith (u ".r") (u ".r0") = true)).
Proof.
  apply (quick_roll_failures (u ".r0") (const_rng 3) (const_rng 3) (EmptyRange 1 0)).
  vm_compute. reflexivity.
Defined.

Lemma hard_takes_precedence_witness :
  snd (fst (flags Dicer_py (u "50/1d100 -e -h"))) = lvl_h /\
  snd (fst (flags dicer_py (u "50/1d100-e-h"))) = lvl_h.
Proof.
  split.
  - apply (hard_takes_precedence Dicer_py (or_introl eq_refl)).
    vm_compute. reflexivity.
  - apply (hard_takes_precedence dicer_py (or_intror (or_introl eq_refl))).
    vm_compute. reflexivity.
Defined.

Lemma stray_input_rejected_witness :
  exists e,
    body dicer_py (46%N :: u "help") (const_rng 0) = (inl e, const_rng 0) /\
    evaluate dicer_py (46%N :: u "help") (const_rng 0) =
    (u "错误：" ++ str_exn e, const_rng 0) /\
    startswith (u "错误：") (fst (evaluate dicer_py (46%N :: u "help") (const_rng 0))) = true.
Proof.
  apply (stray_input_rejected dicer_py (or_intror (or_introl eq_refl))).
  vm_compute. reflexivity.
Defined.

Lemma difficulty_order_witness :
  fst (check_success 50 9 lvl_h) = true /\
  fst (check_success (-5) (-5) lvl_h) = true.
Proof.
  split.
  - destruct (difficulty_order 50 9) as (_ & Hpos & _).
    destruct (Hpos ltac:(lia)) as (_ & _ & He & _).
    apply He. vm_compute. reflexivity.
  - destruct (difficulty_order (-5) (-5)) as (_ & _ & Hneg).
    destruct (Hneg ltac:(lia)) as (_ & _ & Hn & _).
    apply Hn. vm_compute. reflexivity.
Defined.

Lemma dot_line_rejected_witness :
  startswith (u "错误：") (u "错误：" ++ u "无效的重复检定指令！") = true /\
  const_rng 0 = const_rng 0.
Proof.
  apply (dot_line_rejected Dicer_py (or_introl eq_refl) (u ".d6") (const_rng 0)).
  - vm_compute. reflexivity.
  - vm_compute. reflexivity.
  - vm_compute. reflexivity.
  - vm_compute. reflexivity.
Defined.


Lemma same_flags_same_line_witness :
  Dicer.evaluate_expression (u "50/1d100 -h") (const_rng 30) =
  dicer.evaluate_expression (u "50/1d100 -h") (const_rng 30).
Proof.
  apply same_flags_same_line. vm_compute. reflexivity.
Defined.

Lemma blank_input_rejected_witness :
  evaluate dicer_py (u "  ") (const_rng 0) = (u "错误：" ++ u "无效的表达式！", const_rng 0) /\
  quick_roll [] (const_rng 0) = (u "错误：" ++ u "无效的表达式！", const_rng 0).
Proof.
  destruct (blank_input_rejected dicer_py (or_intror (or_introl eq_refl))
              (u "  ") (const_rng 0)) as (He & _); [vm_compute; reflexivity|].
  destruct (blank_input_rejected dicer_py (or_intror (or_introl eq_refl))
              [] (const_rng 0)) as (_ & Hq & _); [vm_compute; reflexivity|].
  split; assumption.
Defined.

Lemma repeat_lines_split_witness :
  List.length (split 10%N (fst (repeat Dicer_py (u ".t 1d6") (const_rng 2)))) = 3.
Proof.
  destruct (repeat_lines_split Dicer_py (or_introl eq_refl) CPython_one_line
              (u ".t 1d6") 3%Z (u "1d6") (const_rng 2)) as [Hsplit _];
    [vm_compute; reflexivity|].
  destruct (Hsplit ltac:(lia)) as [Hlines _].
  rewrite Hlines. apply trial_lines_length.
Defined.

Lemma roll_dice_contract_witness :
  fst (roll_dice (u "3d6+2") (seq_rng [2; 2; 3]%N)) = inr (12%Z, u "3+3+4+2") /\
  split 43%N (u "3+3+4") = [u "3"; u "3"; u "4"].
Proof.
  destruct (roll_dice_contract (u "3d6+2")
              {| num_dice := 3; dice_type := 6; modifier := 2;
                 modifier_text := Some (u "+2") |} (seq_rng [2; 2; 3]%N))
    as (rolls & suffix & g' & Hr & Hrolls & _ & _ & _ & Hcut & _ & _ & Hsuffix);
    [vm_compute; reflexivity | simpl; lia | simpl; lia |].
  destruct Hsuffix as [Hsuffix _]; [simpl; lia|].
  cbn [modifier_text] in Hsuffix. injection Hsuffix as <-.
  vm_compute in Hrolls. subst rolls.
  split.
  - rewrite Hr. vm_compute. reflexivity.
  - vm_compute in Hcut. vm_compute. exact Hcut.
Defined.

Lemma accepted_dice_texts_witness :
  roll_dice (u "abc") (const_rng 2) =
  (inl (ValueError (u "无效的表达式！")), const_rng 2) /\
  roll_dice (u "1d0") (const_rng 2) <>
  (inl (ValueError (u "无效的表达式！")), const_rng 2) /\
  exists total roll_details g',
    roll_dice (u "1d6abc") (const_rng 2) =
    (inr (total, roll_details), g').
Proof.
  split; [|split].
  - destruct (accepted_dice_texts (u "abc") (const_rng 2)) as (_ & _ & Hno & _).
    apply Hno. intros (a & y & rest & Heq & Ha & Hy).
    destruct a as [|c a]; vm_compute in Heq; injection Heq as Hc _.
    + discriminate Hc.
    + subst c. vm_compute in Ha. discriminate Ha.
  - destruct (accepted_dice_texts (u "1d0") (const_rng 2)) as (_ & _ & _ & Hyes).
    intros Hr. apply (Hyes Hr). exists [49%N], 48%N, []. by_computation.
  - destruct (accepted_dice_texts (u "1d6abc") (const_rng 2)) as (_ & Hform & _).
    destruct Hform as (d & Hp & [(_ & Hok)|(_ & Hs & _)]).
    + exists [49%N], 54%N, (u "abc"). by_computation.
    + exact Hok.
    + vm_compute in Hp. injection Hp as <-. discriminate Hs.
Defined.

Lemma repeat_roll_cases_witness :
  fst (repeat dicer_py (u ".t 1d6") (const_rng 2)) =
  u "第 1 次 -> 1d6: 3=3, 3" ++ [10%N] ++ u "第 2 次 -> 1d6: 3=3, 3" ++ [10%N]
    ++ u "第 3 次 -> 1d6: 3=3, 3" /\
  fst (repeat Dicer_py (u ".d 1d6") (const_rng 2)) =
  u "第 1 次 -> 1d6: 3=3, 3" ++ [10%N] ++ u "第 2 次 -> 1d6: 3=3, 3".
Proof.
  split.
  - destruct (repeat_roll_cases dicer_py (or_intror (or_introl eq_refl))
                (u ".t 1d6") (const_rng 2))
      as [(_ & Hd & _)|(times & expression & Hr & _ & _ & _ & _ & Hrep & Hkind)].
    + vm_compute in Hd. discriminate Hd.
    + assert (Ht : times = 3%Z).
      { destruct Hkind as [(ws & digits & rest & Hc & _)|[(rest & Hc & _)|(rest & _ & Ht)]].
        - vm_compute in Hc. discriminate Hc.
        - vm_compute in Hc. discriminate Hc.
        - exact Ht. }
      subst times. vm_compute in Hr. injection Hr as <-.
      rewrite Hrep. vm_compute. reflexivity.
  - destruct (repeat_roll_cases Dicer_py (or_introl eq_refl)
                (u ".d 1d6") (const_rng 2))
      as [(_ & Hd & _)|(times & expression & Hr & _ & _ & _ & _ & Hrep & Hkind)].
    + vm_compute in Hd. discriminate Hd.
    + assert (Ht : times = 2%Z).
      { destruct Hkind as [(ws & digits & rest & Hc & _)|[(rest & _ & Ht)|(rest & Hc & _)]].
        - vm_compute in Hc. discriminate Hc.
        - exact Ht.
        - vm_compute in Hc. discriminate Hc. }
      subst times. vm_compute in Hr. injection Hr as <-.
      rewrite Hrep. vm_compute. reflexivity.
Defined.

(** ** Inputs on which the specification and the code part *)

(** C5.  With two separators the text is not cut at the first one: the
    unpacking raises and the entry points return the error string, although
    the dice parser would accept the part after the first separator. *)
Lemma second_slash_not_split :
  split_target (u "10/1d6/2") = inl TooManyValues /\
  fst (Dicer.evaluate_expression (u "10/1d6/2") (const_rng 0)) =
  u "错误：too many values to unpack (expected 2)" /\
  fst (dicer.evaluate_expression (u "10/1d6/2") (const_rng 0)) =
  u "错误：too many values to unpack (expected 2)" /\
  fst (roll_dice (u "1d6/2") (const_rng 0)) = inr (1%Z, u "1").
Proof. by_computation. Qed.

(** C6.  The text 4d100 does not contain 1d100: a total far above 96 is
    reported bare, or compared with the threshold, in both files. *)
Lemma four_d100_not_critical :
  contains (u "1d100") (u "4d100") = false /\
  fst (Dicer.evaluate_expression (u "4d100") (const_rng 99)) =
  u "4d100: 100+100+100+100=400, 400" /\
  fst (dicer.evaluate_expression (u "4d100") (const_rng 99)) =
  u "4d100: 100+100+100+100=400, 400" /\
  fst (Dicer.evaluate_expression (u "50/4d100") (const_rng 99)) =
  u "4d100: 100+100+100+100=400, 400>50, 检定失败！".
Proof. by_computation. Qed.

(** C8.  The m command with the number 0 is not rejected: it returns the
    empty string, which does not begin with the error prefix. *)
Lemma zero_trials_accepted :
  fst (Dicer.repeat_roll (u ".m -0 1d6") (const_rng 0)) = [] /\
  fst (dicer.repeat_roll (u ".m -0 1d6") (const_rng 0)) = [] /\
  startswith (u "错误：") (fst (Dicer.repeat_roll (u ".m -0 1d6") (const_rng 0))) = false.
Proof. by_computation. Qed.

(** C9.  On the input 1d6-g, with the same random source, src/Dicer.py
    keeps the flag in the dice text and src/dicer.py removes it. *)
Lemma engines_differ :
  fst (Dicer.evaluate_expression (u "1d6-g") (const_rng 2)) = u "1d6-g: 3=3, 3" /\
  fst (dicer.evaluate_expression (u "1d6-g") (const_rng 2)) = u "1d6: 3=3, 3" /\
  fst (Dicer.evaluate_expression (u "1d6-g") (const_rng 2)) <>
  fst (dicer.evaluate_expression (u "1d6-g") (const_rng 2)).
Proof.
  split; [vm_compute; reflexivity|]. split; [vm_compute; reflexivity|].
  vm_compute. discriminate.
Qed.
